(** * ComparePlus: the live comparison engine of [src/Compare.cpp]

    A shallow embedding of the alignment table, the deleted-sections
    tracker, the scroll synchronisation, the diff navigator and the
    text-modification handler, with the properties the specification
    states about them.

    Conventions.
    - A C++ [int] is a [Z].  Where the code adds an offset to a line
      number stored in the alignment table, the sum is reduced to the
      32-bit two's complement range ([int]), which is what the compiled
      code does when the sum leaves it.  Indices into a vector and
      lines of a document, which the size of the vector and the number
      of lines of the document bound, are used as they are.  A [DWORD]
      (the tick counter) is a [Z] reduced modulo [2^32] where the code
      does arithmetic on it.
    - [std::vector<T>] is [list T]; [v.size()] cast to [int] is
      [size v].  [operator[]] does not check its index, so every indexed
      access goes through the [Access] monad below, which records the
      index and stops with [OutOfRange] when it is not a position of the
      vector.
    - A loop is a [Fixpoint] on a fuel counter that is only there to make
      the recursion structural; running out of it is the distinct outcome
      [OutOfFuel], and the theorems show it never happens. *)

From Stdlib Require Import ZArith List Lia Bool Sorted.
Import ListNotations.
Open Scope Z_scope.

(** ** Views *)

Definition MAIN_VIEW : Z := 0.
Definition SUB_VIEW : Z := 1.

(** ** Machine integers *)

Definition INT_MAX : Z := 2147483647.
Definition INT_MIN : Z := - 2147483648.

(** The [int] that holds the result [z] of an addition: [z] itself in
    [INT_MIN, INT_MAX], wrapped around modulo [2^32] outside. *)
Definition int (z : Z) : Z := (z - INT_MIN) mod 2 ^ 32 + INT_MIN.

(** ** Indexed accesses to a vector *)

Inductive outcome (A : Type) : Type :=
| Done (a : A)
| OutOfRange (i : Z)
| OutOfFuel.

Arguments Done {A} a.
Arguments OutOfRange {A} i.
Arguments OutOfFuel {A}.

Record Access (A : Type) : Type := mkAccess {
  reads : list Z;      (* the indices handed to operator[], in order *)
  out : outcome A
}.

Arguments mkAccess {A} reads out.
Arguments reads {A} a.
Arguments out {A} a.

Definition ret {A} (a : A) : Access A := mkAccess [] (Done a).

Definition bind {A B} (m : Access A) (f : A -> Access B) : Access B :=
  match out m with
  | Done a => let r := f a in mkAccess (reads m ++ reads r) (out r)
  | OutOfRange i => mkAccess (reads m) (OutOfRange i)
  | OutOfFuel => mkAccess (reads m) OutOfFuel
  end.

Definition timeout {A} : Access A := mkAccess [] OutOfFuel.

Declare Scope access_scope.
Delimit Scope access_scope with access.

Notation "x <- m ;; k" := (bind m (fun x => k))
  (at level 61, m at next level, right associativity) : access_scope.

Open Scope access_scope.

Definition size {T} (v : list T) : Z := Z.of_nat (length v).

Definition lookup {T} (v : list T) (i : Z) : option T :=
  if i <? 0 then None else nth_error v (Z.to_nat i).

(** [v[i]] as a read. *)
Definition at_ {T} (v : list T) (i : Z) : Access T :=
  mkAccess [i] match lookup v i with
               | Some x => Done x
               | None => OutOfRange i
               end.

Fixpoint replace_nth {T} (n : nat) (x : T) (v : list T) : list T :=
  match v, n with
  | [], _ => []
  | _ :: v', O => x :: v'
  | y :: v', S n' => y :: replace_nth n' x v'
  end.

(** [f(v[i])] as a read-modify-write of the element in place. *)
Definition modify_at {T} (v : list T) (i : Z) (f : T -> T) : Access (list T) :=
  mkAccess [i] match lookup v i with
               | Some x => Done (replace_nth (Z.to_nat i) (f x) v)
               | None => OutOfRange i
               end.

(** [v.erase(v.begin() + b, v.begin() + e)] *)
Definition erase {T} (v : list T) (b e : Z) : list T :=
  firstn (Z.to_nat b) v ++ skipn (Z.to_nat e) v.

(** ** The alignment table (AlignmentInfo_t of Engine.h) *)

Record AlignmentViewData : Type := mkViewData {
  line : Z;
  diffMask : Z
}.

Record AlignmentPair : Type := mkPair {
  main : AlignmentViewData;
  sub : AlignmentViewData
}.

Definition AlignmentInfo_t : Type := list AlignmentPair.

(** The pointer to member [AlignmentViewData AlignmentPair::*]. *)
Inductive ViewMember : Type := member_main | member_sub.

Definition member_of (view : Z) : ViewMember :=
  if view =? MAIN_VIEW then member_main else member_sub.

Definition deref (p : ViewMember) (a : AlignmentPair) : AlignmentViewData :=
  match p with
  | member_main => main a
  | member_sub => sub a
  end.

Definition viewLine (p : ViewMember) (a : AlignmentPair) : Z := line (deref p a).

(** [(a.*p).line += offset] *)
Definition addLine (p : ViewMember) (offset : Z) (a : AlignmentPair) : AlignmentPair :=
  match p with
  | member_main =>
      mkPair (mkViewData (int (line (main a) + offset)) (diffMask (main a))) (sub a)
  | member_sub =>
      mkPair (main a) (mkViewData (int (line (sub a) + offset)) (diffMask (sub a)))
  end.

Section AlignmentSearch.

Variable pView : ViewMember.
Variable alignInfo : AlignmentInfo_t.
Variable target : Z.

(** The galloping loop [for (i = size / 2; i; i /= 2)]. *)
Fixpoint gallop (fuel : nat) (i idx : Z) : Access Z :=
  if i =? 0 then ret idx
  else match fuel with
       | O => timeout
       | S fuel' =>
           a <- at_ alignInfo (idx + i) ;;
           gallop fuel' (Z.quot i 2) (if viewLine pView a <? target then idx + i else idx)
       end.

(** The closing linear scan
    [while ((idx < size) && (alignInfo[idx].line < line)) ++idx]. *)
Fixpoint scan (fuel : nat) (idx : Z) : Access Z :=
  if idx <? size alignInfo then
    a <- at_ alignInfo idx ;;
    if viewLine pView a <? target then
      match fuel with
      | O => timeout
      | S fuel' => scan fuel' (idx + 1)
      end
    else ret idx
  else ret idx.

Definition getAlignmentIdxAfter : Access Z :=
  idx <- gallop (length alignInfo) (Z.quot (size alignInfo) 2) 0 ;;
  scan (length alignInfo) idx.

End AlignmentSearch.

Section AlignmentShift.

Variable alignView : ViewMember.
Variable ln : Z.
Variable offset : Z.

(** [while ((endIdx < size) && (line > alignInfo[endIdx].line + offset)) ++endIdx] *)
Fixpoint eraseEnd (alignInfo : AlignmentInfo_t) (fuel : nat) (endIdx : Z) : Access Z :=
  if endIdx <? size alignInfo then
    a <- at_ alignInfo endIdx ;;
    if ln >? int (viewLine alignView a + offset) then
      match fuel with
      | O => timeout
      | S fuel' => eraseEnd alignInfo fuel' (endIdx + 1)
      end
    else ret endIdx
  else ret endIdx.

(** [for (i = startIdx; i < size; ++i) (alignInfo[i].*alignView).line += offset] *)
Fixpoint shiftFrom (fuel : nat) (i : Z) (alignInfo : AlignmentInfo_t) : Access AlignmentInfo_t :=
  if i <? size alignInfo then
    match fuel with
    | O => timeout
    | S fuel' =>
        alignInfo' <- modify_at alignInfo i (addLine alignView offset) ;;
        shiftFrom fuel' (i + 1) alignInfo'
    end
  else ret alignInfo.

End AlignmentShift.

(** [ComparedPair::adjustAlignment], on [summary.alignmentInfo]. *)
Definition adjustAlignment (view ln offset : Z) (alignInfo : AlignmentInfo_t)
  : Access AlignmentInfo_t :=
  let alignView := member_of view in
  startIdx <- getAlignmentIdxAfter alignView alignInfo ln ;;
  hit <- (if startIdx <? size alignInfo
          then a <- at_ alignInfo startIdx ;; ret (viewLine alignView a >=? ln)
          else ret false) ;;
  if (hit : bool) then
    alignInfo1 <- (if offset <? 0 then
                     endIdx <- eraseEnd alignView ln offset alignInfo (length alignInfo) startIdx ;;
                     ret (if endIdx >? startIdx then erase alignInfo startIdx endIdx else alignInfo)
                   else ret alignInfo) ;;
    shiftFrom alignView offset (length alignInfo1) startIdx alignInfo1
  else ret alignInfo.



(** ** Statements about accesses and tables *)

(** [m] runs to completion and its value satisfies [P]. *)
Definition yields {A} (m : Access A) (P : A -> Prop) : Prop :=
  exists a, out m = Done a /\ P a.

(** Every index [m] handed to [operator[]] is a position of a vector of
    [n] elements. *)
Definition within {A} (n : Z) (m : Access A) : Prop :=
  Forall (fun k => 0 <= k < n) (reads m).

(** The loop invariant of the galloping phase. *)
Definition gallop_inv (alignInfo : AlignmentInfo_t) (i idx : Z) : Prop :=
  0 <= i /\ 0 <= idx /\ idx + 2 * i <= size alignInfo.

(** What the galloping phase has learnt about [idx]: nothing when it is
    still 0, else that the entry there lies below the target. *)
Definition below_at (p : ViewMember) (alignInfo : AlignmentInfo_t) (target idx : Z) : Prop :=
  idx = 0 \/ exists a, lookup alignInfo idx = Some a /\ viewLine p a < target.

Definition sortedBy (p : ViewMember) (alignInfo : AlignmentInfo_t) : Prop :=
  Sorted Z.le (map (viewLine p) alignInfo).

(** What [getAlignmentIdxAfter] is specified to return: the first index
    whose entry lies at or after [target], the size when there is none. *)
Definition firstAtOrAfter (p : ViewMember) (alignInfo : AlignmentInfo_t) (target idx : Z) : Prop :=
  0 <= idx <= size alignInfo /\
  (forall k a, 0 <= k < idx -> lookup alignInfo k = Some a -> viewLine p a < target) /\
  (forall a, lookup alignInfo idx = Some a -> target <= viewLine p a).

(** The shift as the specification words it, in terms of the view and
    of the two fields of an entry.  The chosen-view line of an entry is
    the line of its [main] half for the main view and of its [sub] half
    for any other view. *)
Definition lineIn (view : Z) (a : AlignmentPair) : Z :=
  if view =? MAIN_VIEW then line (main a) else line (sub a).

Definition withLineIn (view l : Z) (a : AlignmentPair) : AlignmentPair :=
  if view =? MAIN_VIEW
  then mkPair (mkViewData l (diffMask (main a))) (sub a)
  else mkPair (main a) (mkViewData l (diffMask (sub a))).

(** An entry before [L] is left as it is, an entry at or after [L] has
    its chosen-view line moved by [d]; a deletion of [N] lines at [L]
    removes the entries in [L, L + N). *)
Definition shiftedBy (view L d : Z) (a : AlignmentPair) : AlignmentPair :=
  if lineIn view a <? L then a else withLineIn view (lineIn view a + d) a.

Definition inDeleted (view L N : Z) (a : AlignmentPair) : bool :=
  (L <=? lineIn view a) && (lineIn view a <? L + N).

Definition survives (view L N : Z) (a : AlignmentPair) : bool :=
  negb (inDeleted view L N a).

(** The lines of a table, in both views, are values of an [int]. *)
Definition intLines (alignInfo : AlignmentInfo_t) : Prop :=
  Forall (fun a => INT_MIN <= line (main a) <= INT_MAX /\
                   INT_MIN <= line (sub a) <= INT_MAX) alignInfo.

(** No chosen-view line at or after [L] leaves the [int] range when [N]
    is added to it. *)
Definition fitsAfter (view L N : Z) (alignInfo : AlignmentInfo_t) : Prop :=
  Forall (fun a => L <= lineIn view a -> lineIn view a + N <= INT_MAX) alignInfo.

(** A table with four entries, for concrete runs: main lines 0, 3, 6, 9
    against sub lines 0, 3, 5, 9. *)
Definition fourEntries : AlignmentInfo_t :=
  [mkPair (mkViewData 0 0) (mkViewData 0 0);
   mkPair (mkViewData 3 1) (mkViewData 3 1);
   mkPair (mkViewData 6 2) (mkViewData 5 2);
   mkPair (mkViewData 9 0) (mkViewData 9 0)].

(** A table whose last main line is two below [INT_MAX]. *)
Definition nearIntMax : AlignmentInfo_t :=
  [mkPair (mkViewData 0 0) (mkViewData 0 0);
   mkPair (mkViewData 2147483646 0) (mkViewData 7 0)].

(** ** The host: Notepad++, its two Scintilla views and the clock *)

(** Scintilla.h *)
Definition SC_MOD_INSERTTEXT : Z := 1.
Definition SC_MOD_DELETETEXT : Z := 2.
Definition SC_PERFORMED_USER : Z := 16.
Definition SC_PERFORMED_UNDO : Z := 32.
Definition SC_PERFORMED_REDO : Z := 64.
Definition SC_MOD_BEFOREDELETE : Z := 2048.

(** Modelled from the spec: getOtherViewId of NppHelpers.h is not under
    src/; the two views are "main" and "sub", and the other view of one
    is the other. *)
Definition getOtherViewId (view : Z) : Z :=
  if view =? MAIN_VIEW then SUB_VIEW else MAIN_VIEW.

(** Everything the plugin asks the host to do.  The helpers of
    NppHelpers.cpp ([setMarkers], [clearMarks], [centerAt], [blinkLine],
    [showArrowSymbol], ...) and the window calls are not under src/: a
    call is recorded, and its effect on the host is the host's own
    ([exec] below). *)
Inductive Command : Type :=
| SCI_MARKERADDSET (view ln set : Z)
| SCI_SETFIRSTVISIBLELINE (view ln : Z)
| SCI_SETEMPTYSELECTION (view pos : Z)
| SCI_ANNOTATIONCLEARALL (view : Z)
| setMarkers (view startLine : Z) (markers : list Z)
| clearMarks (view ln : Z)
| clearMarksRange (view startLine len : Z)
| showRange (view ln len : Z)
| centerAt (view ln : Z)
| blinkLine (view ln : Z)
| showArrowSymbol (view ln : Z) (down : bool)
| resetArrowMark
| postArrowMarkTimeout (delay : Z)
| SetFocus (view : Z)
| UpdateWindow (view : Z)
| FlashWindowEx
| NavDlg_Update
| NavDlg_Show
| setStatus
| restoreFiles (buff : Z)
| setNormalMode
| setNormalView (view : Z)
| resetCompareView (view : Z).

(** Everything the plugin asks the host about, as functions of the
    host's state, and the host's reaction to a command.  The two marker
    masks are constants of NppHelpers.h. *)
Class Host (E : Type) : Type := {
  MARKER_MASK_ALL : Z;
  MARKER_MASK_LINE : Z;
  (* the clock *)
  GetTickCount : E -> Z;
  (* Notepad++ *)
  getCurrentBuffId : E -> Z;
  getCurrentViewId : E -> Z;
  (* CallScintilla (view, message, ...) *)
  SCI_GETLINECOUNT : E -> Z -> Z;
  SCI_MARKERGET : E -> Z -> Z -> Z;
  SCI_MARKERNEXT : E -> Z -> Z -> Z -> Z;
  SCI_MARKERPREVIOUS : E -> Z -> Z -> Z -> Z;
  SCI_VISIBLEFROMDOCLINE : E -> Z -> Z -> Z;
  SCI_DOCLINEFROMVISIBLE : E -> Z -> Z -> Z;
  SCI_LINEFROMPOSITION : E -> Z -> Z -> Z;
  (* NppHelpers *)
  getMarkers : E -> Z -> Z -> Z -> Z -> list Z;
  getFirstVisibleLine : E -> Z -> Z;
  getFirstLine : E -> Z -> Z;
  getLastLine : E -> Z -> Z;
  getCurrentLine : E -> Z -> Z;
  getLineStart : E -> Z -> Z -> Z;
  getLineEnd : E -> Z -> Z -> Z;
  isSelection : E -> Z -> bool;
  isLineMarked : E -> Z -> Z -> Z -> bool;
  isLineAnnotated : E -> Z -> Z -> bool;
  isLineVisible : E -> Z -> Z -> bool;
  isLineWrapped : E -> Z -> Z -> bool;
  isAdjacentAnnotation : E -> Z -> Z -> bool -> bool;
  isVisibleAdjacentAnnotation : E -> Z -> Z -> bool -> bool;
  otherViewMatchingLine : E -> Z -> Z -> Z;
  getNextUnmarkedLine : E -> Z -> Z -> Z -> Z;
  getPrevUnmarkedLine : E -> Z -> Z -> Z -> Z;
  (* the host's reaction *)
  exec : E -> Command -> E
}.

(** UserSettings, the fields the engine reads. *)
Record UserSettings : Type := mkSettings {
  RecompareOnChange : bool;
  FollowingCaret : bool;
  ShowOnlyDiffs : bool;
  UseNavBar : bool
}.

(** The host together with the calls made so far. *)
Record World (E : Type) : Type := mkWorld {
  editor : E;
  issued : list Command
}.

Arguments mkWorld {E} editor issued.
Arguments editor {E} w.
Arguments issued {E} w.

(** Code that talks to the host. *)
Definition Sci (E A : Type) : Type := World E -> A * World E.

Definition sret {E A} (a : A) : Sci E A := fun w => (a, w).

Definition sbind {E A B} (m : Sci E A) (f : A -> Sci E B) : Sci E B :=
  fun w => let (a, w') := m w in f a w'.

Definition ask {E A} (q : E -> A) : Sci E A := fun w => (q (editor w), w).

Definition call {E} `{Host E} (c : Command) : Sci E unit :=
  fun w => (tt, mkWorld (exec (editor w) c) (issued w ++ [c])).

(** The host after a list of commands. *)
Definition perform {E} `{Host E} (cs : list Command) (w : World E) : World E :=
  fold_left (fun w c => snd (call c w)) cs w.

Declare Scope sci_scope.
Delimit Scope sci_scope with sci.

Notation "x <- m ;; k" := (sbind m (fun x => k))
  (at level 61, m at next level, right associativity) : sci_scope.
Notation "m ;;; k" := (sbind m (fun _ => k))
  (at level 61, right associativity) : sci_scope.

Open Scope sci_scope.

(** A [std::shared_ptr]: null, or the address of the object it shares. *)
Inductive shared_ptr : Type :=
| nullptr
| object (address : Z).

(** [v.back()], [v.pop_back()] and an assignment through [v.back()]. *)
Definition back {T} (v : list T) : option T := nth_error v (length v - 1).
Definition pop_back {T} (v : list T) : list T := removelast v.
Definition set_back {T} (v : list T) (x : T) : list T := removelast v ++ [x].

(** A [DWORD] sum. *)
Definition dword (x : Z) : Z := x mod 2 ^ 32.

(** ** The deleted sections of a file *)

Module DeletedSection.

Record t : Type := mk {
  startLine : Z;
  lineReplace : bool;
  restoreAction : Z;
  markers : list Z;
  nextLineMarker : Z;
  undoInfo : shared_ptr
}.

(** The constructor [DeletedSection (action, line, undo)]. *)
Definition make (action ln : Z) (undo : shared_ptr) : t :=
  mk ln false (if action =? SC_PERFORMED_UNDO then SC_PERFORMED_REDO else SC_PERFORMED_UNDO)
     [] 0 undo.

Definition with_markers (d : t) (ms : list Z) : t :=
  mk (startLine d) (lineReplace d) (restoreAction d) ms (nextLineMarker d) (undoInfo d).

Definition with_nextLineMarker (d : t) (m : Z) : t :=
  mk (startLine d) (lineReplace d) (restoreAction d) (markers d) m (undoInfo d).

Definition with_lineReplace (d : t) (b : bool) : t :=
  mk (startLine d) b (restoreAction d) (markers d) (nextLineMarker d) (undoInfo d).

End DeletedSection.

Record DeletedSectionsList : Type := mkSections {
  lastPushTimeMark : Z;
  sections : list DeletedSection.t
}.

Section DeletedSections.

Context {E : Type} `{Host E}.
Variable Settings : UserSettings.

(** [DeletedSectionsList::push] *)
Definition push (view currAction startLine len : Z) (undo : shared_ptr)
           (this : DeletedSectionsList) : Sci E (bool * DeletedSectionsList) :=
  if len <? 1 then sret (false, this)
  else if match back (sections this) with
          | Some b => (DeletedSection.restoreAction b =? currAction)
                      && DeletedSection.lineReplace b
          | None => false
          end
  then sret (false, this)
  else
    let delSection := DeletedSection.make currAction startLine undo in
    delSection <-
      (if negb (RecompareOnChange Settings) then
         ms <- ask (fun e => getMarkers e view startLine len MARKER_MASK_ALL) ;;
         let delSection := DeletedSection.with_markers delSection ms in
         n <- ask (fun e => SCI_GETLINECOUNT e view) ;;
         if startLine + len <? n then
           m <- ask (fun e => SCI_MARKERGET e view (startLine + len)) ;;
           sret (DeletedSection.with_nextLineMarker delSection (Z.land m MARKER_MASK_ALL))
         else sret delSection
       else
         call (clearMarksRange view startLine len) ;;;
         sret delSection) ;;
    now <- ask GetTickCount ;;
    sret (true, mkSections now (sections this ++ [delSection])).

(** [DeletedSectionsList::pop] *)
Definition pop (view currAction startLine : Z) (this : DeletedSectionsList)
  : Sci E (shared_ptr * DeletedSectionsList) :=
  match back (sections this) with
  | None => sret (nullptr, this)
  | Some last =>
      if negb (DeletedSection.startLine last =? startLine) then sret (nullptr, this)
      else if negb (DeletedSection.restoreAction last =? currAction) then
        now <- ask GetTickCount ;;
        (* Try to guess if this is the insert part of line replacement operation *)
        let last := if now <? dword (lastPushTimeMark this + 40)
                    then DeletedSection.with_lineReplace last true
                    else last in
        sret (nullptr, mkSections (lastPushTimeMark this) (set_back (sections this) last))
      else
        (if negb (size (DeletedSection.markers last) =? 0) then
           call (setMarkers view (DeletedSection.startLine last) (DeletedSection.markers last)) ;;;
           if negb (DeletedSection.nextLineMarker last =? 0) then
             call (clearMarks view (startLine + size (DeletedSection.markers last))) ;;;
             call (SCI_MARKERADDSET view (startLine + size (DeletedSection.markers last))
                                    (DeletedSection.nextLineMarker last))
           else sret tt
         else sret tt) ;;;
        let undo := DeletedSection.undoInfo last in
        sret (undo, mkSections (lastPushTimeMark this) (pop_back (sections this)))
  end.

End DeletedSections.

(** ** Compared pairs *)

(** Modelled from the spec: DelayedWork of Tools.h is not under src/; a
    deferred action is "a cancellable, replaceable, time-delayed closure":
    posting cancels and replaces any pending instance, cancelling an
    inactive one is a no-op, at most one instance is outstanding.  The
    state is the delay of the pending instance, if any. *)
Module DelayedWork.
Definition t : Type := option Z.
Definition post (delay : Z) (this : t) : t := Some delay.
Definition cancel (this : t) : t := None.
(** [operator bool] *)
Definition pending (this : t) : bool :=
  match this with Some _ => true | None => false end.
End DelayedWork.

(** ComparedFile, the fields the engine reads here. *)
Record ComparedFile : Type := mkFile {
  buffId : Z;
  sciDoc : Z;
  compareViewId : Z;
  deletedSections : DeletedSectionsList
}.

(** CompareOptions of Engine.h, the fields the engine reads here;
    [selections] is the array indexed by the view. *)
Record CompareOptions : Type := mkOptions {
  selectionCompare : bool;
  findUniqueMode : bool;
  selections : Z -> Z * Z
}.

Record CompareSummary : Type := mkSummary {
  alignmentInfo : AlignmentInfo_t
}.

Record ComparedPair : Type := mkCompared {
  file0 : ComparedFile;
  file1 : ComparedFile;
  options : CompareOptions;
  summary : CompareSummary;
  compareDirty : bool;
  manuallyChanged : bool;
  inEqualizeMode : Z;
  autoUpdateDelay : Z
}.

Definition CompareList_t : Type := list ComparedPair.

Fixpoint find_index {T} (f : T -> bool) (l : list T) : option nat :=
  match l with
  | [] => None
  | x :: l' => if f x then Some O else option_map S (find_index f l')
  end.

(** [getCompare]: the position of the first pair one of whose files is
    the buffer, [None] for [compareList.end ()]. *)
Definition getCompare (compareList : CompareList_t) (buff : Z) : option nat :=
  find_index (fun p => (buffId (file0 p) =? buff) || (buffId (file1 p) =? buff)) compareList.

Definition getCompareBySciDoc (compareList : CompareList_t) (doc : Z) : option nat :=
  find_index (fun p => (sciDoc (file0 p) =? doc) || (sciDoc (file1 p) =? doc)) compareList.

(** ** Scroll and caret synchronisation *)

Section SyncViews.

Context {E : Type} `{Host E}.
Variable Settings : UserSettings.

(** [syncViews].  [notificationsLock] only silences the notifications
    the host would send back while a call is under way; there are none
    in this model. *)
Definition syncViews (biasView : Z) : Sci E unit :=
  let otherView := getOtherViewId biasView in
  e <- ask id ;;
  let firstVisible := getFirstVisibleLine e biasView in
  let otherFirstVisible := getFirstVisibleLine e otherView in
  let firstLine := SCI_DOCLINEFROMVISIBLE e biasView firstVisible in
  let otherLine :=
    if firstLine <? SCI_GETLINECOUNT e biasView - 1 then
      if negb (firstVisible =? otherFirstVisible) then
        let otherLastVisible :=
          SCI_VISIBLEFROMDOCLINE e otherView (SCI_GETLINECOUNT e otherView - 1) in
        if firstVisible >? otherLastVisible then otherLastVisible else firstVisible
      else -1
    else if firstVisible >? otherFirstVisible then firstVisible
    else -1 in
  (if otherLine >=? 0 then
     call (SCI_SETFIRSTVISIBLELINE otherView otherLine) ;;;
     call (UpdateWindow otherView)
   else sret tt) ;;;
  e <- ask id ;;
  (if FollowingCaret Settings && (biasView =? getCurrentViewId e) then
     let ln := getCurrentLine e biasView in
     let otherLine := otherViewMatchingLine e biasView ln in
     if negb (otherLine =? getCurrentLine e otherView) && negb (isSelection e otherView) then
       let pos := if isLineAnnotated e otherView otherLine && isLineWrapped e otherView otherLine
                  then getLineEnd e otherView otherLine
                  else getLineStart e otherView otherLine in
       call (SCI_SETEMPTYSELECTION otherView pos) ;;;
       call (UpdateWindow otherView)
     else sret tt
   else sret tt) ;;;
  call NavDlg_Update.

End SyncViews.

(** ** The navigator *)

Section Navigation.

Context {E : Type} `{Host E}.
Variable Settings : UserSettings.
Variable compareList : CompareList_t.

(** [setArrowMark]: the arrow symbol lives until its 2000 ms timeout. *)
Definition setArrowMark (view ln : Z) (down : bool) : Sci E unit :=
  if (view <? 0) || (ln <? 0) then call resetArrowMark
  else
    call (showArrowSymbol view ln down) ;;;
    call resetArrowMark ;;;
    call (postArrowMarkTimeout 2000).

Definition showBlankAdjacentArrowMark (view ln : Z) (down : bool) : Sci E unit :=
  if view <? 0 then setArrowMark (-1) (-1) true
  else
    e <- ask id ;;
    let ln := if (ln <? 0) && FollowingCaret Settings then getCurrentLine e view else ln in
    if (ln >=? 0) && negb (isLineMarked e view ln MARKER_MASK_LINE)
       && isVisibleAdjacentAnnotation e view ln down
    then setArrowMark view ln down
    else setArrowMark (-1) (-1) true.

(** [jumpToNextChange] comes in three parts: what it does before it
    searches, where the search ends (the destination, lines 1441-1506 of
    the source), and how it gets there (lines 1508-1581).  A pure query
    short-circuited by [&&] in the source is evaluated here all the
    same; it changes nothing. *)

(** The marked line the search of one view ends on, from [startLine] or,
    when [isCornerDiff] says that both start lines were negative, from
    the first or last line; a hit on the start line itself does not count
    outside the corner case.  -1 when there is none. *)
Definition nextMarkedLine (e : E) (down isCornerDiff : bool) (view startLine : Z) : Z :=
  let startLine :=
    if isCornerDiff then (if down then 0 else SCI_GETLINECOUNT e view - 1)
    else startLine in
  let nextMarker := if down then SCI_MARKERNEXT e else SCI_MARKERPREVIOUS e in
  let nextLine := nextMarker view startLine MARKER_MASK_LINE in
  if (nextLine =? startLine) && negb isCornerDiff then -1 else nextLine.

(** The destination: the view and line of the next difference in the
    direction [down], [None] at "End of doc reached - no more diffs". *)
Definition nextChange (e : E) (findUnique : bool) (view mainStartLine subStartLine : Z)
           (down : bool) : option (Z * Z) :=
  let otherView := getOtherViewId view in
  let isCornerDiff := (mainStartLine <? 0) && (subStartLine <? 0) in
  let mainNextLine := nextMarkedLine e down isCornerDiff MAIN_VIEW mainStartLine in
  let subNextLine := nextMarkedLine e down isCornerDiff SUB_VIEW subStartLine in
  let ln := if view =? MAIN_VIEW then mainNextLine else subNextLine in
  let otherLine := if view =? MAIN_VIEW then subNextLine else mainNextLine in
  let switched :=
    if findUnique then (otherView, otherLine)
    else (view, otherViewMatchingLine e otherView otherLine) in
  if ln <? 0 then
    (* End of doc reached - no more diffs *)
    if otherLine <? 0 then None else Some switched
  else if otherLine >=? 0 then
    let visibleLine := SCI_VISIBLEFROMDOCLINE e view ln in
    let otherVisibleLine := SCI_VISIBLEFROMDOCLINE e otherView otherLine in
    let switchViews := if down then otherVisibleLine <? visibleLine
                       else otherVisibleLine >? visibleLine in
    Some (if switchViews then switched else (view, ln))
  else Some (view, ln).

(** Getting to the destination [(view, ln)]. *)
Definition landOn (findUnique : bool) (view ln : Z)
           (down goToCornerDiff isCornerDiff doNotBlink : bool) : Sci E (Z * Z) :=
  (if findUnique && FollowingCaret Settings then call (SetFocus view) else sret tt) ;;;
  e <- ask id ;;
  let ln := if negb down && negb (ShowOnlyDiffs Settings) && isLineAnnotated e view ln
            then ln + 1 else ln in
  (* No explicit go to corner diff but we are there - diffs wrap has
     occurred - 'up/down' notion is inverted *)
  let edgeLine := if down then getLastLine e view else getFirstLine e view in
  let currentLine := if FollowingCaret Settings then getCurrentLine e view else edgeLine in
  let dontChangeLine :=
    ((down && (currentLine <=? ln)) || (negb down && (currentLine >=? ln)))
    && (isLineVisible e view ln
        || negb ((down && (edgeLine >? ln)) || (negb down && (edgeLine <? ln)))) in
  let lineToBlink := if isLineVisible e view ln then ln else edgeLine in
  if negb goToCornerDiff && isCornerDiff && dontChangeLine then
    call (blinkLine view lineToBlink) ;;;
    sret (view, -1)
  else
  (* Line is not visible - scroll into view *)
  let scroll :=
    negb (isLineVisible e view ln)
    || (negb (isLineMarked e view ln MARKER_MASK_LINE)
        && isAdjacentAnnotation e view ln down
        && negb (isVisibleAdjacentAnnotation e view ln down)) in
  (if scroll then call (centerAt view ln) else sret tt) ;;;
  let doNotBlink := doNotBlink || scroll in
  e <- ask id ;;
  if FollowingCaret Settings && negb (ln =? getCurrentLine e view) then
    let pos :=
      if down && (isLineAnnotated e view ln && isLineWrapped e view ln
                  && negb (isLineMarked e view ln MARKER_MASK_LINE))
      then getLineEnd e view ln
      else getLineStart e view ln in
    call (SCI_SETEMPTYSELECTION view pos) ;;;
    sret (view, -1)
  else
    (if negb doNotBlink then call (blinkLine view ln) else sret tt) ;;;
    sret (view, ln).

(** The pair behind the iterator [getCompare] returns. *)
Definition currentCompare (e : E) : option ComparedPair :=
  match getCompare compareList (getCurrentBuffId e) with
  | Some cmpPair => nth_error compareList cmpPair
  | None => None
  end.

Definition jumpToNextChange (mainStartLine subStartLine : Z)
           (down goToCornerDiff doNotBlink : bool) : Sci E (Z * Z) :=
  e <- ask id ;;
  match currentCompare e with
  | None => sret (-1, -1)
  | Some cmpPair =>
    let findUnique := findUniqueMode (options cmpPair) in
    let view := getCurrentViewId e in
    let otherView := getOtherViewId view in
    let edgeLine := if down then getLastLine e view else getFirstLine e view in
    let currentLine := if FollowingCaret Settings then getCurrentLine e view else edgeLine in
    (* Is the bias line manually positioned on a screen edge and adjacent to
       invisible blank diff?  Make sure we don't miss it *)
    if negb findUnique && negb goToCornerDiff
       && (negb (isLineMarked e view currentLine MARKER_MASK_LINE)
           && isAdjacentAnnotation e view currentLine down
           && negb (isVisibleAdjacentAnnotation e view currentLine down)
           && isLineMarked e otherView (otherViewMatchingLine e view currentLine + 1)
                           MARKER_MASK_LINE)
    then
      call (centerAt view currentLine) ;;;
      sret (view, currentLine)
    else
      let isCornerDiff := (mainStartLine <? 0) && (subStartLine <? 0) in
      match nextChange e findUnique view mainStartLine subStartLine down with
      | None => sret (-1, -1)
      | Some (view, ln) =>
          landOn findUnique view ln down goToCornerDiff isCornerDiff doNotBlink
      end
  end.

Definition jumpToFirstChange (goToCornerDiff doNotBlink : bool) : Sci E (Z * Z) :=
  viewLoc <- jumpToNextChange 0 0 true goToCornerDiff doNotBlink ;;
  showBlankAdjacentArrowMark (fst viewLoc) (snd viewLoc) true ;;;
  sret viewLoc.

Definition jumpToLastChange (goToCornerDiff doNotBlink : bool) : Sci E (Z * Z) :=
  e <- ask id ;;
  viewLoc <- jumpToNextChange (SCI_GETLINECOUNT e MAIN_VIEW) (SCI_GETLINECOUNT e SUB_VIEW)
                              false goToCornerDiff doNotBlink ;;
  showBlankAdjacentArrowMark (fst viewLoc) (snd viewLoc) false ;;;
  sret viewLoc.

(** The first half of [jumpToChange]: the search in the requested
    direction, from the caret or the screen edge. *)
Definition jumpToChange_search (down : bool) : Sci E (Z * Z) :=
  e <- ask id ;;
  let currentView := getCurrentViewId e in
  let otherView := getOtherViewId currentView in
  let startLines (currentLine otherLine : Z) : Z * Z :=
    if currentView =? MAIN_VIEW then (currentLine, otherLine) else (otherLine, currentLine) in
  if down then
    let currentLine := if FollowingCaret Settings then getCurrentLine e currentView
                       else getLastLine e currentView in
    if FollowingCaret Settings && isLineMarked e currentView currentLine MARKER_MASK_LINE
       && (currentLine >? getLastLine e currentView)
    then
      (* Current line is marked but invisible - get into view *)
      call (centerAt currentView currentLine) ;;;
      sret (currentView, currentLine)
    else
      let currentLineNotAnnotated := negb (isLineAnnotated e currentView currentLine) in
      let currentLine :=
        if negb currentLineNotAnnotated
           && isVisibleAdjacentAnnotation e currentView currentLine down
        then currentLine + 1 else currentLine in
      let otherLine := if FollowingCaret Settings
                       then otherViewMatchingLine e currentView currentLine
                       else getLastLine e otherView in
      let otherLine :=
        if currentLineNotAnnotated && isLineAnnotated e otherView otherLine
        then otherLine + 1 else otherLine in
      let '(mainStartLine, subStartLine) := startLines currentLine otherLine in
      jumpToNextChange (getNextUnmarkedLine e MAIN_VIEW mainStartLine MARKER_MASK_LINE)
                       (getNextUnmarkedLine e SUB_VIEW subStartLine MARKER_MASK_LINE)
                       down false false
  else
    let currentLine := if FollowingCaret Settings then getCurrentLine e currentView
                       else getFirstLine e currentView in
    if FollowingCaret Settings && isLineMarked e currentView currentLine MARKER_MASK_LINE
       && (currentLine <? getFirstLine e currentView)
    then
      (* Current line is marked but invisible - get into view *)
      call (centerAt currentView currentLine) ;;;
      sret (currentView, currentLine)
    else
      let currentLine :=
        if isVisibleAdjacentAnnotation e currentView currentLine down
        then currentLine - 1 else currentLine in
      let otherLine := if FollowingCaret Settings
                       then otherViewMatchingLine e currentView currentLine
                       else getFirstLine e otherView in
      let '(mainStartLine, subStartLine) := startLines currentLine otherLine in
      jumpToNextChange (getPrevUnmarkedLine e MAIN_VIEW mainStartLine MARKER_MASK_LINE)
                       (getPrevUnmarkedLine e SUB_VIEW subStartLine MARKER_MASK_LINE)
                       down false false.

Definition jumpToChange (down wrapAround : bool) : Sci E (Z * Z) :=
  viewLoc <- jumpToChange_search down ;;
  if fst viewLoc <? 0 then
    if wrapAround then
      viewLoc <- (if down then jumpToFirstChange true true else jumpToLastChange true true) ;;
      call FlashWindowEx ;;;
      sret viewLoc
    else
      (if down then jumpToLastChange false false else jumpToFirstChange false false)
  else
    showBlankAdjacentArrowMark (fst viewLoc) (snd viewLoc) down ;;;
    sret viewLoc.

End Navigation.

(** ** Text modifications *)

(** The globals of Compare.cpp the handlers below touch; [notReverting]
    is the static of [onSciModified]. *)
Record Globals : Type := mkGlobals {
  compareList : CompareList_t;
  delayedAlignment : DelayedWork.t;
  delayedActivation : DelayedWork.t;
  delayedActivation_buffId : Z;
  delayedUpdate : DelayedWork.t;
  currentlyActiveBuffID : Z;
  notReverting : bool;
  selectionAutoRecompare : bool
}.

(** SCNotification, the fields [onSciModified] reads after it has found
    the view. *)
Record SCNotification : Type := mkNotification {
  modificationType : Z;
  position : Z;
  linesAdded : Z
}.

(** [x & flag] as a condition. *)
Definition flagged (x flag : Z) : bool := negb (Z.land x flag =? 0).

Definition isNull (p : shared_ptr) : bool :=
  match p with nullptr => true | object _ => false end.

Fixpoint remove_nth {T} (n : nat) (v : list T) : list T :=
  match v, n with
  | [], _ => []
  | _ :: v', O => v'
  | x :: v', S n' => x :: remove_nth n' v'
  end.

(** [ComparedPair::setCompareDirty] *)
Definition setCompareDirty (p : ComparedPair) : ComparedPair :=
  mkCompared (file0 p) (file1 p) (options p) (summary p)
             true (if inEqualizeMode p =? 0 then true else manuallyChanged p)
             (inEqualizeMode p) (autoUpdateDelay p).

Definition with_selection (p : ComparedPair) (view : Z) (sel : Z * Z) : ComparedPair :=
  mkCompared (file0 p) (file1 p)
             (mkOptions (selectionCompare (options p)) (findUniqueMode (options p))
                        (fun v => if v =? view then sel else selections (options p) v))
             (summary p) (compareDirty p) (manuallyChanged p)
             (inEqualizeMode p) (autoUpdateDelay p).

Definition with_alignmentInfo (p : ComparedPair) (t : AlignmentInfo_t) : ComparedPair :=
  mkCompared (file0 p) (file1 p) (options p) (mkSummary t)
             (compareDirty p) (manuallyChanged p) (inEqualizeMode p) (autoUpdateDelay p).

Definition with_autoUpdateDelay (p : ComparedPair) (d : Z) : ComparedPair :=
  mkCompared (file0 p) (file1 p) (options p) (summary p)
             (compareDirty p) (manuallyChanged p) (inEqualizeMode p) d.

(** The pair behind the iterator [it] replaced in the list. *)
Definition commit (g : Globals) (it : nat) (p : ComparedPair) : Globals :=
  mkGlobals (replace_nth it p (compareList g))
            (delayedAlignment g) (delayedActivation g) (delayedActivation_buffId g)
            (delayedUpdate g) (currentlyActiveBuffID g) (notReverting g)
            (selectionAutoRecompare g).

(** The table [adjustAlignment] leaves in place; it always runs to
    completion ([adjustAlignment_total]). *)
Definition adjustedAlignment (view ln offset : Z) (alignInfo : AlignmentInfo_t) : AlignmentInfo_t :=
  match out (adjustAlignment view ln offset alignInfo) with
  | Done t => t
  | _ => alignInfo
  end.

(** The selection range of [view] after an edit of [added] lines at
    [startLine], and whether it was touched ("Adjust selections if in
    selection compare"). *)
Definition adjustSelection (p : ComparedPair) (view startLine added : Z) : (Z * Z) * bool :=
  let first := fst (selections (options p) view) in
  let second := snd (selections (options p) view) in
  let endLine := startLine + Z.abs added - 1 in
  let '(first, adjusted1) :=
    if first >? startLine then
      ((if added >? 0 then first + added
        else if first >? endLine then first + added
        else first - (first - startLine)), true)
    else (first, false) in
  (* Handle the special case when the end of the selection compare is
     diff-equalized *)
  let startLine :=
    if negb (inEqualizeMode p =? 0) && (second =? startLine - 1) && (added >? 0)
    then startLine - 1 else startLine in
  let '(second, adjusted2) :=
    if second >=? startLine then
      ((if added >? 0 then second + added
        else if second >=? endLine then second + added
        else second - (second - startLine + 1)), true)
    else (second, false) in
  ((first, second), adjusted1 || adjusted2).

Definition inSelection (p : ComparedPair) (view ln : Z) : bool :=
  (ln >=? fst (selections (options p) view)) && (ln <=? snd (selections (options p) view)).

Section Handlers.

Context {E : Type} `{Host E}.
Variable Settings : UserSettings.

(** [onBufferActivated] *)
Definition onBufferActivated (buff : Z) (g : Globals) : Sci E Globals :=
  let g := mkGlobals (compareList g)
                     (DelayedWork.cancel (delayedAlignment g))
                     (DelayedWork.cancel (delayedActivation g))
                     (delayedActivation_buffId g)
                     (DelayedWork.cancel (delayedUpdate g))
                     (currentlyActiveBuffID g) (notReverting g)
                     (selectionAutoRecompare g) in
  match getCompare (compareList g) buff with
  | None =>
      call setNormalMode ;;;
      e <- ask id ;;
      call (setNormalView (getCurrentViewId e)) ;;;
      e <- ask id ;;
      call (resetCompareView (getOtherViewId (getCurrentViewId e))) ;;;
      sret (mkGlobals (compareList g) (delayedAlignment g) (delayedActivation g)
                      (delayedActivation_buffId g) (delayedUpdate g)
                      buff (notReverting g) (selectionAutoRecompare g))
  | Some _ =>
      sret (mkGlobals (compareList g) (delayedAlignment g)
                      (DelayedWork.post 30 (delayedActivation g)) buff
                      (delayedUpdate g) (currentlyActiveBuffID g) (notReverting g)
                      (selectionAutoRecompare g))
  end.

(** [clearComparePair] *)
Definition clearComparePair (buff : Z) (g : Globals) : Sci E Globals :=
  match getCompare (compareList g) buff with
  | None => sret g
  | Some cmpPair =>
      call (restoreFiles buff) ;;;
      let g := mkGlobals (remove_nth cmpPair (compareList g))
                         (delayedAlignment g) (delayedActivation g)
                         (delayedActivation_buffId g) (delayedUpdate g)
                         (currentlyActiveBuffID g) (notReverting g)
                         (selectionAutoRecompare g) in
      e <- ask id ;;
      onBufferActivated (getCurrentBuffId e) g
  end.

(** [onSciPaint] *)
Definition onSciPaint (g : Globals) : Globals :=
  mkGlobals (compareList g) (DelayedWork.post 30 (delayedAlignment g))
            (delayedActivation g) (delayedActivation_buffId g) (delayedUpdate g)
            (currentlyActiveBuffID g) (notReverting g) (selectionAutoRecompare g).

(** [DelayedAlign::operator ()] up to the re-compare it posts (lines
    3317-3331 of the source).  What the operator does for a pair
    without a pending re-compare delay (lines 3333-3402: the alignment
    of the views, the jump to the first difference and the restoring of
    the stored location, on globals and helpers that are not embedded
    here) is the parameter [alignViews], which is given the iterator of
    the pair; nothing is assumed of it. *)
Definition DelayedAlign_call (alignViews : nat -> Globals -> Sci E Globals) (g : Globals)
  : Sci E Globals :=
  e <- ask id ;;
  match getCompare (compareList g) (getCurrentBuffId e) with
  | None => sret g
  | Some cmpPair =>
      match nth_error (compareList g) cmpPair with
      | None => sret g
      | Some p =>
          if negb (autoUpdateDelay p =? 0) then
            sret (mkGlobals (compareList g) (delayedAlignment g) (delayedActivation g)
                            (delayedActivation_buffId g)
                            (DelayedWork.post (autoUpdateDelay p) (delayedUpdate g))
                            (currentlyActiveBuffID g) (notReverting g)
                            (selectionAutoRecompare g))
          else alignViews cmpPair g
      end
  end.

(** Whether the selection of a selection compare is adjusted by this
    notification, and whether the adjustment leaves it without a line
    outside equalize mode. *)
Definition adjustsSelection (notifyCode : SCNotification) (p : ComparedPair)
           (undo : shared_ptr) (selectionsAdjusted : bool) : bool :=
  selectionCompare (options p) && negb (linesAdded notifyCode =? 0)
  && isNull undo && negb selectionsAdjusted.

(** "Set compare dirty flag if needed": the pair and [updateStatus]. *)
Definition markDirty (notifyCode : SCNotification) (view startLine : Z) (undo : shared_ptr)
           (notReverting : bool) (p : ComparedPair) : ComparedPair * bool :=
  if negb (RecompareOnChange Settings) && notReverting && isNull undo then
    if negb (compareDirty p) || ((inEqualizeMode p =? 0) && negb (manuallyChanged p)) then
      if negb (selectionCompare (options p)) then (setCompareDirty p, true)
      else
        let '(p, updateStatus) :=
          if inSelection p view startLine then (setCompareDirty p, true)
          else (p, false) in
        if negb updateStatus && negb (linesAdded notifyCode =? 0)
           && flagged (modificationType notifyCode) SC_MOD_DELETETEXT
        then
          if inSelection p view (startLine + (linesAdded notifyCode + 1))
          then (setCompareDirty p, true) else (p, updateStatus)
        else (p, updateStatus)
    else (p, false)
  else (p, false).

(** [onSciModified] from "if ((notifyCode->modificationType &
    SC_MOD_DELETETEXT) || ...)" to its end: what a text modification
    does to the pair behind [cmpPair], given the view of the
    notification and what the blocks before it left in [undo] and
    [selectionsAdjusted]. *)
Definition onSciModified_text (notifyCode : SCNotification) (view : Z) (cmpPair : nat)
           (undo : shared_ptr) (selectionsAdjusted : bool) (g : Globals)
  : Sci E Globals :=
  match nth_error (compareList g) cmpPair with
  | None => sret g
  | Some p =>
    if flagged (modificationType notifyCode) SC_MOD_DELETETEXT
       || flagged (modificationType notifyCode) SC_MOD_INSERTTEXT
    then
      let g := mkGlobals (compareList g)
                         (DelayedWork.cancel (delayedAlignment g))
                         (delayedActivation g) (delayedActivation_buffId g)
                         (DelayedWork.cancel (delayedUpdate g))
                         (currentlyActiveBuffID g)
                         (if linesAdded notifyCode =? 0 then true else notReverting g)
                         (selectionAutoRecompare g) in
      e <- ask id ;;
      let startLine := SCI_LINEFROMPOSITION e view (position notifyCode) in
      (* Set compare dirty flag if needed *)
      let '(p, updateStatus) := markDirty notifyCode view startLine undo (notReverting g) p in
      (* Adjust selections if in selection compare *)
      let adjusts := adjustsSelection notifyCode p undo selectionsAdjusted in
      let '(sel, touched) := adjustSelection p view startLine (linesAdded notifyCode) in
      let p := if adjusts then with_selection p view sel else p in
      let selectionsAdjusted := if adjusts then touched else selectionsAdjusted in
      if adjusts && (inEqualizeMode p =? 0) && (snd sel <? fst sel) then
        clearComparePair (getCurrentBuffId e) (commit g cmpPair p)
      else if RecompareOnChange Settings then
        (* Leave bigger delay before re-compare if change is on single line
           because the user might be typing *)
        sret (commit g cmpPair
                     (with_autoUpdateDelay p (if negb (linesAdded notifyCode =? 0)
                                              then 500 else 1000)))
      else
        let p :=
          if negb (linesAdded notifyCode =? 0) && isNull undo
             && (negb (selectionCompare (options p)) || selectionsAdjusted)
          then with_alignmentInfo p (adjustedAlignment view startLine (linesAdded notifyCode)
                                                       (alignmentInfo (summary p)))
          else p in
        (if negb (linesAdded notifyCode =? 0) && selectionsAdjusted then
           call (SCI_ANNOTATIONCLEARALL view) ;;;
           call (SCI_ANNOTATIONCLEARALL (getOtherViewId view))
         else sret tt) ;;;
        let g :=
          if negb (linesAdded notifyCode =? 0) && selectionsAdjusted
          then mkGlobals (compareList g) (delayedAlignment g) (delayedActivation g)
                         (delayedActivation_buffId g) (delayedUpdate g)
                         (currentlyActiveBuffID g) (notReverting g) true
          else g in
        (if negb (linesAdded notifyCode =? 0) && UseNavBar Settings
            && (inEqualizeMode p =? 0)
         then call NavDlg_Show else sret tt) ;;;
        (if updateStatus then call setStatus else sret tt) ;;;
        sret (commit g cmpPair p)
    else sret g
  end.

End Handlers.

(** ** A plain host for concrete runs *)

(** Modelled from the spec: the TextView capability ("read line count,
    get/set/clear line markers, scroll control, visible-line to
    document-line translation") lives in Scintilla and NppHelpers.cpp,
    which are not under src/.  This host is the plainest one that
    provides it: two views (every view other than the main view is the
    sub view) without folding, wrapping or annotations (a visible line
    is a document line, no line is annotated), one marker bitmap per
    line, one position per line (the line number), a caret and a first
    visible line per view, and a screen of [screen] lines.  It is only
    used to run the engine on concrete documents. *)
Record SimpleHost : Type := mkSimple {
  marksMain : list Z;
  marksSub : list Z;
  caretMain : Z;
  caretSub : Z;
  firstMain : Z;
  firstSub : Z;
  screen : Z;
  currentView : Z;
  currentBuff : Z;
  tick : Z
}.

Module Simple.

Definition marks (e : SimpleHost) (view : Z) : list Z :=
  if view =? MAIN_VIEW then marksMain e else marksSub e.

Definition caret (e : SimpleHost) (view : Z) : Z :=
  if view =? MAIN_VIEW then caretMain e else caretSub e.

Definition first (e : SimpleHost) (view : Z) : Z :=
  if view =? MAIN_VIEW then firstMain e else firstSub e.

Definition with_marks (e : SimpleHost) (view : Z) (ms : list Z) : SimpleHost :=
  if view =? MAIN_VIEW
  then mkSimple ms (marksSub e) (caretMain e) (caretSub e) (firstMain e) (firstSub e)
                (screen e) (currentView e) (currentBuff e) (tick e)
  else mkSimple (marksMain e) ms (caretMain e) (caretSub e) (firstMain e) (firstSub e)
                (screen e) (currentView e) (currentBuff e) (tick e).

Definition with_caret (e : SimpleHost) (view : Z) (c : Z) : SimpleHost :=
  if view =? MAIN_VIEW
  then mkSimple (marksMain e) (marksSub e) c (caretSub e) (firstMain e) (firstSub e)
                (screen e) (currentView e) (currentBuff e) (tick e)
  else mkSimple (marksMain e) (marksSub e) (caretMain e) c (firstMain e) (firstSub e)
                (screen e) (currentView e) (currentBuff e) (tick e).

Definition with_first (e : SimpleHost) (view : Z) (f : Z) : SimpleHost :=
  if view =? MAIN_VIEW
  then mkSimple (marksMain e) (marksSub e) (caretMain e) (caretSub e) f (firstSub e)
                (screen e) (currentView e) (currentBuff e) (tick e)
  else mkSimple (marksMain e) (marksSub e) (caretMain e) (caretSub e) (firstMain e) f
                (screen e) (currentView e) (currentBuff e) (tick e).

Definition with_view (e : SimpleHost) (view : Z) : SimpleHost :=
  mkSimple (marksMain e) (marksSub e) (caretMain e) (caretSub e) (firstMain e) (firstSub e)
           (screen e) view (currentBuff e) (tick e).

(** A document has at least one line. *)
Definition lineCount (e : SimpleHost) (view : Z) : Z := Z.max 1 (size (marks e view)).

Definition clamp (e : SimpleHost) (view ln : Z) : Z :=
  Z.max 0 (Z.min ln (lineCount e view - 1)).

Definition markerGet (e : SimpleHost) (view ln : Z) : Z :=
  match lookup (marks e view) ln with Some m => m | None => 0 end.

Definition marked (mask m : Z) : bool := negb (Z.land m mask =? 0).

(** The first line at or after [start] that satisfies [ok], counting
    the lines of [ms] from [ln]; -1 when there is none. *)
Fixpoint search_down (ok : Z -> bool) (ms : list Z) (ln start : Z) : Z :=
  match ms with
  | [] => -1
  | m :: ms' => if (start <=? ln) && ok m then ln else search_down ok ms' (ln + 1) start
  end.

(** The last line at or before [start] that satisfies [ok]. *)
Fixpoint search_up (ok : Z -> bool) (ms : list Z) (ln start : Z) : Z :=
  match ms with
  | [] => -1
  | m :: ms' =>
      let later := search_up ok ms' (ln + 1) start in
      if later >=? 0 then later
      else if (ln <=? start) && ok m then ln else -1
  end.

Definition getMarkers (e : SimpleHost) (view startLine len mask : Z) : list Z :=
  map (fun m => Z.land m mask)
      (firstn (Z.to_nat len) (skipn (Z.to_nat startLine) (marks e view))).

(** Lines [startLine ..] of [ms] overwritten with [new], line by line. *)
Fixpoint overwrite (ms : list Z) (startLine : nat) (new : list Z) : list Z :=
  match ms, startLine, new with
  | [], _, _ => []
  | _, _, [] => ms
  | m :: ms', O, x :: new' => x :: overwrite ms' O new'
  | m :: ms', S k, _ => m :: overwrite ms' k new
  end.

Definition update_line (e : SimpleHost) (view ln : Z) (f : Z -> Z) : SimpleHost :=
  match lookup (marks e view) ln with
  | Some m => with_marks e view (replace_nth (Z.to_nat ln) (f m) (marks e view))
  | None => e
  end.

Definition exec (e : SimpleHost) (c : Command) : SimpleHost :=
  match c with
  | SCI_MARKERADDSET view ln set => update_line e view ln (fun m => Z.lor m set)
  | SCI_SETFIRSTVISIBLELINE view ln => with_first e view ln
  | SCI_SETEMPTYSELECTION view pos => with_caret e view pos
  | setMarkers view startLine ms =>
      if startLine <? 0 then e
      else with_marks e view (overwrite (marks e view) (Z.to_nat startLine) ms)
  | clearMarks view ln => update_line e view ln (fun _ => 0)
  | clearMarksRange view startLine len =>
      if startLine <? 0 then e
      else with_marks e view
             (overwrite (marks e view) (Z.to_nat startLine) (repeat 0 (Z.to_nat len)))
  | centerAt view ln => with_first e view (ln - Z.quot (screen e) 2)
  | SetFocus view => with_view e view
  | _ => e
  end.

End Simple.

#[export] Instance simpleHost : Host SimpleHost := {
  MARKER_MASK_ALL := 255;
  MARKER_MASK_LINE := 15;
  GetTickCount := tick;
  getCurrentBuffId := currentBuff;
  getCurrentViewId := fun e => if currentView e =? MAIN_VIEW then MAIN_VIEW else SUB_VIEW;
  SCI_GETLINECOUNT := Simple.lineCount;
  SCI_MARKERGET := Simple.markerGet;
  SCI_MARKERNEXT := fun e view start mask =>
    Simple.search_down (Simple.marked mask) (Simple.marks e view) 0 start;
  SCI_MARKERPREVIOUS := fun e view start mask =>
    Simple.search_up (Simple.marked mask) (Simple.marks e view) 0 start;
  SCI_VISIBLEFROMDOCLINE := fun e view ln => ln;
  SCI_DOCLINEFROMVISIBLE := fun e view ln => ln;
  SCI_LINEFROMPOSITION := fun e view pos => pos;
  getMarkers := Simple.getMarkers;
  getFirstVisibleLine := Simple.first;
  getFirstLine := fun e view => Simple.clamp e view (Simple.first e view);
  getLastLine := fun e view => Simple.clamp e view (Simple.first e view + screen e - 1);
  getCurrentLine := fun e view => Simple.clamp e view (Simple.caret e view);
  getLineStart := fun e view ln => ln;
  getLineEnd := fun e view ln => ln;
  isSelection := fun e view => false;
  isLineMarked := fun e view ln mask => Simple.marked mask (Simple.markerGet e view ln);
  isLineAnnotated := fun e view ln => false;
  isLineVisible := fun e view ln =>
    (Simple.clamp e view (Simple.first e view) <=? ln)
    && (ln <=? Simple.clamp e view (Simple.first e view + screen e - 1));
  isLineWrapped := fun e view ln => false;
  isAdjacentAnnotation := fun e view ln down => false;
  isVisibleAdjacentAnnotation := fun e view ln down => false;
  otherViewMatchingLine := fun e view ln => Simple.clamp e (getOtherViewId view) ln;
  getNextUnmarkedLine := fun e view start mask =>
    Simple.search_down (fun m => negb (Simple.marked mask m)) (Simple.marks e view) 0 start;
  getPrevUnmarkedLine := fun e view start mask =>
    Simple.search_up (fun m => negb (Simple.marked mask m)) (Simple.marks e view) 0 start;
  exec := Simple.exec
}.

(** A document of ten lines in each view whose fourth line (line 3) is
    the only difference, seen in full on a screen of twenty lines, the
    caret of the main view on line 7 and the main view current; the pair
    of buffers 1 and 2 is compared. *)
Definition tenLines (mark3 : Z) : list Z := [0; 0; 0; mark3; 0; 0; 0; 0; 0; 0].

Definition oneDiffHost : SimpleHost :=
  mkSimple (tenLines 1) (tenLines 1) 7 0 0 0 20 MAIN_VIEW 1 1000.

Definition noSections : DeletedSectionsList := mkSections 0 [].

Definition plainPair : ComparedPair :=
  mkCompared (mkFile 1 101 MAIN_VIEW noSections) (mkFile 2 102 SUB_VIEW noSections)
             (mkOptions false false (fun _ => (-1, -1))) (mkSummary [])
             false false 0 0.

Definition followCaret : UserSettings := mkSettings false true false false.
Definition freeCaret : UserSettings := mkSettings false false false false.


(** ** Statements about the deleted sections *)

(** The tag of the action that takes back what was done under
    [action]: a redo takes back an undo, an undo takes back an edit of
    the user or a redo. *)
Definition inverseAction (action : Z) : Z :=
  if action =? SC_PERFORMED_UNDO then SC_PERFORMED_REDO else SC_PERFORMED_UNDO.

(** What [push] captures of the markers of [view]: the bitmaps of the
    lines [startLine ..] and the bitmap of the line after them, nothing
    when the comparison is recomputed on every change. *)
Definition capturedMarkers {E} `{Host E} (Settings : UserSettings) (e : E)
           (view startLine len : Z) : list Z :=
  if RecompareOnChange Settings then []
  else getMarkers e view startLine len MARKER_MASK_ALL.

Definition capturedNextLineMarker {E} `{Host E} (Settings : UserSettings) (e : E)
           (view startLine len : Z) : Z :=
  if RecompareOnChange Settings then 0
  else if startLine + len <? SCI_GETLINECOUNT e view
       then Z.land (SCI_MARKERGET e view (startLine + len)) MARKER_MASK_ALL
       else 0.

(** The calls that put captured markers back: the lines themselves, then
    the line after them when it had a marker. *)
Definition restoreCalls (view startLine : Z) (ms : list Z) (next : Z) : list Command :=
  match ms with
  | [] => []
  | _ :: _ =>
      setMarkers view startLine ms ::
      (if next =? 0 then []
       else [clearMarks view (startLine + size ms);
             SCI_MARKERADDSET view (startLine + size ms) next])
  end.


(** ** Statements about the calls made to the host *)

(** No call in [cs] scrolls a view. *)
Definition noScroll (cs : list Command) : Prop :=
  forall view ln, ~ In (SCI_SETFIRSTVISIBLELINE view ln) cs.

(** Three lines in the main view, scrolled to its last line, against ten
    lines in the sub view scrolled to line 5, on a screen of four
    lines. *)
Definition shortMainHost : SimpleHost :=
  mkSimple [0; 0; 0] (tenLines 0) 0 0 2 5 4 MAIN_VIEW 1 1000.

(** ** Statements about the navigator *)

Definition validView (view : Z) : Prop := view = MAIN_VIEW \/ view = SUB_VIEW.

(** The first difference of the two documents as seen from [view]: the
    first marked line of [view] or the first marked line of the other
    view, whichever comes first on the screen ([view]'s own when they
    are level).  The difference of the other view is answered as the
    line of [view] that matches it and, in find-unique mode, as the
    line of the other view itself.  [None] when no line is marked. *)
Definition firstDifference {E} `{Host E} (e : E) (findUnique : bool) (view : Z)
  : option (Z * Z) :=
  let otherView := getOtherViewId view in
  let own := SCI_MARKERNEXT e view 0 MARKER_MASK_LINE in
  let other := SCI_MARKERNEXT e otherView 0 MARKER_MASK_LINE in
  let ofOther := if findUnique then (otherView, other)
                 else (view, otherViewMatchingLine e otherView other) in
  if (own <? 0) && (other <? 0) then None
  else if own <? 0 then Some ofOther
  else if other <? 0 then Some (view, own)
  else if SCI_VISIBLEFROMDOCLINE e otherView other <? SCI_VISIBLEFROMDOCLINE e view own
  then Some ofOther
  else Some (view, own).

(** A host whose answers stay inside its documents: the current view is
    one of the two views, none of the calls the engine makes changes the
    number of lines, a marker search answers -1 or a line of the
    document, and the caret line, the screen edge lines and the line
    matching a line of the other view are lines of the document. *)
Record InRange {E : Type} `{Host E} : Prop := mkInRange {
  current_view_valid : forall e, validView (getCurrentViewId e);
  lines_kept : forall e c view,
    SCI_GETLINECOUNT (exec e c) view = SCI_GETLINECOUNT e view;
  marker_next_range : forall e view start mask,
    SCI_MARKERNEXT e view start mask = -1 \/
    0 <= SCI_MARKERNEXT e view start mask < SCI_GETLINECOUNT e view;
  marker_previous_range : forall e view start mask,
    SCI_MARKERPREVIOUS e view start mask = -1 \/
    0 <= SCI_MARKERPREVIOUS e view start mask < SCI_GETLINECOUNT e view;
  current_line_range : forall e view,
    0 <= getCurrentLine e view < SCI_GETLINECOUNT e view;
  first_line_range : forall e view,
    0 <= getFirstLine e view < SCI_GETLINECOUNT e view;
  last_line_range : forall e view,
    0 <= getLastLine e view < SCI_GETLINECOUNT e view;
  matching_line_range : forall e view ln,
    0 <= otherViewMatchingLine e view ln < SCI_GETLINECOUNT e (getOtherViewId view)
}.

Arguments InRange E {_}.

(** No blank padding hangs below the last line of a view. *)
Definition lastLinesBare {E : Type} `{Host E} : Prop :=
  forall e view, isLineAnnotated e view (SCI_GETLINECOUNT e view - 1) = false.

(** The line of a location is -1 or a line of its view. *)
Definition lineInRange {E : Type} `{Host E} (w : World E) (loc : Z * Z) : Prop :=
  snd loc = -1 \/ 0 <= snd loc < SCI_GETLINECOUNT (editor w) (fst loc).

(** The same, but for the line below the last line, which an upward
    search answers when the last line is annotated. *)
Definition lineNearRange {E : Type} `{Host E} (w : World E) (loc : Z * Z) : Prop :=
  snd loc = -1 \/ 0 <= snd loc <= SCI_GETLINECOUNT (editor w) (fst loc).

Definition lineAnswered {E : Type} `{Host E} (w : World E) (loc : Z * Z) : Prop :=
  snd loc = -1 \/
  0 <= snd loc < SCI_GETLINECOUNT (editor w) (fst loc) \/
  (0 <= snd loc /\ snd loc = SCI_GETLINECOUNT (editor w) (fst loc) /\
   exists e0, SCI_GETLINECOUNT e0 (fst loc) = snd loc /\
              isLineAnnotated e0 (fst loc) (snd loc - 1) = true).

(** Both worlds have the same number of lines in every view. *)
Definition sameLines {E : Type} `{Host E} (w w' : World E) : Prop :=
  forall view, SCI_GETLINECOUNT (editor w') view = SCI_GETLINECOUNT (editor w) view.

(** What every search of the navigator has in common: the number of
    lines stays, the line answered is -1, a line of the view or the line
    below an annotated last line, and an answer without a view means
    that nothing was asked of the host. *)
Definition searchOk {E : Type} `{Host E} (w : World E) (r : (Z * Z) * World E) : Prop :=
  sameLines w (snd r) /\ lineAnswered (snd r) (fst r) /\
  (fst (fst r) < 0 -> snd r = w).

(** ** Statements about text modifications *)

(** The notification is a text modification. *)
Definition textModified (notifyCode : SCNotification) : bool :=
  flagged (modificationType notifyCode) SC_MOD_DELETETEXT
  || flagged (modificationType notifyCode) SC_MOD_INSERTTEXT.

(** The adjustment of the tracked selection of [view] by this
    notification, outside equalize mode, leaves the selection without a
    line (its end before its start). *)
Definition collapses (notifyCode : SCNotification) (view startLine : Z) (p : ComparedPair)
           (undo : shared_ptr) (selectionsAdjusted : bool) : bool :=
  (selectionCompare (options p) && negb (linesAdded notifyCode =? 0)
   && isNull undo && negb selectionsAdjusted)
  && (inEqualizeMode p =? 0)
  && (snd (fst (adjustSelection p view startLine (linesAdded notifyCode)))
      <? fst (fst (adjustSelection p view startLine (linesAdded notifyCode)))).

(** The edit starts on a line of the tracked selection of [view], or is
    a deletion and the line [linesAdded + 1] after its start line is
    one. *)
Definition touchesSelection (notifyCode : SCNotification) (view startLine : Z)
           (p : ComparedPair) : bool :=
  let first := fst (selections (options p) view) in
  let second := snd (selections (options p) view) in
  ((first <=? startLine) && (startLine <=? second))
  || (flagged (modificationType notifyCode) SC_MOD_DELETETEXT
      && (first <=? startLine + (linesAdded notifyCode + 1))
      && (startLine + (linesAdded notifyCode + 1) <=? second)).

(** The edit is one that marks a selection compare outside equalize
    mode dirty: the comparison is not redone on every change, the edit
    does not revert another, the pair is not already both dirty and
    manually changed, and the edit touches the selection. *)
Definition dirtiedBy (Settings : UserSettings) (notifyCode : SCNotification)
           (view startLine : Z) (notReverting : bool) (p : ComparedPair) : bool :=
  negb (RecompareOnChange Settings) && notReverting
  && (negb (compareDirty p) || negb (manuallyChanged p))
  && touchesSelection notifyCode view startLine p.

(** The alignment tables of the compared pairs. *)
Definition alignmentTables (g : Globals) : list AlignmentInfo_t :=
  map (fun p => alignmentInfo (summary p)) (compareList g).

(** A selection compare of lines 5-6 of both views of buffers 1 and 2,
    with the four-entry table, and the deletion by the user of the five
    lines from line 3 on in the main view. *)
Definition selectionPair : ComparedPair :=
  mkCompared (mkFile 1 101 MAIN_VIEW noSections) (mkFile 2 102 SUB_VIEW noSections)
             (mkOptions true false (fun _ => (5, 6))) (mkSummary fourEntries)
             false false 0 0.

Definition oneCompare (p : ComparedPair) : Globals :=
  mkGlobals [p] None None 0 None 1 true false.

Definition fiveLinesDeleted : SCNotification :=
  mkNotification (SC_MOD_DELETETEXT + SC_PERFORMED_USER) 3 (- 5).

Definition oneLineEdited : SCNotification :=
  mkNotification (SC_MOD_INSERTTEXT + SC_PERFORMED_USER) 3 0.

Definition autoRecompare : UserSettings := mkSettings true false false false.

(** The same document with a buffer outside every compare current. *)
Definition otherBufferHost : SimpleHost :=
  mkSimple (tenLines 1) (tenLines 1) 7 0 0 0 20 MAIN_VIEW 9 1000.

(** The ten-line document with differences on lines 0 and 5 of both
    views, the screen showing it in full and the caret of the main
    view on line 7. *)
Definition topDiffHost : SimpleHost :=
  mkSimple [1; 0; 0; 0; 0; 1; 0; 0; 0; 0] [1; 0; 0; 0; 0; 1; 0; 0; 0; 0]
           7 0 0 0 20 MAIN_VIEW 1 1000.

(** Ten lines in each view, the first difference of the main view on
    line 6 and that of the sub view on line 2, which the main view
    matches with its line 2. *)
Definition subFirstHost : SimpleHost :=
  mkSimple [0; 0; 0; 0; 0; 0; 1; 0; 0; 0] [0; 0; 1; 0; 0; 0; 0; 0; 0; 0]
           8 0 0 0 20 MAIN_VIEW 1 1000.

(** The ten-line document 20 ms later, line 6 of the main view having
    got the marker 4 in the meantime. *)
Definition laterMarkedHost : SimpleHost :=
  mkSimple [0; 0; 0; 1; 0; 0; 4; 0; 0; 0] (tenLines 1) 7 0 0 0 20 MAIN_VIEW 1 1020.

(** ** The alignment table seen from the views *)

(** [getAlignmentLine] *)
Definition getAlignmentLine (alignInfo : AlignmentInfo_t) (view ln : Z) : Access Z :=
  (if ln <? 0 then ret (-1)
   else
     let alignView := if view =? MAIN_VIEW then member_main else member_sub in
     alignIdx <- getAlignmentIdxAfter alignView alignInfo ln ;;
     miss <- (if alignIdx >=? size alignInfo then ret true
              else a <- at_ alignInfo alignIdx ;; ret (negb (viewLine alignView a =? ln))) ;;
     if (miss : bool) then ret (-1)
     else
       let alignView := if view =? MAIN_VIEW then member_sub else member_main in
       a <- at_ alignInfo alignIdx ;;
       ret (viewLine alignView a))%access.

Section AlignmentNeeded.

Context {E : Type} `{Host E}.
Variable Settings : UserSettings.
Variable e : E.
Variable pView : ViewMember.
Variable alignmentInfo : AlignmentInfo_t.
Variable lastLine : Z.

(** "Ignore alignment on line 0 as it is currently not supported by
    Scintilla":
    [while ((i < maxSize) && ((alignmentInfo[i].main.line == 0) ||
    (alignmentInfo[i].sub.line == 0))) ++i] *)
Fixpoint skipLineZero (fuel : nat) (i : Z) : Access Z :=
  (if i <? size alignmentInfo then
     a <- at_ alignmentInfo i ;;
     if (line (main a) =? 0) || (line (sub a) =? 0) then
       match fuel with
       | O => timeout
       | S fuel' => skipLineZero fuel' (i + 1)
       end
     else ret i
   else ret i)%access.

(** The test of one entry in the loop of [isAlignmentNeeded]: its
    masks make it an alignment point and its two lines are not on the
    same visible line. *)
Definition misaligned (a : AlignmentPair) : bool :=
  (if ShowOnlyDiffs Settings
   then negb (diffMask (main a) =? 0) && negb (diffMask (sub a) =? 0)
   else diffMask (main a) =? diffMask (sub a))
  && negb (SCI_VISIBLEFROMDOCLINE e MAIN_VIEW (line (main a))
           =? SCI_VISIBLEFROMDOCLINE e SUB_VIEW (line (sub a))).

(** [for (; i < maxSize; ++i)] of [isAlignmentNeeded]; the entry is read
    once per round here, the source indexes it anew for each field. *)
Fixpoint firstMisaligned (fuel : nat) (i : Z) : Access bool :=
  (if i <? size alignmentInfo then
     a <- at_ alignmentInfo i ;;
     if misaligned a then ret true
     else if viewLine pView a >? lastLine then ret false
     else match fuel with
          | O => timeout
          | S fuel' => firstMisaligned fuel' (i + 1)
          end
   else ret false)%access.

End AlignmentNeeded.

(** [isAlignmentNeeded] *)
Definition isAlignmentNeeded {E : Type} `{Host E} (Settings : UserSettings) (e : E)
           (view : Z) (alignmentInfo : AlignmentInfo_t) : Access bool :=
  (let pView := if view =? MAIN_VIEW then member_main else member_sub in
   let firstLine := getFirstLine e view in
   let lastLine := getLastLine e view in
   let maxSize := size alignmentInfo in
   i <- getAlignmentIdxAfter pView alignmentInfo firstLine ;;
   if i >=? maxSize then ret false
   else
     let i := if negb (i =? 0) then i - 1 else i in
     i <- skipLineZero alignmentInfo (length alignmentInfo) i ;;
     firstMisaligned Settings e pView alignmentInfo lastLine (length alignmentInfo) i)%access.

(** ** The files of a pair *)

(** [ComparedPair::getFileByBuffId] and [getOtherFileByBuffId] *)
Definition getFileByBuffId (p : ComparedPair) (buff : Z) : ComparedFile :=
  if buffId (file0 p) =? buff then file0 p else file1 p.

Definition getOtherFileByBuffId (p : ComparedPair) (buff : Z) : ComparedFile :=
  if buffId (file0 p) =? buff then file1 p else file0 p.

(** ** Statements about the further functions *)

(** The pair of the table [getAlignmentLine] is specified by: the first
    entry on line [ln] of [view]. *)
Definition firstOnLine (alignInfo : AlignmentInfo_t) (view ln : Z) : option AlignmentPair :=
  find (fun a => viewLine (member_of view) a =? ln) alignInfo.

(** The line of the other view in an entry. *)
Definition otherLine (view : Z) (a : AlignmentPair) : Z :=
  viewLine (member_of (getOtherViewId view)) a.

(** A command that moves the caret or the focus. *)
Definition movesCaret (c : Command) : bool :=
  match c with
  | SCI_SETEMPTYSELECTION _ _ => true
  | SetFocus _ => true
  | _ => false
  end.

(** A command of the navigator: it scrolls to a line, blinks it, puts
    the caret, the focus or the arrow symbol on it, takes the arrow
    symbol away again (at once or after its timeout) or flashes the
    window.  The arrow symbol is a marker of its own, which
    [showArrowSymbol] adds to the line and the reset of [lineArrowMark]
    deletes through its handle. *)
Definition showsPlace (c : Command) : bool :=
  match c with
  | centerAt _ _ | blinkLine _ _ | SetFocus _ | SCI_SETEMPTYSELECTION _ _
  | showArrowSymbol _ _ _ | resetArrowMark | postArrowMarkTimeout _ | FlashWindowEx => true
  | _ => false
  end.

(** The entry a successful [push] adds: the start line, the tag of the
    action that undoes it, no replace mark, and what it captured of the
    markers on the host [e]. *)
Definition pushedEntry {E} `{Host E} (Settings : UserSettings) (e : E)
           (view action startLine len : Z) (undo : shared_ptr) : DeletedSection.t :=
  DeletedSection.mk startLine false (inverseAction action)
                    (capturedMarkers Settings e view startLine len)
                    (capturedNextLineMarker Settings e view startLine len)
                    undo.

(** The top entry makes [push] take a deletion tagged [currAction] for
    the undo of the insert half of a line replacement. *)
Definition revertsReplace (this : DeletedSectionsList) (currAction : Z) : bool :=
  match back (sections this) with
  | Some b => (DeletedSection.restoreAction b =? currAction) && DeletedSection.lineReplace b
  | None => false
  end.

(** A call the navigator may make under [Settings]: one of its
    commands; without [FollowingCaret] not one that moves the caret or
    the focus; and a flash of the window only where [flash] allows
    it. *)
Definition allowed (Settings : UserSettings) (flash : bool) (c : Command) : Prop :=
  showsPlace c = true /\
  (FollowingCaret Settings = false -> movesCaret c = false) /\
  (flash = false -> c <> FlashWindowEx).

(** From [w] to [w'] only such calls were made. *)
Definition navigates {E : Type} (Settings : UserSettings) (flash : bool) (w w' : World E) : Prop :=
  exists cs, issued w' = issued w ++ cs /\ Forall (allowed Settings flash) cs.

(** What [syncViews] may do to the other view: nothing, or one call
    followed by the repaint of that view. *)
Definition oneCallAndRepaint (view : Z) (isCall : Command -> Prop) (cs : list Command) : Prop :=
  cs = [] \/ exists c, isCall c /\ cs = [c; UpdateWindow view].

(** A full compare of buffers 1 and 2 with the four-entry table. *)
Definition tablePair : ComparedPair :=
  mkCompared (mkFile 1 101 MAIN_VIEW noSections) (mkFile 2 102 SUB_VIEW noSections)
             (mkOptions false false (fun _ => (-1, -1))) (mkSummary fourEntries)
             false false 0 0.

(** Two lines put in by the user at line 3. *)
Definition twoLinesInserted : SCNotification :=
  mkNotification (SC_MOD_INSERTTEXT + SC_PERFORMED_USER) 3 2.

(** ** The whole of [onSciModified] *)

(** DeletedSection::UndoData; a new one has the selection {-1, -1}. *)
Record UndoData : Type := mkUndoData {
  alignment : AlignmentInfo_t;
  selection : Z * Z;
  otherViewMarks : list Z
}.

Definition newUndoData : UndoData := mkUndoData [] (-1, -1) [].

(** The objects the [shared_ptr]s of the tracker point to, by address:
    [std::make_shared] puts a new object at the next address.  An object
    that no pointer leads to any more is never looked at again, so none
    is taken away here. *)
Definition Heap : Type := list UndoData.

Definition make_shared (h : Heap) : shared_ptr * Heap :=
  (object (size h), h ++ [newUndoData]).

(** [*p] for a pointer that is not null (a pointer of the engine that is
    not null always has its object). *)
Definition load (h : Heap) (p : shared_ptr) : UndoData :=
  match p with
  | nullptr => newUndoData
  | object address =>
      match lookup h address with
      | Some d => d
      | None => newUndoData
      end
  end.

(** An assignment through the pointer, [p->field = ...]. *)
Definition store (h : Heap) (p : shared_ptr) (f : UndoData -> UndoData) : Heap :=
  match p with
  | nullptr => h
  | object address =>
      match lookup h address with
      | Some d => replace_nth (Z.to_nat address) (f d) h
      | None => h
      end
  end.

(** The state [onSciModified] works on: the globals of the text block,
    the heap, and the markers copied by the last equalizing action. *)
Record Engine : Type := mkEngine {
  globals : Globals;
  heap : Heap;
  copiedSectionMarks : list Z
}.

(** One more question to Notepad++: the view a buffer is shown in. *)
Class NppHost (E : Type) `{Host E} : Type := {
  viewIdFromBuffId : E -> Z -> Z
}.

Definition with_file0 (p : ComparedPair) (f : ComparedFile) : ComparedPair :=
  mkCompared f (file1 p) (options p) (summary p) (compareDirty p) (manuallyChanged p)
             (inEqualizeMode p) (autoUpdateDelay p).

Definition with_file1 (p : ComparedPair) (f : ComparedFile) : ComparedPair :=
  mkCompared (file0 p) f (options p) (summary p) (compareDirty p) (manuallyChanged p)
             (inEqualizeMode p) (autoUpdateDelay p).

Definition with_notReverting (g : Globals) (b : bool) : Globals :=
  mkGlobals (compareList g) (delayedAlignment g) (delayedActivation g)
            (delayedActivation_buffId g) (delayedUpdate g) (currentlyActiveBuffID g)
            b (selectionAutoRecompare g).

(** [a != b] on [std::pair<int, int>] *)
Definition pair_neqb (a b : Z * Z) : bool :=
  negb ((fst a =? fst b) && (snd a =? snd b)).

(** The line [getAlignmentLine] answers (it always runs to its end). *)
Definition alignmentLine (alignInfo : AlignmentInfo_t) (view ln : Z) : Z :=
  match out (getAlignmentLine alignInfo view ln) with
  | Done l => l
  | _ => -1
  end.

Section Modified.

Context {E : Type} `{NppHost E}.
Variable Settings : UserSettings.

(** [ComparedPair::getFileByViewId], and an assignment to the file it
    refers to. *)
Definition getFileByViewId (e : E) (p : ComparedPair) (viewId : Z) : ComparedFile :=
  if viewIdFromBuffId e (buffId (file0 p)) =? viewId then file0 p else file1 p.

Definition setFileByViewId (e : E) (p : ComparedPair) (viewId : Z) (f : ComparedFile)
  : ComparedPair :=
  if viewIdFromBuffId e (buffId (file0 p)) =? viewId then with_file0 p f else with_file1 p f.

(** [ComparedFile::pushDeletedSection] and [popDeletedSection] *)
Definition pushDeletedSection (this : ComparedFile) (sciAction startLine len : Z)
           (undo : shared_ptr) : Sci E (bool * ComparedFile) :=
  r <- push Settings (compareViewId this) sciAction startLine len undo (deletedSections this) ;;
  sret (fst r, mkFile (buffId this) (sciDoc this) (compareViewId this) (snd r)).

Definition popDeletedSection (this : ComparedFile) (sciAction startLine : Z)
  : Sci E (shared_ptr * ComparedFile) :=
  r <- pop (compareViewId this) sciAction startLine (deletedSections this) ;;
  sret (fst r, mkFile (buffId this) (sciDoc this) (compareViewId this) (snd r)).

(** [modificationType & (SC_PERFORMED_USER | SC_PERFORMED_UNDO | SC_PERFORMED_REDO)] *)
Definition performedAction (notifyCode : SCNotification) : Z :=
  Z.land (modificationType notifyCode)
         (Z.lor SC_PERFORMED_USER (Z.lor SC_PERFORMED_UNDO SC_PERFORMED_REDO)).

(** [onSciModified] under [SC_MOD_BEFOREDELETE], for the pair [p] behind
    the iterator [cmpPair]; [length] is the field of that name of the
    notification.  A vector moved from is left empty. *)
Definition onSciModified_beforeDelete (notifyCode : SCNotification) (length view : Z)
           (cmpPair : nat) (p : ComparedPair) (s : Engine) : Sci E Engine :=
  e <- ask id ;;
  let startLine := SCI_LINEFROMPOSITION e view (position notifyCode) in
  let endLine := SCI_LINEFROMPOSITION e view (position notifyCode + length) in
  (* Change is on single line? *)
  if endLine <=? startLine then sret s
  else
    let action := performedAction notifyCode in
    let '(undo, h) :=
      if selectionCompare (options p) then
        let '(undo, h) := make_shared (heap s) in
        (undo, store h undo (fun d => mkUndoData (alignment d) (selections (options p) view)
                                                 (otherViewMarks d)))
      else (nullptr, heap s) in
    let '(undo, h, copied) :=
      if negb (RecompareOnChange Settings) then
        let '(undo, h) := if isNull undo then make_shared h else (undo, h) in
        let h := store h undo (fun d => mkUndoData (alignmentInfo (summary p)) (selection d)
                                                   (otherViewMarks d)) in
        if negb (inEqualizeMode p =? 0) && negb (size (copiedSectionMarks s) =? 0) then
          (undo,
           store h undo (fun d => mkUndoData (alignment d) (selection d)
                                             (copiedSectionMarks s)),
           [])
        else (undo, h, copiedSectionMarks s)
      else (undo, h, copiedSectionMarks s) in
    r <- pushDeletedSection (getFileByViewId e p view) action startLine
                            (endLine - startLine) undo ;;
    sret (mkEngine (with_notReverting
                      (commit (globals s) cmpPair (setFileByViewId e p view (snd r)))
                      (fst r))
                   h copied).

(** [onSciModified] under [(modificationType & SC_MOD_INSERTTEXT) &&
    linesAdded]: the pointer [undo], [selectionsAdjusted] and the
    state. *)
Definition onSciModified_insert (notifyCode : SCNotification) (view : Z)
           (cmpPair : nat) (p : ComparedPair) (s : Engine)
  : Sci E (shared_ptr * bool * Engine) :=
  if flagged (modificationType notifyCode) SC_MOD_INSERTTEXT
     && negb (linesAdded notifyCode =? 0)
  then
    e <- ask id ;;
    let startLine := SCI_LINEFROMPOSITION e view (position notifyCode) in
    let action := performedAction notifyCode in
    r <- popDeletedSection (getFileByViewId e p view) action startLine ;;
    let undo := fst r in
    let p := setFileByViewId e p view (snd r) in
    let g := with_notReverting (globals s) true in
    if negb (isNull undo) then
      let d := load (heap s) undo in
      let restored := (fst (selection d) <? snd (selection d))
                      && pair_neqb (selections (options p) view) (selection d) in
      let p := if restored then with_selection p view (selection d) else p in
      if negb (RecompareOnChange Settings) then
        let p := with_alignmentInfo p (alignment d) in
        let h := store (heap s) undo
                       (fun d => mkUndoData [] (selection d) (otherViewMarks d)) in
        (if negb (size (otherViewMarks d) =? 0) then
           let alignLine := alignmentLine (alignmentInfo (summary p)) view startLine in
           if alignLine >=? 0 then
             call (setMarkers (getOtherViewId view) alignLine (otherViewMarks d)) ;;;
             if ShowOnlyDiffs Settings
             then call (showRange (getOtherViewId view) alignLine (size (otherViewMarks d)))
             else sret tt
           else sret tt
         else sret tt) ;;;
        sret (undo, restored, mkEngine (commit g cmpPair p) h (copiedSectionMarks s))
      else
        sret (undo, restored, mkEngine (commit g cmpPair p) (heap s) (copiedSectionMarks s))
    else
      sret (undo, false, mkEngine (commit g cmpPair p) (heap s) (copiedSectionMarks s))
  else sret (nullptr, false, s).

(** [onSciModified], once the view of the notification and the pair of
    its document are found ([cmpPair] is the iterator that
    [getCompareBySciDoc] has returned). *)
Definition onSciModified (notifyCode : SCNotification) (length view : Z) (cmpPair : nat)
           (s : Engine) : Sci E Engine :=
  match nth_error (compareList (globals s)) cmpPair with
  | None => sret s
  | Some p =>
      if flagged (modificationType notifyCode) SC_MOD_BEFOREDELETE
      then onSciModified_beforeDelete notifyCode length view cmpPair p s
      else
        r <- onSciModified_insert notifyCode view cmpPair p s ;;
        let '(undo, selectionsAdjusted, s) := r in
        g <- onSciModified_text Settings notifyCode view cmpPair undo selectionsAdjusted
                                (globals s) ;;
        sret (mkEngine g (heap s) (copiedSectionMarks s))
  end.

End Modified.

(** Modelled from the spec: on the plain host the first file of a pair
    is shown in the main view and the second in the sub view, as
    "positionFiles" leaves them. *)
#[export] Instance simpleNpp : NppHost SimpleHost := {
  viewIdFromBuffId := fun e buff => if buff =? 1 then MAIN_VIEW else SUB_VIEW
}.

(** The deletion of [k] lines by the user at the position [pos], as
    Scintilla announces it and reports it, and the report of its undo. *)
Definition aboutToDelete (pos : Z) : SCNotification :=
  mkNotification (SC_MOD_BEFOREDELETE + SC_PERFORMED_USER) pos 0.
Definition linesDeleted (pos k : Z) : SCNotification :=
  mkNotification (SC_MOD_DELETETEXT + SC_PERFORMED_USER) pos (- k).
Definition deletionUndone (pos k : Z) : SCNotification :=
  mkNotification (SC_MOD_INSERTTEXT + SC_PERFORMED_UNDO) pos k.

(** The engine with one compare and nothing on the heap. *)
Definition oneEngine (p : ComparedPair) : Engine := mkEngine (oneCompare p) [] [].
(** * Proofs *)

(** ** Reasoning about accesses *)

Lemma yields_ret {A} (a : A) (P : A -> Prop) : P a -> yields (ret a) P.
Proof. intros H. exists a. split; [reflexivity | exact H]. Qed.

Lemma yields_bind {A B} (m : Access A) (f : A -> Access B) (P : A -> Prop) (Q : B -> Prop) :
  yields m P -> (forall a, P a -> yields (f a) Q) -> yields (bind m f) Q.
Proof.
  intros (a & Ha & HP) Hf. destruct (Hf a HP) as (b & Hb & HQ).
  exists b. unfold bind. rewrite Ha. simpl. split; assumption.
Qed.

Lemma yields_weaken {A} (m : Access A) (P Q : A -> Prop) :
  yields m P -> (forall a, P a -> Q a) -> yields m Q.
Proof. intros (a & Ha & HP) H. exists a. split; auto. Qed.

Lemma within_ret {A} n (a : A) : within n (ret a).
Proof. constructor. Qed.

Lemma within_bind {A B} n (m : Access A) (f : A -> Access B) :
  within n m -> (forall a, out m = Done a -> within n (f a)) -> within n (bind m f).
Proof.
  unfold within, bind. intros Hm Hf. destruct (out m) as [a | i |] eqn:E; simpl; auto.
  apply Forall_app. split; auto.
Qed.

Lemma size_nonneg {T} (v : list T) : 0 <= size v.
Proof. unfold size. lia. Qed.

Lemma size_app {T} (v w : list T) : size (v ++ w) = size v + size w.
Proof. unfold size. rewrite length_app. lia. Qed.

Lemma lookup_Some_range {T} (v : list T) i x : lookup v i = Some x -> 0 <= i < size v.
Proof.
  unfold lookup, size. destruct (Z.ltb_spec i 0) as [Hneg | Hpos]; [discriminate |].
  intros Hx. assert (Hn : nth_error v (Z.to_nat i) <> None) by congruence.
  apply nth_error_Some in Hn. lia.
Qed.

Lemma lookup_in_range {T} (v : list T) i : 0 <= i < size v -> exists x, lookup v i = Some x.
Proof.
  unfold lookup, size. intros Hi. destruct (Z.ltb_spec i 0) as [Hneg | Hpos]; [lia |].
  destruct (nth_error v (Z.to_nat i)) eqn:E; [eauto |].
  apply nth_error_None in E. lia.
Qed.

Lemma lookup_app_size {T} (v w : list T) x : lookup (v ++ x :: w) (size v) = Some x.
Proof.
  unfold lookup, size. destruct (Z.ltb_spec (Z.of_nat (length v)) 0); [lia |].
  rewrite Nat2Z.id, nth_error_app2 by lia. now rewrite Nat.sub_diag.
Qed.

Lemma replace_nth_app {T} (v w : list T) x y :
  replace_nth (length v) y (v ++ x :: w) = v ++ y :: w.
Proof. induction v as [| z v IH]; simpl; [reflexivity | now rewrite IH]. Qed.

Lemma yields_at {T} (v : list T) i x : lookup v i = Some x -> yields (at_ v i) (eq x).
Proof. intros H. exists x. unfold at_. simpl. now rewrite H. Qed.

Lemma bind_at {T B} (v : list T) i x (f : T -> Access B) :
  lookup v i = Some x -> bind (at_ v i) f = mkAccess (i :: reads (f x)) (out (f x)).
Proof. intros H. unfold bind, at_. simpl. now rewrite H. Qed.

(** ** The search *)

Section SearchFacts.

Variable pView : ViewMember.
Variable alignInfo : AlignmentInfo_t.
Variable target : Z.

Let n := size alignInfo.

Lemma gallop_inv_init : gallop_inv alignInfo (Z.quot n 2) 0.
Proof.
  pose proof (size_nonneg alignInfo) as H. fold n in H. unfold gallop_inv.
  rewrite Z.quot_div_nonneg by lia.
  pose proof (Z.mul_div_le n 2). pose proof (Z.div_pos n 2). lia.
Qed.

Lemma gallop_inv_step i idx :
  gallop_inv alignInfo i idx -> i <> 0 ->
  0 <= idx + i < n /\
  gallop_inv alignInfo (Z.quot i 2) idx /\ gallop_inv alignInfo (Z.quot i 2) (idx + i).
Proof.
  unfold gallop_inv. intros (Hi & Hidx & Hle) Hne.
  rewrite Z.quot_div_nonneg by lia.
  pose proof (Z.mul_div_le i 2). pose proof (Z.div_pos i 2). lia.
Qed.

Lemma gallop_ok fuel : forall i idx,
  gallop_inv alignInfo i idx -> i <= Z.of_nat fuel ->
  below_at pView alignInfo target idx ->
  within n (gallop pView alignInfo target fuel i idx) /\
  yields (gallop pView alignInfo target fuel i idx)
         (fun r => 0 <= r <= n /\ below_at pView alignInfo target r).
Proof.
  induction fuel as [| fuel IH]; intros i idx Hinv Hfuel Hbelow.
  - assert (i = 0) by (unfold gallop_inv in Hinv; lia). subst i. simpl.
    split; [apply within_ret |]. apply yields_ret.
    unfold gallop_inv in Hinv. split; [lia | assumption].
  - simpl. destruct (Z.eqb_spec i 0) as [-> | Hne].
    + split; [apply within_ret |]. apply yields_ret.
      unfold gallop_inv in Hinv. split; [lia | assumption].
    + destruct (gallop_inv_step i idx Hinv Hne) as (Hrange & Hstay & Hmove).
      destruct (lookup_in_range alignInfo _ Hrange) as (a & Ha).
      assert (Hq : Z.quot i 2 <= Z.of_nat fuel).
      { unfold gallop_inv in Hinv. rewrite Z.quot_div_nonneg by lia.
        assert (i / 2 < i) by (apply Z.div_lt; lia). lia. }
      rewrite (bind_at _ _ _ _ Ha).
      destruct (Z.ltb_spec (viewLine pView a) target) as [Hlt | Hge].
      * destruct (IH _ _ Hmove Hq) as (Hw & Hy).
        { right. exists a. split; assumption. }
        split; [| exact Hy]. constructor; [exact Hrange | exact Hw].
      * destruct (IH _ _ Hstay Hq Hbelow) as (Hw & Hy).
        split; [| exact Hy]. constructor; [exact Hrange | exact Hw].
Qed.

Lemma scan_ok fuel : forall idx,
  0 <= idx <= n -> n - idx <= Z.of_nat fuel ->
  within n (scan pView alignInfo target fuel idx) /\
  yields (scan pView alignInfo target fuel idx)
         (fun r => idx <= r <= n /\
                   (forall k a, idx <= k < r -> lookup alignInfo k = Some a ->
                                viewLine pView a < target) /\
                   (forall a, lookup alignInfo r = Some a -> target <= viewLine pView a)).
Proof.
  induction fuel as [| fuel IH]; intros idx Hidx Hfuel.
  - assert (idx = n) by lia. subst idx. simpl. fold n. rewrite Z.ltb_irrefl.
    split; [apply within_ret |]. apply yields_ret. repeat split; try lia.
    intros a Ha. apply lookup_Some_range in Ha. fold n in Ha. lia.
  - simpl. fold n. destruct (Z.ltb_spec idx n) as [Hlt | Hge].
    + destruct (lookup_in_range alignInfo idx (conj (proj1 Hidx) Hlt)) as (a & Ha).
      rewrite (bind_at _ _ _ _ Ha).
      destruct (Z.ltb_spec (viewLine pView a) target) as [Hbelow | Habove].
      * destruct (IH (idx + 1)) as (Hw & (r & Hr & Hle & Hbefore & Hthere)); try lia.
        split; [constructor; [lia | exact Hw] |].
        exists r. split; [exact Hr |]. split; [lia |]. split; [| exact Hthere].
        intros k b Hk Hb. destruct (Z.eq_dec k idx) as [-> | Hneq].
        -- rewrite Ha in Hb. injection Hb as <-. exact Hbelow.
        -- apply (Hbefore k b); [lia | exact Hb].
      * split; [constructor; [lia | constructor] |].
        apply yields_ret. split; [lia |]. split.
        -- intros k b Hk. lia.
        -- intros b Hb. rewrite Ha in Hb. injection Hb as <-. exact Habove.
    + split; [apply within_ret |]. apply yields_ret. split; [lia |]. split.
      * intros k b Hk. lia.
      * intros a Ha. apply lookup_Some_range in Ha. fold n in Ha. lia.
Qed.

End SearchFacts.

Section SearchResult.

Variable pView : ViewMember.
Variable alignInfo : AlignmentInfo_t.
Variable target : Z.

Lemma search_ok :
  within (size alignInfo) (getAlignmentIdxAfter pView alignInfo target) /\
  yields (getAlignmentIdxAfter pView alignInfo target)
         (fun r => exists r0,
              0 <= r0 <= r /\ r <= size alignInfo /\
              below_at pView alignInfo target r0 /\
              (forall k a, r0 <= k < r -> lookup alignInfo k = Some a ->
                           viewLine pView a < target) /\
              (forall a, lookup alignInfo r = Some a -> target <= viewLine pView a)).
Proof.
  unfold getAlignmentIdxAfter.
  destruct (gallop_ok pView alignInfo target (length alignInfo)
              (Z.quot (size alignInfo) 2) 0) as (Hw & Hy).
  - apply gallop_inv_init.
  - pose proof (size_nonneg alignInfo). rewrite Z.quot_div_nonneg by lia.
    assert (size alignInfo / 2 <= size alignInfo) by (apply Z.div_le_upper_bound; lia).
    unfold size in *. lia.
  - left. reflexivity.
  - split.
    + apply within_bind; [exact Hw |]. intros r0 Hr0.
      destruct Hy as (r0' & Hr0' & Hrange & _). rewrite Hr0 in Hr0'. injection Hr0' as <-.
      apply scan_ok; unfold size in *; lia.
    + eapply yields_bind; [exact Hy |]. intros r0 (Hrange & Hbelow). simpl.
      destruct (scan_ok pView alignInfo target (length alignInfo) r0) as (_ & Hs);
        [lia | unfold size in *; lia |].
      eapply yields_weaken; [exact Hs |]. intros r (Hle & Hbefore & Hthere).
      exists r0. repeat split; try lia; assumption.
Qed.

End SearchResult.

(** ** Sorted tables *)

Lemma sortedBy_strong p alignInfo :
  sortedBy p alignInfo -> StronglySorted Z.le (map (viewLine p) alignInfo).
Proof.
  apply Sorted_StronglySorted. intros x y z. apply Z.le_trans.
Qed.

Lemma strongly_sorted_nth (l : list Z) :
  StronglySorted Z.le l ->
  forall i j x y, (i <= j)%nat -> nth_error l i = Some x -> nth_error l j = Some y -> x <= y.
Proof.
  induction 1 as [| a l Hl IH Hall]; intros i j x y Hij Hx Hy.
  - destruct i; discriminate.
  - destruct i as [| i], j as [| j]; simpl in *.
    + injection Hx as <-. injection Hy as <-. lia.
    + injection Hx as <-. apply nth_error_In in Hy.
      rewrite Forall_forall in Hall. auto.
    + lia.
    + apply (IH i j); [lia | assumption | assumption].
Qed.

Lemma sorted_lookup_le p alignInfo i j a b :
  sortedBy p alignInfo -> i <= j ->
  lookup alignInfo i = Some a -> lookup alignInfo j = Some b ->
  viewLine p a <= viewLine p b.
Proof.
  intros Hs Hij Ha Hb. apply sortedBy_strong in Hs.
  pose proof (lookup_Some_range _ _ _ Ha) as Hi.
  pose proof (lookup_Some_range _ _ _ Hb) as Hj.
  unfold lookup in Ha, Hb.
  destruct (Z.ltb_spec i 0); [lia |]. destruct (Z.ltb_spec j 0); [lia |].
  apply (strongly_sorted_nth _ Hs (Z.to_nat i) (Z.to_nat j)); [lia | |];
    rewrite nth_error_map; [rewrite Ha | rewrite Hb]; reflexivity.
Qed.

Lemma In_lookup {T} (v : list T) x : In x v <-> exists i, lookup v i = Some x.
Proof.
  split.
  - intros H. apply In_nth_error in H. destruct H as (k & Hk).
    exists (Z.of_nat k). unfold lookup. destruct (Z.ltb_spec (Z.of_nat k) 0); [lia |].
    now rewrite Nat2Z.id.
  - intros (i & Hi). unfold lookup in Hi. destruct (i <? 0); [discriminate |].
    eapply nth_error_In; eassumption.
Qed.

Lemma search_sorted p alignInfo target :
  sortedBy p alignInfo ->
  yields (getAlignmentIdxAfter p alignInfo target) (firstAtOrAfter p alignInfo target).
Proof.
  intros Hs. destruct (search_ok p alignInfo target) as (_ & Hy).
  eapply yields_weaken; [exact Hy |].
  intros r (r0 & Hr0 & Hr & Hbelow & Hbefore & Hthere).
  split; [lia |]. split; [| exact Hthere].
  intros k a Hk Ha. destruct (Z.lt_ge_cases k r0) as [Hlt | Hge].
  - destruct Hbelow as [-> | (b & Hb & Hbt)]; [lia |].
    pose proof (sorted_lookup_le p alignInfo k r0 a b Hs ltac:(lia) Ha Hb). lia.
  - apply (Hbefore k a); [lia | exact Ha].
Qed.

(** C10. For every alignment table, the empty one included, and every
    target line, [getAlignmentIdxAfter] only indexes the table inside its
    bounds and answers with an index in [0, size].  The galloping loop
    keeps [0 <= i], [0 <= idx] and [idx + 2 * i <= size]: this holds on
    entry with [i = size / 2] and [idx = 0], each step from a state with
    [i <> 0] probes [idx + i < size] and leaves a state that satisfies it
    again, whichever way the comparison goes. *)
Theorem getAlignmentIdxAfter_in_bounds (p : ViewMember) (alignInfo : AlignmentInfo_t) (target : Z) :
  gallop_inv alignInfo (Z.quot (size alignInfo) 2) 0 /\
  (forall i idx, gallop_inv alignInfo i idx -> i <> 0 ->
     0 <= idx + i < size alignInfo /\
     gallop_inv alignInfo (Z.quot i 2) idx /\
     gallop_inv alignInfo (Z.quot i 2) (idx + i)) /\
  Forall (fun k => 0 <= k < size alignInfo) (reads (getAlignmentIdxAfter p alignInfo target)) /\
  exists idx, out (getAlignmentIdxAfter p alignInfo target) = Done idx /\
              0 <= idx <= size alignInfo.
Proof.
  split; [apply gallop_inv_init |]. split; [apply gallop_inv_step |].
  destruct (search_ok p alignInfo target) as (Hw & (r & Hr & r0 & Hr0 & Hle & _)).
  split; [exact Hw |]. exists r. split; [exact Hr | lia].
Qed.

(** C4. On a table sorted ascending in the chosen view's lines, of any
    size, [getAlignmentIdxAfter] returns the least index whose
    chosen-view line is at or after the target line: every entry before
    it lies below the target, the entry at it does not, and it is the
    size of the table exactly when no entry reaches the target. *)
Theorem getAlignmentIdxAfter_minimal (p : ViewMember) (alignInfo : AlignmentInfo_t) (target : Z) :
  Sorted Z.le (map (viewLine p) alignInfo) ->
  exists idx,
    out (getAlignmentIdxAfter p alignInfo target) = Done idx /\
    0 <= idx <= size alignInfo /\
    (forall k a, 0 <= k < idx -> lookup alignInfo k = Some a -> viewLine p a < target) /\
    (forall a, lookup alignInfo idx = Some a -> target <= viewLine p a) /\
    (idx = size alignInfo <-> forall a, In a alignInfo -> viewLine p a < target).
Proof.
  intros Hs. destruct (search_sorted p alignInfo target Hs) as (r & Hr & Hrange & Hbefore & Hthere).
  exists r. repeat split; try assumption; try lia.
  - intros -> a Ha. apply In_lookup in Ha. destruct Ha as (k & Hk).
    apply (Hbefore k a); [apply lookup_Some_range in Hk; lia | exact Hk].
  - intros Hall. destruct (Z.eq_dec r (size alignInfo)) as [| Hne]; [assumption |].
    destruct (lookup_in_range alignInfo r ltac:(lia)) as (a & Ha).
    pose proof (Hthere a Ha). assert (In a alignInfo) by (apply In_lookup; eauto).
    pose proof (Hall a ltac:(assumption)). lia.
Qed.

(** ** The shift *)

Section ShiftFacts.

Variable alignView : ViewMember.
Variable ln offset : Z.

Lemma eraseEnd_ok alignInfo fuel : forall idx,
  0 <= idx <= size alignInfo -> size alignInfo - idx <= Z.of_nat fuel ->
  yields (eraseEnd alignView ln offset alignInfo fuel idx)
         (fun r => idx <= r <= size alignInfo /\
                   (forall k a, idx <= k < r -> lookup alignInfo k = Some a ->
                                int (viewLine alignView a + offset) < ln) /\
                   (forall a, lookup alignInfo r = Some a ->
                              ln <= int (viewLine alignView a + offset))).
Proof.
  induction fuel as [| fuel IH]; intros idx Hidx Hfuel.
  - assert (idx = size alignInfo) by lia. subst idx. simpl. rewrite Z.ltb_irrefl.
    apply yields_ret. repeat split; try lia.
    intros a Ha. apply lookup_Some_range in Ha. lia.
  - simpl. destruct (Z.ltb_spec idx (size alignInfo)) as [Hlt | Hge].
    + destruct (lookup_in_range alignInfo idx (conj (proj1 Hidx) Hlt)) as (a & Ha).
      rewrite (bind_at _ _ _ _ Ha), Z.gtb_ltb.
      destruct (Z.ltb_spec (int (viewLine alignView a + offset)) ln) as [Hin | Hout].
      * destruct (IH (idx + 1)) as (r & Hr & Hle & Hbefore & Hthere); try lia.
        exists r. split; [exact Hr |]. split; [lia |]. split; [| exact Hthere].
        intros k b Hk Hb. destruct (Z.eq_dec k idx) as [-> | Hneq].
        -- rewrite Ha in Hb. injection Hb as <-. exact Hin.
        -- apply (Hbefore k b); [lia | exact Hb].
      * exists idx. split; [reflexivity |]. split; [lia |]. split.
        -- intros k b Hk. lia.
        -- intros b Hb. rewrite Ha in Hb. injection Hb as <-. exact Hout.
    + apply yields_ret. split; [lia |]. split.
      * intros k b Hk. lia.
      * intros a Ha. apply lookup_Some_range in Ha. lia.
Qed.

Lemma shiftFrom_ok : forall v2 v1 fuel,
  (length v2 <= fuel)%nat ->
  yields (shiftFrom alignView offset fuel (size v1) (v1 ++ v2))
         (eq (v1 ++ map (addLine alignView offset) v2)).
Proof.
  induction v2 as [| x v2 IH]; intros v1 fuel Hfuel.
  - simpl. rewrite !app_nil_r. destruct fuel; simpl; rewrite Z.ltb_irrefl; now apply yields_ret.
  - destruct fuel as [| fuel]; [simpl in Hfuel; lia |].
    cbn [shiftFrom].
    assert (Hlt : (size v1 <? size (v1 ++ x :: v2)) = true).
    { apply Z.ltb_lt. rewrite size_app. unfold size. simpl length. lia. }
    rewrite Hlt.
    eapply yields_bind with (P := eq (v1 ++ addLine alignView offset x :: v2)).
    + exists (v1 ++ addLine alignView offset x :: v2). split; [| reflexivity].
      unfold modify_at. simpl. rewrite lookup_app_size.
      unfold size. rewrite Nat2Z.id, replace_nth_app. reflexivity.
    + intros ? <-.
      replace (size v1 + 1) with (size (v1 ++ [addLine alignView offset x]))
        by (rewrite size_app; reflexivity).
      replace (v1 ++ addLine alignView offset x :: v2)
        with ((v1 ++ [addLine alignView offset x]) ++ v2)
        by (rewrite <- app_assoc; reflexivity).
      eapply yields_weaken; [apply IH; simpl in Hfuel; lia |].
      intros ? <-. rewrite <- app_assoc. reflexivity.
Qed.

End ShiftFacts.

Lemma Forall_firstn_idx {T} (v : list T) (r : Z) (P : T -> Prop) :
  (forall k a, 0 <= k < r -> lookup v k = Some a -> P a) ->
  Forall P (firstn (Z.to_nat r) v).
Proof.
  intros H. apply Forall_forall. intros a Ha.
  apply In_nth_error in Ha. destruct Ha as (k & Hk).
  rewrite nth_error_firstn in Hk. destruct (Nat.ltb_spec k (Z.to_nat r)); [| discriminate].
  apply (H (Z.of_nat k)); [lia |]. unfold lookup.
  destruct (Z.ltb_spec (Z.of_nat k) 0); [lia |]. now rewrite Nat2Z.id.
Qed.

Lemma Forall_skipn_idx {T} (v : list T) (r : Z) (P : T -> Prop) :
  0 <= r ->
  (forall k a, r <= k -> lookup v k = Some a -> P a) ->
  Forall P (skipn (Z.to_nat r) v).
Proof.
  intros Hr H. apply Forall_forall. intros a Ha.
  apply In_nth_error in Ha. destruct Ha as (k & Hk).
  rewrite nth_error_skipn in Hk.
  apply (H (r + Z.of_nat k)); [lia |]. unfold lookup.
  destruct (Z.ltb_spec (r + Z.of_nat k) 0); [lia |].
  replace (Z.to_nat (r + Z.of_nat k)) with (Z.to_nat r + k)%nat by lia. exact Hk.
Qed.

Lemma Forall_mid_idx {T} (v : list T) (s r : Z) (P : T -> Prop) :
  0 <= s <= r ->
  (forall k a, s <= k < r -> lookup v k = Some a -> P a) ->
  Forall P (firstn (Z.to_nat r - Z.to_nat s) (skipn (Z.to_nat s) v)).
Proof.
  intros Hsr H. apply Forall_forall. intros a Ha.
  apply In_nth_error in Ha. destruct Ha as (k & Hk).
  rewrite nth_error_firstn in Hk.
  destruct (Nat.ltb_spec k (Z.to_nat r - Z.to_nat s)); [| discriminate].
  rewrite nth_error_skipn in Hk.
  apply (H (s + Z.of_nat k)); [lia |]. unfold lookup.
  destruct (Z.ltb_spec (s + Z.of_nat k) 0); [lia |].
  replace (Z.to_nat (s + Z.of_nat k)) with (Z.to_nat s + k)%nat by lia. exact Hk.
Qed.

Lemma three_parts {T} (v : list T) (s r : nat) :
  (s <= r)%nat ->
  v = firstn s v ++ firstn (r - s) (skipn s v) ++ skipn r v.
Proof.
  intros Hsr. rewrite <- (firstn_skipn s v) at 1. f_equal.
  rewrite <- (firstn_skipn (r - s) (skipn s v)) at 1. f_equal.
  rewrite skipn_skipn. f_equal. lia.
Qed.

Lemma map_if_true {T} (c : T -> bool) (g : T -> T) (v : list T) :
  Forall (fun a => c a = true) v -> map (fun a => if c a then a else g a) v = v.
Proof. induction 1 as [| a v Ha _ IH]; simpl; [reflexivity | now rewrite Ha, IH]. Qed.

Lemma map_if_false {T} (c : T -> bool) (g : T -> T) (v : list T) :
  Forall (fun a => c a = false) v -> map (fun a => if c a then a else g a) v = map g v.
Proof. induction 1 as [| a v Ha _ IH]; simpl; [reflexivity | now rewrite Ha, IH]. Qed.

Lemma filter_all {T} (c : T -> bool) (v : list T) :
  Forall (fun a => c a = true) v -> filter c v = v.
Proof. induction 1 as [| a v Ha _ IH]; simpl; [reflexivity | now rewrite Ha, IH]. Qed.

Lemma filter_none {T} (c : T -> bool) (v : list T) :
  Forall (fun a => c a = false) v -> filter c v = [].
Proof. induction 1 as [| a v Ha _ IH]; simpl; [reflexivity | now rewrite Ha, IH]. Qed.

Lemma int_small (z : Z) : INT_MIN <= z <= INT_MAX -> int z = z.
Proof.
  unfold int, INT_MIN, INT_MAX. intros Hz. rewrite Z.mod_small; lia.
Qed.

Lemma viewLine_addLine p offset a :
  viewLine p (addLine p offset a) = int (viewLine p a + offset).
Proof. destruct p; reflexivity. Qed.

Lemma strongly_sorted_app (l1 l2 : list Z) :
  StronglySorted Z.le l1 -> StronglySorted Z.le l2 ->
  (forall x y, In x l1 -> In y l2 -> x <= y) ->
  StronglySorted Z.le (l1 ++ l2).
Proof.
  induction 1 as [| a l1 Hl1 IH Hall]; intros H2 Hcross; simpl; [assumption |].
  constructor.
  - apply IH; [assumption |]. intros x y Hx Hy. apply Hcross; [now right | assumption].
  - apply Forall_app. split; [assumption |].
    apply Forall_forall. intros y Hy. apply Hcross; [now left | assumption].
Qed.

Lemma strongly_sorted_parts (l1 l2 : list Z) :
  StronglySorted Z.le (l1 ++ l2) -> StronglySorted Z.le l1 /\ StronglySorted Z.le l2.
Proof.
  induction l1 as [| a l1 IH]; simpl; intros H.
  - split; [constructor | assumption].
  - inversion H as [| ? ? Hs Hall]; subst. destruct (IH Hs) as (H1 & H2).
    split; [| assumption]. constructor; [assumption |].
    apply Forall_app in Hall. tauto.
Qed.

Lemma strongly_sorted_add (l : list Z) (d : Z) :
  StronglySorted Z.le l -> StronglySorted Z.le (map (fun x => x + d) l).
Proof.
  induction 1 as [| a l Hl IH Hall]; simpl; constructor; [assumption |].
  apply Forall_forall. intros y Hy. apply in_map_iff in Hy. destruct Hy as (x & <- & Hx).
  rewrite Forall_forall in Hall. specialize (Hall x Hx). lia.
Qed.

Lemma map_viewLine_addLine p offset v :
  Forall (fun a => INT_MIN <= viewLine p a + offset <= INT_MAX) v ->
  map (viewLine p) (map (addLine p offset) v) = map (fun x => x + offset) (map (viewLine p) v).
Proof.
  intros Hfit. rewrite !map_map. apply map_ext_in. intros a Ha.
  rewrite Forall_forall in Hfit. rewrite viewLine_addLine. apply int_small. auto.
Qed.

(** A prefix below [bound] left as it is and a sorted suffix at or above
    [bound] moved by [offset] stay sorted when the suffix still lies at or
    above the prefix and no moved line leaves the [int] range. *)
Lemma sorted_shift_suffix p v1 v2 bound offset :
  StronglySorted Z.le (map (viewLine p) v1) ->
  StronglySorted Z.le (map (viewLine p) v2) ->
  Forall (fun a => viewLine p a < bound) v1 ->
  Forall (fun a => bound <= viewLine p a + offset) v2 ->
  Forall (fun a => INT_MIN <= viewLine p a + offset <= INT_MAX) v2 ->
  Sorted Z.le (map (viewLine p) (v1 ++ map (addLine p offset) v2)).
Proof.
  intros H1 H2 Hlow Hhigh Hfit. apply StronglySorted_Sorted.
  rewrite map_app, map_viewLine_addLine by exact Hfit. apply strongly_sorted_app.
  - assumption.
  - now apply strongly_sorted_add.
  - intros x y Hx Hy. apply in_map_iff in Hx. destruct Hx as (a & <- & Ha).
    apply in_map_iff in Hy. destruct Hy as (z & <- & Hz).
    apply in_map_iff in Hz. destruct Hz as (b & <- & Hb).
    rewrite Forall_forall in Hlow, Hhigh.
    specialize (Hlow a Ha). specialize (Hhigh b Hb). simpl in *. lia.
Qed.

Lemma yields_eq {A} (m : Access A) (a : A) : yields m (eq a) <-> out m = Done a.
Proof.
  split.
  - intros (b & Hb & <-). exact Hb.
  - intros H. exists a. split; [exact H | reflexivity].
Qed.

Lemma size_firstn {T} (v : list T) (s : Z) :
  0 <= s <= size v -> size (firstn (Z.to_nat s) v) = s.
Proof. unfold size. intros H. rewrite firstn_length_le; lia. Qed.

(** [adjustAlignment] after its search, whatever [Q] is known of the
    index [s] the search returns. *)
Lemma adjustAlignment_after (Q : Z -> Prop) view ln offset alignInfo :
  let p := member_of view in
  yields (getAlignmentIdxAfter p alignInfo ln)
         (fun s => Q s /\ 0 <= s <= size alignInfo /\
                   (forall a, lookup alignInfo s = Some a -> ln <= viewLine p a)) ->
  yields (adjustAlignment view ln offset alignInfo)
    (fun res => exists s r,
       Q s /\ s <= r <= size alignInfo /\
       (0 <= offset -> r = s) /\
       (forall k a, s <= k < r -> lookup alignInfo k = Some a ->
                    int (viewLine p a + offset) < ln) /\
       (offset < 0 -> forall a, lookup alignInfo r = Some a ->
                                ln <= int (viewLine p a + offset)) /\
       res = firstn (Z.to_nat s) alignInfo ++
             map (addLine p offset) (skipn (Z.to_nat r) alignInfo)).
Proof.
  intros p Hsearch. unfold adjustAlignment. fold p.
  eapply yields_bind; [exact Hsearch |].
  intros s (HQ & Hrange & Hthere).
  destruct (Z.ltb_spec s (size alignInfo)) as [Hlt | Hge].
  - destruct (lookup_in_range alignInfo s ltac:(lia)) as (b & Hb).
    eapply yields_bind with (P := eq true).
    { eapply yields_bind; [apply yields_at; exact Hb |].
      intros ? <-. apply yields_ret. rewrite Z.geb_leb. symmetry. apply Z.leb_le. auto. }
    intros ? <-. cbv iota.
    destruct (Z.ltb_spec offset 0) as [Hneg | Hpos].
    + eapply yields_bind.
      { eapply yields_bind.
        - apply (eraseEnd_ok p ln offset alignInfo (length alignInfo) s);
            [lia | unfold size; lia].
        - intros r Hr. apply yields_ret.
          instantiate (1 := fun t =>
            exists r, (s <= r <= size alignInfo /\
              (forall k a, s <= k < r -> lookup alignInfo k = Some a ->
                           int (viewLine p a + offset) < ln) /\
              (forall a, lookup alignInfo r = Some a ->
                         ln <= int (viewLine p a + offset))) /\
              t = firstn (Z.to_nat s) alignInfo ++ skipn (Z.to_nat r) alignInfo).
          exists r. split; [exact Hr |].
          destruct (Z.gtb_spec r s) as [Hgt | Hle]; [reflexivity |].
          cbv beta in Hr. assert (r = s) by lia. subst r. symmetry. apply firstn_skipn. }
      intros t (r & (Hr & Hin & Hout) & ->).
      eapply yields_weaken.
      * pose proof (shiftFrom_ok p offset (skipn (Z.to_nat r) alignInfo)
                      (firstn (Z.to_nat s) alignInfo)
                      (length (firstn (Z.to_nat s) alignInfo ++ skipn (Z.to_nat r) alignInfo))
                      ltac:(rewrite length_app; lia))
          as Hsh.
        rewrite (size_firstn alignInfo s Hrange) in Hsh. exact Hsh.
      * intros res <-. exists s, r. repeat split; try lia; try assumption.
        intros _. exact Hout.
    + eapply yields_bind with (P := eq alignInfo); [apply yields_ret; reflexivity |].
      intros ? <-. eapply yields_weaken.
      * pose proof (shiftFrom_ok p offset (skipn (Z.to_nat s) alignInfo)
                      (firstn (Z.to_nat s) alignInfo) (length alignInfo)
                      ltac:(rewrite length_skipn; lia)) as Hsh.
        rewrite (size_firstn alignInfo s Hrange), firstn_skipn in Hsh. exact Hsh.
      * intros res <-. exists s, s. repeat split; try lia; try assumption.
  - assert (s = size alignInfo) by lia. subst s.
    eapply yields_bind with (P := eq false); [apply yields_ret; reflexivity |].
    intros ? <-. apply yields_ret. exists (size alignInfo), (size alignInfo).
    repeat split; try lia; try assumption.
    + intros _ a Ha. apply lookup_Some_range in Ha. lia.
    + unfold size. rewrite Nat2Z.id, firstn_all, skipn_all, app_nil_r. reflexivity.
Qed.

(** The table [adjustAlignment] leaves behind, in terms of the two
    indices it computes: [s], where the search for [ln] ends, and [r],
    where the erased range ends ([r = s] when nothing is erased). *)
Lemma adjustAlignment_yields view ln offset alignInfo :
  let p := member_of view in
  sortedBy p alignInfo ->
  yields (adjustAlignment view ln offset alignInfo)
    (fun res => exists s r,
       firstAtOrAfter p alignInfo ln s /\ s <= r <= size alignInfo /\
       (0 <= offset -> r = s) /\
       (forall k a, s <= k < r -> lookup alignInfo k = Some a ->
                    int (viewLine p a + offset) < ln) /\
       (offset < 0 -> forall a, lookup alignInfo r = Some a ->
                                ln <= int (viewLine p a + offset)) /\
       res = firstn (Z.to_nat s) alignInfo ++
             map (addLine p offset) (skipn (Z.to_nat r) alignInfo)).
Proof.
  intros p Hs. apply adjustAlignment_after.
  eapply yields_weaken; [apply (search_sorted p alignInfo ln Hs) |].
  intros s Hfirst. pose proof Hfirst as (Hrange & _ & Hthere). auto.
Qed.

(** [adjustAlignment] runs to completion on every table. *)
Lemma adjustAlignment_total view ln offset alignInfo :
  exists res, out (adjustAlignment view ln offset alignInfo) = Done res.
Proof.
  destruct (adjustAlignment_after (fun _ => True) view ln offset alignInfo) as (res & Hres & _).
  - destruct (search_ok (member_of view) alignInfo ln) as (_ & Hy).
    eapply yields_weaken; [exact Hy |].
    intros s (r0 & Hr0 & Hle & _ & _ & Hthere). split; [exact I |]. split; [lia | exact Hthere].
  - exists res. exact Hres.
Qed.

Lemma sorted_from p alignInfo ln s :
  sortedBy p alignInfo -> firstAtOrAfter p alignInfo ln s ->
  forall k a, s <= k -> lookup alignInfo k = Some a -> ln <= viewLine p a.
Proof.
  intros Hs (Hrange & _ & Hthere) k a Hk Ha.
  pose proof (lookup_Some_range _ _ _ Ha) as Hkr.
  destruct (lookup_in_range alignInfo s ltac:(lia)) as (b & Hb).
  pose proof (Hthere b Hb). pose proof (sorted_lookup_le p alignInfo s k b a Hs Hk Hb Ha). lia.
Qed.

Lemma sorted_pieces p alignInfo (s r : nat) :
  sortedBy p alignInfo ->
  StronglySorted Z.le (map (viewLine p) (firstn s alignInfo)) /\
  StronglySorted Z.le (map (viewLine p) (skipn r alignInfo)).
Proof.
  intros Hs. apply sortedBy_strong in Hs. split.
  - rewrite <- (firstn_skipn s alignInfo), map_app in Hs.
    now apply strongly_sorted_parts in Hs.
  - rewrite <- (firstn_skipn r alignInfo), map_app in Hs.
    now apply strongly_sorted_parts in Hs.
Qed.

Lemma lineIn_viewLine view a : lineIn view a = viewLine (member_of view) a.
Proof.
  unfold lineIn, viewLine, member_of. destruct (view =? MAIN_VIEW); reflexivity.
Qed.

Lemma map_lineIn view v : map (lineIn view) v = map (viewLine (member_of view)) v.
Proof. apply map_ext. intros a. apply lineIn_viewLine. Qed.

Lemma withLineIn_addLine view d a :
  INT_MIN <= lineIn view a + d <= INT_MAX ->
  withLineIn view (lineIn view a + d) a = addLine (member_of view) d a.
Proof.
  unfold withLineIn, lineIn, addLine, member_of. intros Hfit.
  destruct (view =? MAIN_VIEW); rewrite int_small by exact Hfit; reflexivity.
Qed.

Lemma shiftedBy_below view L d v :
  Forall (fun a => viewLine (member_of view) a < L) v -> map (shiftedBy view L d) v = v.
Proof.
  induction 1 as [| a v Ha _ IH]; simpl; [reflexivity |].
  rewrite IH. unfold shiftedBy. rewrite lineIn_viewLine.
  destruct (Z.ltb_spec (viewLine (member_of view) a) L); [reflexivity | lia].
Qed.

Lemma shiftedBy_above view L d v :
  Forall (fun a => L <= viewLine (member_of view) a) v ->
  Forall (fun a => INT_MIN <= viewLine (member_of view) a + d <= INT_MAX) v ->
  map (shiftedBy view L d) v = map (addLine (member_of view) d) v.
Proof.
  induction 1 as [| a v Ha _ IH]; intros Hfit; simpl; [reflexivity |].
  inversion Hfit as [| ? ? Hfa Hfv]; subst. rewrite (IH Hfv). f_equal.
  unfold shiftedBy. rewrite lineIn_viewLine.
  destruct (Z.ltb_spec (viewLine (member_of view) a) L); [lia |].
  rewrite <- lineIn_viewLine. apply withLineIn_addLine.
  rewrite lineIn_viewLine. exact Hfa.
Qed.

Lemma intLines_viewLine p alignInfo :
  intLines alignInfo -> Forall (fun a => INT_MIN <= viewLine p a <= INT_MAX) alignInfo.
Proof.
  unfold intLines. apply Forall_impl. intros a (Hm & Hs). destruct p; assumption.
Qed.

Lemma Forall_skipn_of {T} (P : T -> Prop) (n : nat) (v : list T) :
  Forall P v -> Forall P (skipn n v).
Proof.
  intros Hall. rewrite <- (firstn_skipn n v) in Hall. apply Forall_app in Hall. tauto.
Qed.

Lemma Forall_both {T} (P Q : T -> Prop) (v : list T) :
  Forall P v -> Forall Q v -> Forall (fun a => P a /\ Q a) v.
Proof.
  induction 1 as [| a v Ha _ IH]; intros HQ; constructor;
    inversion HQ; subst; auto.
Qed.

(** C1. On a table of [int] lines sorted ascending in the chosen view's
    lines (the [main] lines for the main view, the [sub] lines for the
    other one), for a line [L >= 0] and [0 < N <= INT_MAX]:
    [adjustAlignment (view, L, +N)], when no chosen-view line at or
    after [L] exceeds [INT_MAX - N], leaves every entry whose
    chosen-view line is below [L] as it is and adds exactly [N] to the
    chosen-view line of every entry at or after [L], the other view's
    line and both diff masks untouched, and the table stays sorted;
    [adjustAlignment (view, L, -N)] erases exactly the entries whose
    chosen-view line lies in [L, L + N) and subtracts [N] from the
    chosen-view line of every remaining entry at or after [L] (and the
    table stays sorted as well). *)
Theorem adjustAlignment_shift (view L N : Z) (alignInfo : AlignmentInfo_t) :
  intLines alignInfo ->
  Sorted Z.le (map (lineIn view) alignInfo) ->
  0 <= L -> 0 < N <= INT_MAX ->
  let inserted := map (shiftedBy view L N) alignInfo in
  let deleted := map (shiftedBy view L (- N)) (filter (survives view L N) alignInfo) in
  (fitsAfter view L N alignInfo ->
   out (adjustAlignment view L N alignInfo) = Done inserted /\
   Sorted Z.le (map (lineIn view) inserted)) /\
  (out (adjustAlignment view L (- N) alignInfo) = Done deleted /\
   Sorted Z.le (map (lineIn view) deleted)).
Proof.
  intros Hint Hs HL HN inserted deleted. set (p := member_of view).
  rewrite map_lineIn in Hs. fold p in Hs.
  pose proof (intLines_viewLine p alignInfo Hint) as Hrange32.
  assert (Hidx : forall k a, lookup alignInfo k = Some a -> INT_MIN <= viewLine p a <= INT_MAX).
  { intros k a Ha. rewrite Forall_forall in Hrange32. apply Hrange32.
    apply In_lookup. now exists k. }
  unfold INT_MIN, INT_MAX in *.
  split.
  - intros Hfits.
    destruct (adjustAlignment_yields view L N alignInfo Hs)
      as (res & Hres & s & r & Hfirst & Hsr & Heq & _ & _ & ->).
    fold p in Hfirst |- *. rewrite (Heq ltac:(lia)) in *. clear Heq r Hsr.
    pose proof Hfirst as (Hrange & Hbefore & _).
    assert (Hlow : Forall (fun a => viewLine p a < L) (firstn (Z.to_nat s) alignInfo))
      by (apply Forall_firstn_idx; exact Hbefore).
    assert (Hhigh : Forall (fun a => L <= viewLine p a) (skipn (Z.to_nat s) alignInfo))
      by (apply Forall_skipn_idx; [lia | exact (sorted_from p alignInfo L s Hs Hfirst)]).
    assert (Hfit : Forall (fun a => INT_MIN <= viewLine p a + N <= INT_MAX)
                          (skipn (Z.to_nat s) alignInfo)).
    { apply (Forall_skipn_of _ (Z.to_nat s)) in Hfits.
      pose proof (Forall_both _ _ _ Hhigh Hfits) as Hb.
      eapply Forall_impl; [| exact Hb]. intros a (Ha & Hf). cbv beta in Ha, Hf.
      rewrite lineIn_viewLine in Hf. fold p in Hf.
      unfold INT_MIN, INT_MAX in *. lia. }
    assert (Hins : inserted = firstn (Z.to_nat s) alignInfo ++
                              map (addLine p N) (skipn (Z.to_nat s) alignInfo)).
    { unfold inserted. rewrite <- (firstn_skipn (Z.to_nat s) alignInfo) at 1.
      rewrite map_app. f_equal.
      - apply shiftedBy_below. exact Hlow.
      - apply shiftedBy_above; assumption. }
    rewrite Hins, map_lineIn. fold p. split; [exact Hres |].
    destruct (sorted_pieces p alignInfo (Z.to_nat s) (Z.to_nat s) Hs) as (H1 & H2).
    apply (sorted_shift_suffix p _ _ L N H1 H2 Hlow); [| exact Hfit].
    eapply Forall_impl; [| exact Hhigh]. intros a Ha. simpl in Ha. lia.
  - destruct (adjustAlignment_yields view L (- N) alignInfo Hs)
      as (res & Hres & s & r & Hfirst & Hsr & _ & Hin & Hout & ->).
    fold p in Hfirst, Hin, Hout |- *. specialize (Hout ltac:(lia)).
    pose proof Hfirst as (Hrange & Hbefore & _).
    pose proof (sorted_from p alignInfo L s Hs Hfirst) as Hfrom.
    assert (Hlow : Forall (fun a => viewLine p a < L) (firstn (Z.to_nat s) alignInfo))
      by (apply Forall_firstn_idx; exact Hbefore).
    assert (Hmid : Forall (fun a => L <= viewLine p a < L + N)
                          (firstn (Z.to_nat r - Z.to_nat s) (skipn (Z.to_nat s) alignInfo))).
    { apply Forall_mid_idx; [lia |]. intros k a Hk Ha.
      pose proof (Hin k a Hk Ha) as Hlt. pose proof (Hfrom k a ltac:(lia) Ha).
      pose proof (Hidx k a Ha).
      rewrite int_small in Hlt by (unfold INT_MIN, INT_MAX; lia). lia. }
    assert (Hhigh : Forall (fun a => L + N <= viewLine p a) (skipn (Z.to_nat r) alignInfo)).
    { apply Forall_skipn_idx; [lia |]. intros k a Hk Ha.
      pose proof (lookup_Some_range _ _ _ Ha) as Hkr.
      destruct (lookup_in_range alignInfo r ltac:(lia)) as (b & Hb).
      pose proof (Hout b Hb) as Hge. pose proof (Hidx r b Hb).
      pose proof (Hfrom r b ltac:(lia) Hb).
      rewrite int_small in Hge by (unfold INT_MIN, INT_MAX; lia).
      pose proof (sorted_lookup_le p alignInfo r k b a Hs Hk Hb Ha). lia. }
    assert (Hfit : Forall (fun a => INT_MIN <= viewLine p a + - N <= INT_MAX)
                          (skipn (Z.to_nat r) alignInfo)).
    { pose proof (Forall_both _ _ _ Hhigh
                    (Forall_skipn_of _ (Z.to_nat r) _ Hrange32)) as Hb.
      eapply Forall_impl; [| exact Hb]. intros a (Ha & Hf). cbv beta in Ha, Hf.
      unfold INT_MIN, INT_MAX in *. lia. }
    assert (Hdel : deleted = firstn (Z.to_nat s) alignInfo ++
                             map (addLine p (- N)) (skipn (Z.to_nat r) alignInfo)).
    { unfold deleted.
      rewrite (three_parts alignInfo (Z.to_nat s) (Z.to_nat r)) at 1 by lia.
      rewrite !filter_app, !map_app.
      rewrite (filter_none (survives view L N) (firstn (Z.to_nat r - Z.to_nat s) _)).
      2:{ eapply Forall_impl; [| exact Hmid]. intros a Ha. simpl in Ha.
          unfold survives, inDeleted. rewrite lineIn_viewLine. fold p.
          apply negb_false_iff, andb_true_iff.
          split; [apply Z.leb_le | apply Z.ltb_lt]; lia. }
      rewrite !filter_all.
      2:{ eapply Forall_impl; [| exact Hhigh]. intros a Ha. simpl in Ha.
          unfold survives, inDeleted. rewrite lineIn_viewLine. fold p.
          apply negb_true_iff, andb_false_iff.
          right. apply Z.ltb_ge. lia. }
      2:{ eapply Forall_impl; [| exact Hlow]. intros a Ha. simpl in Ha.
          unfold survives, inDeleted. rewrite lineIn_viewLine. fold p.
          apply negb_true_iff, andb_false_iff.
          left. apply Z.leb_gt. lia. }
      simpl. f_equal.
      - apply shiftedBy_below. exact Hlow.
      - apply shiftedBy_above; [| exact Hfit].
        eapply Forall_impl; [| exact Hhigh]. intros a Ha. simpl in Ha. fold p. lia. }
    rewrite Hdel, map_lineIn. fold p. split; [exact Hres |].
    destruct (sorted_pieces p alignInfo (Z.to_nat s) (Z.to_nat r) Hs) as (H1 & H2).
    apply (sorted_shift_suffix p _ _ L (- N) H1 H2 Hlow); [| exact Hfit].
    eapply Forall_impl; [| exact Hhigh]. intros a Ha. simpl in Ha. lia.
Qed.

(** The search for line 4 of the main view in the four-entry table ends
    at index 2. *)
Lemma getAlignmentIdxAfter_minimal_witness :
  Sorted Z.le (map (viewLine member_main) fourEntries) /\
  exists idx,
    out (getAlignmentIdxAfter member_main fourEntries 4) = Done idx /\
    0 <= idx <= size fourEntries /\
    (forall k a, 0 <= k < idx -> lookup fourEntries k = Some a -> viewLine member_main a < 4) /\
    (forall a, lookup fourEntries idx = Some a -> 4 <= viewLine member_main a) /\
    (idx = size fourEntries <-> forall a, In a fourEntries -> viewLine member_main a < 4).
Proof.
  assert (Hs : Sorted Z.le (map (viewLine member_main) fourEntries))
    by (repeat constructor; vm_compute; discriminate).
  split; [exact Hs |].
  exact (getAlignmentIdxAfter_minimal member_main fourEntries 4 Hs).
Defined.

(** Two lines inserted at line 4 of the sub view, and four lines
    deleted at its line 3, in the four-entry table: the sub lines move,
    the main lines stay. *)
Lemma adjustAlignment_shift_witness :
  out (adjustAlignment SUB_VIEW 4 2 fourEntries) =
    Done [mkPair (mkViewData 0 0) (mkViewData 0 0);
          mkPair (mkViewData 3 1) (mkViewData 3 1);
          mkPair (mkViewData 6 2) (mkViewData 7 2);
          mkPair (mkViewData 9 0) (mkViewData 11 0)] /\
  out (adjustAlignment SUB_VIEW 3 (- 4) fourEntries) =
    Done [mkPair (mkViewData 0 0) (mkViewData 0 0);
          mkPair (mkViewData 9 0) (mkViewData 5 0)].
Proof.
  assert (Hint : intLines fourEntries)
    by (repeat constructor; vm_compute; discriminate).
  assert (Hs : Sorted Z.le (map (lineIn SUB_VIEW) fourEntries))
    by (repeat constructor; vm_compute; discriminate).
  assert (Hfits : fitsAfter SUB_VIEW 4 2 fourEntries)
    by (repeat constructor; vm_compute; discriminate).
  pose proof (adjustAlignment_shift SUB_VIEW 4 2 fourEntries Hint Hs
                ltac:(lia) ltac:(unfold INT_MAX; lia)) as Hins.
  pose proof (adjustAlignment_shift SUB_VIEW 3 4 fourEntries Hint Hs
                ltac:(lia) ltac:(unfold INT_MAX; lia)) as Hdel.
  split; [exact (proj1 (proj1 Hins Hfits)) | exact (proj1 (proj2 Hdel))].
Defined.

(** C1 as stated fails outside the [int] range: two lines inserted at
    line 5 of the main view of a sorted table whose last main line is
    2147483646.  The line does not become 2147483648: it wraps to
    [INT_MIN], and the table is no longer sorted. *)
Lemma adjustAlignment_shift_overflow :
  intLines nearIntMax /\
  Sorted Z.le (map (lineIn MAIN_VIEW) nearIntMax) /\
  out (adjustAlignment MAIN_VIEW 5 2 nearIntMax) =
    Done [mkPair (mkViewData 0 0) (mkViewData 0 0);
          mkPair (mkViewData (- 2147483648) 0) (mkViewData 7 0)] /\
  out (adjustAlignment MAIN_VIEW 5 2 nearIntMax) <>
    Done (map (shiftedBy MAIN_VIEW 5 2) nearIntMax) /\
  (forall res, out (adjustAlignment MAIN_VIEW 5 2 nearIntMax) = Done res ->
               ~ Sorted Z.le (map (lineIn MAIN_VIEW) res)).
Proof.
  split; [repeat constructor; vm_compute; discriminate |].
  split; [repeat constructor; vm_compute; discriminate |].
  split; [reflexivity |]. split; [vm_compute; discriminate |].
  intros res Hres. vm_compute in Hres. injection Hres as <-.
  intros Hsorted. inversion Hsorted as [| ? ? _ Hhd]; subst.
  inversion Hhd as [| ? ? Hle]; subst. vm_compute in Hle. apply Hle. reflexivity.
Qed.

(** ** The deleted sections *)

Lemma back_push {T} (v : list T) (x : T) : back (v ++ [x]) = Some x.
Proof.
  unfold back. rewrite length_app. simpl.
  replace (length v + 1 - 1)%nat with (length v) by lia.
  rewrite nth_error_app2 by lia. now rewrite Nat.sub_diag.
Qed.

Lemma back_nil {T} (v : list T) : back v = None <-> v = [].
Proof.
  unfold back. split.
  - intros Hn. apply nth_error_None in Hn. destruct v; [reflexivity | simpl in Hn; lia].
  - intros ->. reflexivity.
Qed.

Lemma back_split {T} (v : list T) (x : T) : back v = Some x -> v = pop_back v ++ [x].
Proof.
  unfold pop_back. intros Hb. destruct (exists_last (l := v)) as (v' & y & ->).
  - intros ->. discriminate.
  - rewrite back_push in Hb. injection Hb as ->. now rewrite removelast_last.
Qed.

Lemma pop_back_push {T} (v : list T) (x : T) : pop_back (v ++ [x]) = v.
Proof. apply removelast_last. Qed.

Section SectionsFacts.

Context {E : Type} `{Host E}.
Variable Settings : UserSettings.

Lemma perform_call (c : Command) (cs : list Command) (w : World E) :
  perform (c :: cs) w = perform cs (snd (call c w)).
Proof. reflexivity. Qed.

(** C2. When [push (view, action, startLine, len, undo)] succeeds and
    the next [pop] on the tracker is [pop (view, inverse action,
    startLine)] (a redo for a pushed undo, an undo for anything else),
    whatever the host has become in between: [pop] returns the very
    pointer [undo] that was given to [push] and removes the entry
    [push] added, so that the stack is the one from before [push]; and
    with [ms] the per-line markers [push] captured for
    [startLine, startLine + len) and [next] the marker it captured for
    the line after them (both nothing when comparisons are redone on
    every change, [next] nothing as well when the range ends the
    document), [pop] puts [ms] back at [startLine] and then reconciles
    the line after them: it clears that line and gives it the markers
    [next] when [next] is not 0, and leaves it alone when [next] is 0;
    it calls the host for nothing else, and not at all when [ms] is
    empty. *)
Theorem push_pop_roundtrip
        (view action startLine len : Z) (undo : shared_ptr)
        (this pushed : DeletedSectionsList) (w w1 : World E) :
  push Settings view action startLine len undo this w = ((true, pushed), w1) ->
  forall w' : World E,
    let ms := capturedMarkers Settings (editor w) view startLine len in
    let next := capturedNextLineMarker Settings (editor w) view startLine len in
    let tag := if action =? SC_PERFORMED_UNDO then SC_PERFORMED_REDO
               else SC_PERFORMED_UNDO in
    let popped := pop view tag startLine pushed w' in
    fst popped = (undo, mkSections (lastPushTimeMark pushed) (sections this)) /\
    (ms = [] -> snd popped = w') /\
    (ms <> [] -> next = 0 ->
     snd popped = perform [setMarkers view startLine ms] w') /\
    (ms <> [] -> next <> 0 ->
     snd popped = perform [setMarkers view startLine ms;
                           clearMarks view (startLine + size ms);
                           SCI_MARKERADDSET view (startLine + size ms) next] w').
Proof.
  intros Hpush w' ms next tag popped.
  assert (Hpop : popped =
                 ((undo, mkSections (lastPushTimeMark pushed) (sections this)),
                  perform (restoreCalls view startLine ms next) w')).
  { subst popped tag ms next. revert Hpush. unfold push.
    destruct (len <? 1); [discriminate |].
    destruct (match back (sections this) with
              | Some b => (DeletedSection.restoreAction b =? action)
                          && DeletedSection.lineReplace b
              | None => false
              end); [discriminate |].
    unfold capturedMarkers, capturedNextLineMarker.
    unfold sbind, ask, sret, call.
    destruct (RecompareOnChange Settings); simpl.
    - intros Hpush. injection Hpush as <- <-.
      unfold pop. simpl. rewrite back_push. simpl.
      rewrite !Z.eqb_refl. simpl.
      unfold sbind, sret. simpl. rewrite pop_back_push. reflexivity.
    - destruct (startLine + len <? SCI_GETLINECOUNT (editor w) view) eqn:Hnext;
        simpl; intros Hpush; injection Hpush as <- <-;
        unfold pop; simpl; rewrite back_push; simpl;
        rewrite !Z.eqb_refl; simpl;
        unfold sbind, sret, call; simpl; rewrite pop_back_push;
        destruct (getMarkers (editor w) view startLine len MARKER_MASK_ALL) as [| m ms];
        simpl; try reflexivity.
      destruct (Z.land (SCI_MARKERGET (editor w) view (startLine + len)) MARKER_MASK_ALL =? 0);
        reflexivity. }
  rewrite Hpop. cbn [fst snd]. split; [reflexivity |]. split; [| split].
  - intros ->. reflexivity.
  - intros Hms ->. destruct ms; [contradiction | reflexivity].
  - intros Hms Hnext. destruct ms; [contradiction |]. unfold restoreCalls.
    destruct (Z.eqb_spec next 0); [contradiction | reflexivity].
Qed.

(** C3. For every tracker and host: [pop] returns nothing and pops no
    entry when the stack is empty or the start line of its top entry is
    not [startLine]; when the start line matches and the reverse-action
    tag of the top entry is not [action], [pop] returns nothing, pops no
    entry, and sets the replace flag of the top entry, leaving its other
    fields as they are, exactly when the tick count it reads is below
    the [DWORD] sum of the tick count of the last successful push and
    40; an entry it does not mark keeps the flag it had.  As long as
    that sum stays below 2^32 and the tick count has not gone back, the
    test says that less than 40 ms have passed since that push.  The
    host is not touched in any of these cases. *)
Theorem pop_mismatch
        (view action startLine : Z) (this : DeletedSectionsList) (w : World E) :
  (sections this = [] ->
   pop view action startLine this w = ((nullptr, this), w)) /\
  (forall last,
     back (sections this) = Some last ->
     DeletedSection.startLine last <> startLine ->
     pop view action startLine this w = ((nullptr, this), w)) /\
  (forall last,
     back (sections this) = Some last ->
     DeletedSection.startLine last = startLine ->
     DeletedSection.restoreAction last <> action ->
     let marked := GetTickCount (editor w) <? (lastPushTimeMark this + 40) mod 2 ^ 32 in
     pop view action startLine this w =
     ((nullptr,
       mkSections (lastPushTimeMark this)
                  (pop_back (sections this) ++
                   [DeletedSection.mk (DeletedSection.startLine last)
                                      (marked || DeletedSection.lineReplace last)
                                      (DeletedSection.restoreAction last)
                                      (DeletedSection.markers last)
                                      (DeletedSection.nextLineMarker last)
                                      (DeletedSection.undoInfo last)])),
      w) /\
     (0 <= lastPushTimeMark this <= GetTickCount (editor w) ->
      lastPushTimeMark this + 40 < 2 ^ 32 ->
      marked = true <-> GetTickCount (editor w) - lastPushTimeMark this < 40)).
Proof.
  split; [| split].
  - intros Hnil. unfold pop. rewrite Hnil. reflexivity.
  - intros last Hback Hline. unfold pop. rewrite Hback.
    destruct (Z.eqb_spec (DeletedSection.startLine last) startLine); [contradiction |].
    reflexivity.
  - intros last Hback Hline Htag marked. split.
    + unfold pop. rewrite Hback.
      destruct (Z.eqb_spec (DeletedSection.startLine last) startLine); [| contradiction].
      destruct (Z.eqb_spec (DeletedSection.restoreAction last) action); [contradiction |].
      unfold marked. cbn [negb]. unfold sbind, ask, sret, set_back, pop_back, dword.
      destruct (GetTickCount (editor w) <? (lastPushTimeMark this + 40) mod 2 ^ 32);
        [reflexivity | destruct last; reflexivity].
    + intros Hmono Hfit. unfold marked. rewrite Z.mod_small by lia.
      rewrite Z.ltb_lt. lia.
Qed.

End SectionsFacts.

(** The round trip on the ten-line document: the deletion of lines 1-2
    of the main view by the user is recorded, with the marker of line 3
    below them, and the undo that inserts them again gets the markers
    and the pointer back. *)
Lemma push_pop_roundtrip_witness :
  let pushed := push freeCaret MAIN_VIEW SC_PERFORMED_USER 1 2 (object 7) noSections
                     (mkWorld oneDiffHost []) in
  pushed = ((true, snd (fst pushed)), snd pushed) /\
  forall w' : World SimpleHost,
    pop MAIN_VIEW SC_PERFORMED_UNDO 1 (snd (fst pushed)) w' =
    ((object 7, mkSections 1000 []),
     perform [setMarkers MAIN_VIEW 1 [0; 0]; clearMarks MAIN_VIEW 3;
              SCI_MARKERADDSET MAIN_VIEW 3 1] w').
Proof.
  split; [reflexivity |]. intros w'.
  pose proof (@push_pop_roundtrip SimpleHost simpleHost freeCaret
                MAIN_VIEW SC_PERFORMED_USER 1 2 (object 7)
                noSections _ (mkWorld oneDiffHost []) _ eq_refl w') as Hpop.
  cbv zeta in Hpop. destruct Hpop as (Hres & _ & _ & Hcalls).
  apply injective_projections.
  - exact Hres.
  - apply Hcalls; vm_compute; discriminate.
Defined.

(** C2 as stated fails on the boundary line: the deletion of lines 4-5
    of the main view is recorded while line 6 below them has no marker;
    when the undo comes, line 6 has got the marker 4.  [pop] returns
    the pointer and puts the markers of lines 4-5 back, but it makes no
    call for line 6, which keeps the marker 4 that was not there when
    [push] looked. *)
Lemma push_pop_boundary_left :
  let pushed := push freeCaret MAIN_VIEW SC_PERFORMED_USER 4 2 (object 7) noSections
                     (mkWorld oneDiffHost []) in
  let popped := pop MAIN_VIEW SC_PERFORMED_UNDO 4 (snd (fst pushed))
                    (mkWorld laterMarkedHost []) in
  fst (fst pushed) = true /\
  Z.land (SCI_MARKERGET oneDiffHost MAIN_VIEW 6) MARKER_MASK_ALL = 0 /\
  fst popped = (object 7, mkSections 1000 []) /\
  issued (snd popped) = [setMarkers MAIN_VIEW 4 [0; 0]] /\
  Z.land (SCI_MARKERGET (editor (snd popped)) MAIN_VIEW 6) MARKER_MASK_ALL = 4.
Proof.
  vm_compute. repeat split; reflexivity.
Qed.

(** A second insert that is not the undo of the recorded deletion,
    10 ms after it: the entry stays and is marked as a replace. *)
Lemma pop_mismatch_witness :
  let this := mkSections 1000 [DeletedSection.make SC_PERFORMED_USER 3 (object 7)] in
  let w := mkWorld (mkSimple (tenLines 1) (tenLines 1) 7 0 0 0 20 MAIN_VIEW 1 1010) [] in
  pop MAIN_VIEW SC_PERFORMED_USER 3 this w =
  ((nullptr,
    mkSections 1000 [DeletedSection.mk 3 true SC_PERFORMED_UNDO [] 0 (object 7)]),
   w) /\
  1010 - 1000 < 40.
Proof.
  intros this w.
  pose proof (proj2 (proj2 (pop_mismatch MAIN_VIEW SC_PERFORMED_USER 3 this w))
                    (DeletedSection.make SC_PERFORMED_USER 3 (object 7))
                    eq_refl eq_refl ltac:(discriminate)) as Hpop.
  cbv zeta in Hpop. destruct Hpop as (Hres & Htime). split; [exact Hres |].
  apply Htime; [vm_compute; split; discriminate | reflexivity | reflexivity].
Defined.

(** C3 as stated fails at the wrap of the tick counter: the deletion
    was recorded at tick 4294967290, and the insert that is not its undo
    comes 5 ms later, at tick 4294967295.  The [DWORD] sum of the stamp
    and 40 is 34, the tick count is not below it, and the entry is not
    marked as a replace. *)
Lemma pop_mismatch_tick_wrap :
  let this := mkSections 4294967290 [DeletedSection.make SC_PERFORMED_USER 3 (object 7)] in
  let w := mkWorld (mkSimple (tenLines 1) (tenLines 1) 7 0 0 0 20 MAIN_VIEW 1 4294967295) [] in
  GetTickCount (editor w) - lastPushTimeMark this < 40 /\
  0 <= GetTickCount (editor w) - lastPushTimeMark this /\
  pop MAIN_VIEW SC_PERFORMED_USER 3 this w =
  ((nullptr,
    mkSections 4294967290 [DeletedSection.mk 3 false SC_PERFORMED_UNDO [] 0 (object 7)]),
   w).
Proof.
  intros this w. split; [reflexivity |]. split; [discriminate |]. reflexivity.
Qed.

(** ** Scroll synchronisation *)

Ltac bool_to_Z :=
  repeat match goal with
         | H : negb _ = true |- _ => apply negb_true_iff in H
         | H : negb _ = false |- _ => apply negb_false_iff in H
         | H : (_ && _) = true |- _ => apply andb_true_iff in H; destruct H
         | H : (_ || _) = false |- _ => apply orb_false_iff in H; destruct H
         | H : (_ <? _) = true |- _ => apply Z.ltb_lt in H
         | H : (_ <? _) = false |- _ => apply Z.ltb_ge in H
         | H : (_ <=? _) = true |- _ => apply Z.leb_le in H
         | H : (_ <=? _) = false |- _ => apply Z.leb_gt in H
         | H : (_ >? _) = true |- _ => rewrite Z.gtb_ltb in H; apply Z.ltb_lt in H
         | H : (_ >? _) = false |- _ => rewrite Z.gtb_ltb in H; apply Z.ltb_ge in H
         | H : (_ >=? _) = true |- _ => rewrite Z.geb_leb in H; apply Z.leb_le in H
         | H : (_ >=? _) = false |- _ => rewrite Z.geb_leb in H; apply Z.leb_gt in H
         | H : (_ =? _) = true |- _ => apply Z.eqb_eq in H
         | H : (_ =? _) = false |- _ => apply Z.eqb_neq in H
         end.

Ltac split_ifs :=
  repeat match goal with
         | |- context [if ?b then _ else _] =>
             lazymatch b with
             | context [if _ then _ else _] => fail
             | _ => destruct b eqn:?
             end
         end.

Ltac no_scroll :=
  unfold noScroll; simpl; intros ? ? Hin;
  repeat (destruct Hin as [Hin | Hin]; [discriminate |]); exact Hin.

Section SyncFacts.

Context {E : Type} `{Host E}.
Variable Settings : UserSettings.

(** C8, as the code has it.  With [firstVisible] and [otherFirstVisible]
    the first visible lines of the bias view and of the other view:
    when the document line at the top of the bias view is before its
    last line and the two first visible lines differ, [syncViews] sets
    the first visible line of the other view to [firstVisible] clamped to
    the visible line of the last document line of the other view; when
    the bias view shows its last line at the top, it sets it to
    [firstVisible], unclamped, and only if that is beyond
    [otherFirstVisible]; in every other case it does not scroll.  (A
    negative target is never sent.) *)
Theorem syncViews_scroll (biasView : Z) (w : World E) :
  let e := editor w in
  let otherView := getOtherViewId biasView in
  let firstVisible := getFirstVisibleLine e biasView in
  let otherFirstVisible := getFirstVisibleLine e otherView in
  let firstLine := SCI_DOCLINEFROMVISIBLE e biasView firstVisible in
  let otherLastVisible :=
    SCI_VISIBLEFROMDOCLINE e otherView (SCI_GETLINECOUNT e otherView - 1) in
  exists calls,
    issued (snd (syncViews Settings biasView w)) = issued w ++ calls /\
    (firstLine < SCI_GETLINECOUNT e biasView - 1 ->
     firstVisible <> otherFirstVisible ->
     0 <= Z.min firstVisible otherLastVisible ->
     exists rest,
       calls = SCI_SETFIRSTVISIBLELINE otherView (Z.min firstVisible otherLastVisible) :: rest /\
       noScroll rest) /\
    (SCI_GETLINECOUNT e biasView - 1 <= firstLine ->
     otherFirstVisible < firstVisible ->
     0 <= firstVisible ->
     exists rest,
       calls = SCI_SETFIRSTVISIBLELINE otherView firstVisible :: rest /\
       noScroll rest) /\
    (SCI_GETLINECOUNT e biasView - 1 <= firstLine ->
     firstVisible <= otherFirstVisible ->
     noScroll calls) /\
    (firstVisible = otherFirstVisible -> noScroll calls).
Proof.
  cbv zeta. unfold syncViews, sbind, ask, sret, call, id. simpl.
  split_ifs; simpl;
    (eexists; split; [rewrite <- ?app_assoc; simpl; reflexivity |]);
    bool_to_Z;
    (repeat split; intros;
     try lia;
     try no_scroll;
     try (eexists; split; [f_equal; f_equal; lia | no_scroll])).
Qed.

End SyncFacts.

(** C8 as stated fails: the main view, of three lines, shows its last
    line at the top (first visible line 2), the sub view is scrolled to
    line 5; the first visible lines differ, and [syncViews] leaves the
    sub view where it is. *)
Lemma syncViews_no_scroll_example :
  let w' := snd (syncViews freeCaret MAIN_VIEW (mkWorld shortMainHost [])) in
  getFirstVisibleLine shortMainHost MAIN_VIEW = 2 /\
  getFirstVisibleLine shortMainHost SUB_VIEW = 5 /\
  SCI_VISIBLEFROMDOCLINE shortMainHost SUB_VIEW (SCI_GETLINECOUNT shortMainHost SUB_VIEW - 1) = 9 /\
  issued w' = [NavDlg_Update] /\
  getFirstVisibleLine (editor w') SUB_VIEW = 5 /\
  getFirstVisibleLine (editor w') SUB_VIEW <> Z.min 2 9.
Proof. vm_compute. repeat split; try reflexivity. discriminate. Qed.

Lemma syncViews_scroll_witness :
  exists rest,
    issued (snd (syncViews freeCaret SUB_VIEW (mkWorld shortMainHost []))) =
    SCI_SETFIRSTVISIBLELINE MAIN_VIEW 2 :: rest.
Proof.
  destruct (syncViews_scroll freeCaret SUB_VIEW (mkWorld shortMainHost []))
    as (calls & Hcalls & Hclamp & _).
  destruct Hclamp as (rest & Hrest & _);
    [vm_compute; reflexivity | vm_compute; discriminate | vm_compute; discriminate |].
  exists rest. rewrite Hcalls, Hrest. reflexivity.
Defined.

(** ** The navigator *)

Section NavFacts.

Context {E : Type} `{Host E}.
Hypothesis inRange : InRange E.
Variable Settings : UserSettings.
Variable compareList : CompareList_t.

Lemma sameLines_refl (w : World E) : sameLines w w.
Proof. intros view. reflexivity. Qed.

Lemma sameLines_trans (w1 w2 w3 : World E) :
  sameLines w1 w2 -> sameLines w2 w3 -> sameLines w1 w3.
Proof. intros H12 H23 view. rewrite H23. apply H12. Qed.

Lemma sameLines_call (c : Command) (w : World E) : sameLines w (snd (call c w)).
Proof. intros view. simpl. apply (lines_kept inRange). Qed.

Lemma lineAnswered_same (w w' : World E) (loc : Z * Z) :
  sameLines w w' -> lineAnswered w loc -> lineAnswered w' loc.
Proof. unfold lineAnswered. intros Hs. rewrite Hs. tauto. Qed.

Lemma other_of_other (view : Z) : validView view -> getOtherViewId (getOtherViewId view) = view.
Proof. intros [-> | ->]; reflexivity. Qed.

Lemma other_valid (view : Z) : validView (getOtherViewId view).
Proof.
  unfold getOtherViewId, validView. destruct (view =? MAIN_VIEW); [right | left]; reflexivity.
Qed.

Lemma nextMarkedLine_range (e : E) (down isCornerDiff : bool) (view startLine : Z) :
  nextMarkedLine e down isCornerDiff view startLine = -1 \/
  0 <= nextMarkedLine e down isCornerDiff view startLine < SCI_GETLINECOUNT e view.
Proof.
  unfold nextMarkedLine. cbv zeta.
  match goal with
  | |- context [if ?c then -1 else ?r] =>
      assert (Hr : r = -1 \/ 0 <= r < SCI_GETLINECOUNT e view)
        by (destruct down;
            [apply (marker_next_range inRange) | apply (marker_previous_range inRange)]);
      destruct c; [left; reflexivity | exact Hr]
  end.
Qed.

Lemma nextChange_range (e : E) (findUnique : bool) (view mainStartLine subStartLine : Z)
      (down : bool) (view' ln' : Z) :
  validView view ->
  nextChange e findUnique view mainStartLine subStartLine down = Some (view', ln') ->
  validView view' /\ 0 <= ln' < SCI_GETLINECOUNT e view'.
Proof.
  intros Hview. unfold nextChange. cbv zeta.
  generalize (nextMarkedLine_range e down ((mainStartLine <? 0) && (subStartLine <? 0))
                                   MAIN_VIEW mainStartLine).
  generalize (nextMarkedLine_range e down ((mainStartLine <? 0) && (subStartLine <? 0))
                                   SUB_VIEW subStartLine).
  generalize (nextMarkedLine e down ((mainStartLine <? 0) && (subStartLine <? 0))
                             MAIN_VIEW mainStartLine) as mainNextLine.
  generalize (nextMarkedLine e down ((mainStartLine <? 0) && (subStartLine <? 0))
                             SUB_VIEW subStartLine) as subNextLine.
  intros subNextLine mainNextLine Hsub Hmain.
  pose proof (matching_line_range inRange e (getOtherViewId view)) as Hmatch.
  rewrite (other_of_other view Hview) in Hmatch.
  pose proof (other_valid view) as Hother.
  destruct Hview as [-> | ->];
    change (getOtherViewId MAIN_VIEW) with SUB_VIEW in *;
    change (getOtherViewId SUB_VIEW) with MAIN_VIEW in *;
    simpl in *;
    split_ifs; intros Heq; try discriminate; injection Heq as <- <-;
    bool_to_Z;
    (split; [first [left; reflexivity | right; reflexivity | assumption] |]);
    try apply Hmatch; simpl; lia.
Qed.

Ltac same_lines :=
  intros ?; simpl; rewrite ?(lines_kept inRange); reflexivity.

Lemma landOn_range (findUnique : bool) (view ln : Z)
      (down goToCornerDiff isCornerDiff doNotBlink : bool) (w : World E) :
  0 <= ln < SCI_GETLINECOUNT (editor w) view ->
  let r := landOn Settings findUnique view ln down goToCornerDiff isCornerDiff doNotBlink w in
  sameLines w (snd r) /\ fst (fst r) = view /\ lineAnswered (snd r) (fst r).
Proof.
  intros Hln. unfold landOn, sbind, call, ask, sret, id. cbv zeta.
  split_ifs; simpl;
    (split; [same_lines | split; [reflexivity |]]);
    unfold lineAnswered; simpl; rewrite ?(lines_kept inRange);
    try (left; reflexivity);
    try (right; left; lia).
  all: simpl in *; bool_to_Z.
  all: match goal with
       | Ha : isLineAnnotated ?e0 ?v ?l = true, Hl : 0 <= ?l < SCI_GETLINECOUNT ?e1 ?v |- _ =>
           destruct (Z.eq_dec (l + 1) (SCI_GETLINECOUNT e1 v)) as [Heq | Hne];
           [right; right; split; [lia |]; split; [exact Heq |];
            exists e0; rewrite ?(lines_kept inRange);
            split; [simpl; rewrite ?(lines_kept inRange); lia |];
            replace (l + 1 - 1) with l by lia; exact Ha
           | right; left; lia]
       end.
Qed.

Lemma valid_nonneg (view : Z) : validView view -> 0 <= view.
Proof. intros [-> | ->]; unfold MAIN_VIEW, SUB_VIEW; lia. Qed.

Lemma setArrowMark_same (view ln : Z) (down : bool) (w : World E) :
  sameLines w (snd (setArrowMark view ln down w)).
Proof.
  unfold setArrowMark, sbind, call, sret. split_ifs; same_lines.
Qed.

Lemma showBlankAdjacentArrowMark_same (view ln : Z) (down : bool) (w : World E) :
  sameLines w (snd (showBlankAdjacentArrowMark Settings view ln down w)).
Proof.
  unfold showBlankAdjacentArrowMark, sbind, ask, sret, id.
  split_ifs; apply setArrowMark_same.
Qed.

Lemma jumpToNextChange_ok (mainStartLine subStartLine : Z)
      (down goToCornerDiff doNotBlink : bool) (w : World E) :
  searchOk w (jumpToNextChange Settings compareList mainStartLine subStartLine
                               down goToCornerDiff doNotBlink w).
Proof.
  unfold jumpToNextChange, sbind, ask, id. cbv zeta.
  pose proof (current_view_valid inRange (editor w)) as Hview.
  destruct (currentCompare compareList (editor w)) as [cmpPair |].
  2:{ split; [apply sameLines_refl | split; [left; reflexivity | reflexivity]]. }
  match goal with
  | |- context [if ?c then _ else _] => destruct c
  end.
  - unfold sbind, call, sret. simpl. split; [same_lines | split].
    + right. left. simpl. rewrite (lines_kept inRange).
      destruct (FollowingCaret Settings);
        [apply (current_line_range inRange) |
         destruct down; [apply (last_line_range inRange) | apply (first_line_range inRange)]].
    + simpl. intros Hneg. apply valid_nonneg in Hview. lia.
  - destruct (nextChange (editor w) (findUniqueMode (options cmpPair))
                         (getCurrentViewId (editor w)) mainStartLine subStartLine down)
      as [[view' ln'] |] eqn:Hnext.
    2:{ split; [apply sameLines_refl | split; [left; reflexivity | reflexivity]]. }
    destruct (nextChange_range _ _ _ _ _ _ _ _ Hview Hnext) as (Hview' & Hln').
    destruct (landOn_range (findUniqueMode (options cmpPair)) view' ln' down goToCornerDiff
                           ((mainStartLine <? 0) && (subStartLine <? 0)) doNotBlink w Hln')
      as (Hsame & Hfst & Hans).
    split; [exact Hsame | split; [exact Hans |]].
    rewrite Hfst. intros Hneg. apply valid_nonneg in Hview'. lia.
Qed.

Lemma searchOk_then_arrow (w : World E) (r : (Z * Z) * World E) (down : bool) :
  searchOk w r ->
  sameLines w (snd (showBlankAdjacentArrowMark Settings (fst (fst r)) (snd (fst r)) down (snd r)))
  /\ lineAnswered (snd (showBlankAdjacentArrowMark Settings (fst (fst r)) (snd (fst r)) down
                                                   (snd r)))
                  (fst r).
Proof.
  intros (Hsame & Hans & _).
  pose proof (showBlankAdjacentArrowMark_same (fst (fst r)) (snd (fst r)) down (snd r)) as Ha.
  split; [eapply sameLines_trans; eassumption |].
  eapply lineAnswered_same; eassumption.
Qed.

Lemma jumpToFirstChange_ok (goToCornerDiff doNotBlink : bool) (w : World E) :
  let r := jumpToFirstChange Settings compareList goToCornerDiff doNotBlink w in
  sameLines w (snd r) /\ lineAnswered (snd r) (fst r).
Proof.
  unfold jumpToFirstChange, sbind, sret.
  pose proof (jumpToNextChange_ok 0 0 true goToCornerDiff doNotBlink w) as Hok.
  destruct (jumpToNextChange Settings compareList 0 0 true goToCornerDiff doNotBlink w)
    as [viewLoc w1].
  pose proof (searchOk_then_arrow w (viewLoc, w1) true Hok) as Harrow. simpl in Harrow.
  destruct (showBlankAdjacentArrowMark Settings (fst viewLoc) (snd viewLoc) true w1).
  exact Harrow.
Qed.

Lemma jumpToLastChange_ok (goToCornerDiff doNotBlink : bool) (w : World E) :
  let r := jumpToLastChange Settings compareList goToCornerDiff doNotBlink w in
  sameLines w (snd r) /\ lineAnswered (snd r) (fst r).
Proof.
  unfold jumpToLastChange, sbind, sret, ask, id.
  pose proof (jumpToNextChange_ok (SCI_GETLINECOUNT (editor w) MAIN_VIEW)
                                  (SCI_GETLINECOUNT (editor w) SUB_VIEW)
                                  false goToCornerDiff doNotBlink w) as Hok.
  destruct (jumpToNextChange Settings compareList (SCI_GETLINECOUNT (editor w) MAIN_VIEW)
                             (SCI_GETLINECOUNT (editor w) SUB_VIEW)
                             false goToCornerDiff doNotBlink w)
    as [viewLoc w1].
  pose proof (searchOk_then_arrow w (viewLoc, w1) false Hok) as Harrow. simpl in Harrow.
  destruct (showBlankAdjacentArrowMark Settings (fst viewLoc) (snd viewLoc) false w1).
  exact Harrow.
Qed.

Lemma jumpToChange_search_ok (down : bool) (w : World E) :
  searchOk w (jumpToChange_search Settings compareList down w).
Proof.
  unfold jumpToChange_search, sbind, ask, id. cbv zeta.
  pose proof (current_view_valid inRange (editor w)) as Hview.
  destruct down.
  - match goal with
    | |- context [if ?c then _ else _] => destruct c eqn:Hc
    end.
    + unfold sbind, call, sret. simpl. split; [same_lines | split].
      * right. left. simpl. rewrite (lines_kept inRange).
        destruct (FollowingCaret Settings); [| discriminate].
        apply (current_line_range inRange).
      * simpl. intros Hneg. apply valid_nonneg in Hview. lia.
    + match goal with
      | |- context [let '(a, b) := ?x in _] => destruct x
      end.
      apply jumpToNextChange_ok.
  - match goal with
    | |- context [if ?c then _ else _] => destruct c eqn:Hc
    end.
    + unfold sbind, call, sret. simpl. split; [same_lines | split].
      * right. left. simpl. rewrite (lines_kept inRange).
        destruct (FollowingCaret Settings); [| discriminate].
        apply (current_line_range inRange).
      * simpl. intros Hneg. apply valid_nonneg in Hview. lia.
    + match goal with
      | |- context [let '(a, b) := ?x in _] => destruct x
      end.
      apply jumpToNextChange_ok.
Qed.

Lemma jumpToChange_ok (down wrapAround : bool) (w : World E) :
  let r := jumpToChange Settings compareList down wrapAround w in
  sameLines w (snd r) /\ lineAnswered (snd r) (fst r).
Proof.
  unfold jumpToChange, sbind.
  pose proof (jumpToChange_search_ok down w) as Hok.
  destruct (jumpToChange_search Settings compareList down w) as [viewLoc w1].
  destruct (fst viewLoc <? 0) eqn:Hneg.
  - destruct Hok as (_ & _ & Hsilent). simpl in Hsilent.
    rewrite (Hsilent ltac:(bool_to_Z; assumption)).
    assert (Hre : forall r : (Z * Z) * World E,
               sameLines w (snd r) /\ lineAnswered (snd r) (fst r) ->
               sameLines w (snd (call FlashWindowEx (snd r))) /\
               lineAnswered (snd (call FlashWindowEx (snd r))) (fst r)).
    { intros r (Hs & Ha). pose proof (sameLines_call FlashWindowEx (snd r)) as Hf.
      split; [eapply sameLines_trans; eassumption | eapply lineAnswered_same; eassumption]. }
    destruct wrapAround, down; unfold sret; simpl.
    + pose proof (Hre _ (jumpToFirstChange_ok true true w)) as Hr.
      destruct (jumpToFirstChange Settings compareList true true w). exact Hr.
    + pose proof (Hre _ (jumpToLastChange_ok true true w)) as Hr.
      destruct (jumpToLastChange Settings compareList true true w). exact Hr.
    + apply jumpToLastChange_ok.
    + apply jumpToFirstChange_ok.
  - pose proof (searchOk_then_arrow w (viewLoc, w1) down Hok) as Harrow. simpl in Harrow.
    unfold sret.
    destruct (showBlankAdjacentArrowMark Settings (fst viewLoc) (snd viewLoc) down w1).
    exact Harrow.
Qed.

Lemma lineAnswered_near (w : World E) (loc : Z * Z) :
  lineAnswered w loc -> lineNearRange w loc.
Proof.
  unfold lineAnswered, lineNearRange. intros [Hn | [Hin | (Hpos & Heq & _)]]; [left | right | right]; lia.
Qed.

Lemma lineAnswered_in (w : World E) (loc : Z * Z) :
  lastLinesBare -> lineAnswered w loc -> lineInRange w loc.
Proof.
  unfold lineAnswered, lineInRange.
  intros Hbare [Hn | [Hin | (Hpos & Heq & e0 & Hcount & Hann)]];
    [left; exact Hn | right; exact Hin |].
  exfalso. rewrite <- Hcount, Hbare in Hann. discriminate.
Qed.

End NavFacts.




(** ** The plain host stays inside its documents *)

Lemma length_replace_nth {T} (n : nat) (x : T) (v : list T) :
  length (replace_nth n x v) = length v.
Proof.
  revert n. induction v as [| y v IH]; intros [| n]; simpl; try reflexivity.
  now rewrite IH.
Qed.

Lemma length_overwrite (ms : list Z) (k : nat) (new : list Z) :
  length (Simple.overwrite ms k new) = length ms.
Proof.
  revert k new. induction ms as [| m ms IH]; intros k new; [reflexivity |].
  destruct k as [| k], new as [| x new]; simpl; try reflexivity; now rewrite IH.
Qed.

Lemma search_down_range (ok : Z -> bool) (ms : list Z) : forall ln start,
  Simple.search_down ok ms ln start = -1 \/
  ln <= Simple.search_down ok ms ln start < ln + size ms.
Proof.
  induction ms as [| m ms IH]; intros ln start; simpl; [left; reflexivity |].
  unfold size in *. simpl length. rewrite Nat2Z.inj_succ.
  destruct ((start <=? ln) && ok m); [right; lia |].
  destruct (IH (ln + 1) start) as [-> | Hr]; [left; reflexivity | right; lia].
Qed.

Lemma search_up_range (ok : Z -> bool) (ms : list Z) : forall ln start,
  Simple.search_up ok ms ln start = -1 \/
  ln <= Simple.search_up ok ms ln start < ln + size ms.
Proof.
  induction ms as [| m ms IH]; intros ln start; simpl; [left; reflexivity |].
  unfold size in *. simpl length. rewrite Nat2Z.inj_succ.
  destruct (Z.geb_spec (Simple.search_up ok ms (ln + 1) start) 0) as [Hge | Hlt].
  - destruct (IH (ln + 1) start) as [Heq | Hr]; [lia | right; lia].
  - destruct ((ln <=? start) && ok m); [right; lia | left; reflexivity].
Qed.

Lemma lineCount_with_marks (e : SimpleHost) (view : Z) (ms : list Z) (view' : Z) :
  length ms = length (Simple.marks e view) ->
  Simple.lineCount (Simple.with_marks e view ms) view' = Simple.lineCount e view'.
Proof.
  unfold Simple.lineCount, Simple.with_marks, Simple.marks, size.
  destruct (view =? MAIN_VIEW), (view' =? MAIN_VIEW); simpl; intros Hlen;
    rewrite ?Hlen; reflexivity.
Qed.

Lemma lineCount_exec (e : SimpleHost) (c : Command) (view : Z) :
  Simple.lineCount (Simple.exec e c) view = Simple.lineCount e view.
Proof.
  destruct c; simpl; try reflexivity;
    unfold Simple.update_line;
    repeat match goal with
           | |- context [match ?x with _ => _ end] => destruct x
           end;
    try reflexivity;
    try (apply lineCount_with_marks;
         first [apply length_replace_nth | apply length_overwrite]);
    unfold Simple.lineCount, Simple.with_first, Simple.with_caret, Simple.with_view,
      Simple.marks;
    repeat match goal with
           | |- context [if ?x then _ else _] => destruct x
           end;
    reflexivity.
Qed.

Lemma clamp_range (e : SimpleHost) (view ln : Z) :
  0 <= Simple.clamp e view ln < Simple.lineCount e view.
Proof. unfold Simple.clamp, Simple.lineCount. lia. Qed.

Lemma simpleHost_inRange : InRange SimpleHost.
Proof.
  constructor; simpl.
  - intros e. unfold validView. destruct (currentView e =? MAIN_VIEW); [left | right]; reflexivity.
  - apply lineCount_exec.
  - intros e view start mask.
    destruct (search_down_range (Simple.marked mask) (Simple.marks e view) 0 start)
      as [Hn | Hr]; [left; exact Hn | right]. unfold Simple.lineCount. lia.
  - intros e view start mask.
    destruct (search_up_range (Simple.marked mask) (Simple.marks e view) 0 start)
      as [Hn | Hr]; [left; exact Hn | right]. unfold Simple.lineCount. lia.
  - intros e view. apply clamp_range.
  - intros e view. apply clamp_range.
  - intros e view. apply clamp_range.
  - intros e view ln. apply clamp_range.
Qed.

Lemma simpleHost_bare : @lastLinesBare SimpleHost simpleHost.
Proof. intros e view. reflexivity. Qed.


(** ** Wrap-around *)

Section WrapFacts.

Context {E : Type} `{Host E}.
Variable Settings : UserSettings.
Variable compareList : CompareList_t.

Lemma nextChange_view (e : E) (findUnique : bool) (view mainStartLine subStartLine : Z)
      (down : bool) (view' ln' : Z) :
  validView view ->
  nextChange e findUnique view mainStartLine subStartLine down = Some (view', ln') ->
  validView view'.
Proof.
  intros Hview. unfold nextChange. cbv zeta.
  pose proof (other_valid view) as Hother.
  split_ifs; intros Heq; try discriminate; injection Heq as <- <-; assumption.
Qed.

Lemma landOn_view (findUnique : bool) (view ln : Z)
      (down goToCornerDiff isCornerDiff doNotBlink : bool) (w : World E) :
  fst (fst (landOn Settings findUnique view ln down goToCornerDiff isCornerDiff doNotBlink w))
  = view.
Proof.
  unfold landOn, sbind, call, ask, sret, id. cbv zeta. split_ifs; reflexivity.
Qed.

(** A search that answers without a view has asked nothing of the
    host. *)
Lemma jumpToNextChange_silent (mainStartLine subStartLine : Z)
      (down goToCornerDiff doNotBlink : bool) (w : World E) :
  validView (getCurrentViewId (editor w)) ->
  fst (fst (jumpToNextChange Settings compareList mainStartLine subStartLine
                             down goToCornerDiff doNotBlink w)) < 0 ->
  snd (jumpToNextChange Settings compareList mainStartLine subStartLine
                        down goToCornerDiff doNotBlink w) = w.
Proof.
  intros Hview. unfold jumpToNextChange, sbind, ask, id. cbv zeta.
  destruct (currentCompare compareList (editor w)) as [cmpPair |]; [| reflexivity].
  match goal with
  | |- context [if ?c then _ else _] => destruct c
  end.
  - simpl. intros Hneg. apply valid_nonneg in Hview. lia.
  - destruct (nextChange (editor w) (findUniqueMode (options cmpPair))
                         (getCurrentViewId (editor w)) mainStartLine subStartLine down)
      as [[view' ln'] |] eqn:Hnext; [| reflexivity].
    rewrite landOn_view. intros Hneg.
    apply nextChange_view in Hnext; [| exact Hview]. apply valid_nonneg in Hnext. lia.
Qed.

Lemma jumpToChange_search_silent (down : bool) (w : World E) :
  validView (getCurrentViewId (editor w)) ->
  fst (fst (jumpToChange_search Settings compareList down w)) < 0 ->
  snd (jumpToChange_search Settings compareList down w) = w.
Proof.
  intros Hview. unfold jumpToChange_search, sbind, ask, id. cbv zeta.
  destruct down;
    (match goal with
     | |- context [if ?c then _ else _] => destruct c
     end;
     [simpl; intros Hneg; apply valid_nonneg in Hview; lia |
      match goal with
      | |- context [let '(a, b) := ?x in _] => destruct x
      end;
      now apply jumpToNextChange_silent]).
Qed.

(** The search from line 0 of both views ends on the first difference
    as long as line 0 is not the first marked line of either view. *)
Lemma nextChange_first (e : E) (findUnique : bool) (view : Z) :
  validView view ->
  SCI_MARKERNEXT e MAIN_VIEW 0 MARKER_MASK_LINE <> 0 ->
  SCI_MARKERNEXT e SUB_VIEW 0 MARKER_MASK_LINE <> 0 ->
  nextChange e findUnique view 0 0 true = firstDifference e findUnique view.
Proof.
  intros Hview Hmain Hsub. unfold nextChange, nextMarkedLine, firstDifference. cbv zeta.
  apply Z.eqb_neq in Hmain, Hsub.
  change (0 <? 0) with false. cbn [andb negb]. rewrite Hmain, Hsub. cbn [andb].
  destruct Hview as [-> | ->];
    [change (MAIN_VIEW =? MAIN_VIEW) with true;
     change (getOtherViewId MAIN_VIEW) with SUB_VIEW
    | change (SUB_VIEW =? MAIN_VIEW) with false;
      change (getOtherViewId SUB_VIEW) with MAIN_VIEW];
    cbv iota;
    match goal with
    | |- context [if ?own <? 0 then (if ?other <? 0 then _ else _) else _] =>
        destruct (Z.ltb_spec own 0); destruct (Z.ltb_spec other 0);
        cbn [andb]; rewrite ?Z.geb_leb;
        try (destruct (Z.leb_spec 0 other); try lia);
        try reflexivity
    end;
    match goal with
    | |- context [if ?c then _ else _] => destruct c; reflexivity
    end.
Qed.

Lemma showBlankAdjacentArrowMark_appends (view ln : Z) (down : bool) (w : World E) :
  exists cs, issued (snd (showBlankAdjacentArrowMark Settings view ln down w)) = issued w ++ cs.
Proof.
  unfold showBlankAdjacentArrowMark, setArrowMark, sbind, call, ask, id.
  split_ifs; simpl; eexists; rewrite <- ?app_assoc; reflexivity.
Qed.

Lemma perform_app (cs cs' : list Command) (w : World E) :
  perform (cs ++ cs') w = perform cs' (perform cs w).
Proof. unfold perform. apply fold_left_app. Qed.

Lemma issued_after (cs : list Command) : forall w : World E,
  issued (perform cs w) = issued w ++ cs.
Proof.
  induction cs as [| c cs IH]; intros w.
  - simpl. now rewrite app_nil_r.
  - change (perform (c :: cs) w) with (perform cs (snd (call c w))).
    rewrite IH. simpl. now rewrite <- app_assoc.
Qed.

(** Getting to the destination [(view, ln)] of the re-issued downward
    search: the view gets the focus in find-unique mode with the caret
    followed, the line is scrolled into view when it is not visible;
    then, when the caret is followed and not on that line, the caret is
    put on the start (or the end) of the line and the view is answered
    with line -1; else the destination is answered. *)
Lemma landOn_first (findUnique : bool) (view ln : Z) (w : World E) :
  let focus := if findUnique && FollowingCaret Settings then [SetFocus view] else [] in
  let e1 := editor (perform focus w) in
  let scroll :=
    negb (isLineVisible e1 view ln)
    || (negb (isLineMarked e1 view ln MARKER_MASK_LINE)
        && isAdjacentAnnotation e1 view ln true
        && negb (isVisibleAdjacentAnnotation e1 view ln true)) in
  let w2 := perform (focus ++ (if scroll then [centerAt view ln] else [])) w in
  let e2 := editor w2 in
  let pos :=
    if isLineAnnotated e2 view ln && isLineWrapped e2 view ln
       && negb (isLineMarked e2 view ln MARKER_MASK_LINE)
    then getLineEnd e2 view ln
    else getLineStart e2 view ln in
  landOn Settings findUnique view ln true true false true w =
  if FollowingCaret Settings && negb (ln =? getCurrentLine e2 view)
  then ((view, -1), perform [SCI_SETEMPTYSELECTION view pos] w2)
  else ((view, ln), w2).
Proof.
  cbv zeta. rewrite perform_app.
  unfold landOn, perform, sbind, call, ask, sret, id.
  cbv beta iota zeta delta [fold_left fst snd editor issued negb andb orb].
  split_ifs; reflexivity.
Qed.

(** The search [jumpToFirstChange (true, true)] re-issues. *)
Lemma jumpToNextChange_first (w : World E) (cmpPair : ComparedPair) :
  currentCompare compareList (editor w) = Some cmpPair ->
  jumpToNextChange Settings compareList 0 0 true true true w =
  match nextChange (editor w) (findUniqueMode (options cmpPair))
                   (getCurrentViewId (editor w)) 0 0 true with
  | Some (view, ln) =>
      landOn Settings (findUniqueMode (options cmpPair)) view ln true true false true w
  | None => ((-1, -1), w)
  end.
Proof.
  intros Hpair. unfold jumpToNextChange, sbind, ask, id. cbv zeta. rewrite Hpair.
  replace (negb (findUniqueMode (options cmpPair)) && negb true) with false
    by (destruct (findUniqueMode (options cmpPair)); reflexivity).
  cbv beta iota delta [andb].
  destruct (nextChange (editor w) (findUniqueMode (options cmpPair))
                       (getCurrentViewId (editor w)) 0 0 true) as [[view ln] |];
    reflexivity.
Qed.


End WrapFacts.



(** The search from line 0 does not count a difference on line 0
    itself: on the ten-line document with differences on lines 0 and 5
    of both views and nothing below the screen edge, the first
    difference is on line 0 of the main view, but the search that
    [jumpToFirstChange] issues finds nothing, and the wrap returns no
    location. *)
Lemma jumpToFirstChange_line_0 :
  let w := mkWorld topDiffHost [] in
  fst (jumpToChange_search freeCaret [plainPair] true w) = (-1, -1) /\
  firstDifference topDiffHost false MAIN_VIEW = Some (MAIN_VIEW, 0) /\
  fst (jumpToFirstChange freeCaret [plainPair] true true w) = (-1, -1) /\
  fst (jumpToChange freeCaret [plainPair] true true w) = (-1, -1).
Proof.
  vm_compute. repeat split; reflexivity.
Qed.

(** ** Text modifications *)

Lemma find_index_replace {T} (f : T -> bool) (l : list T) : forall (i : nat) (x y : T),
  nth_error l i = Some x -> f y = f x ->
  find_index f (replace_nth i y l) = find_index f l.
Proof.
  induction l as [| z l IH]; intros [| i] x y Hx Hf; simpl in *; try discriminate.
  - injection Hx as ->. now rewrite Hf.
  - now rewrite (IH i x y Hx Hf).
Qed.

Lemma remove_replace {T} (l : list T) : forall (i : nat) (y : T),
  remove_nth i (replace_nth i y l) = remove_nth i l.
Proof.
  induction l as [| z l IH]; intros [| i] y; simpl; try reflexivity.
  now rewrite IH.
Qed.

Lemma nth_error_replace {T} (l : list T) : forall (i : nat) (x y : T),
  nth_error l i = Some x -> nth_error (replace_nth i y l) i = Some y.
Proof.
  induction l as [| z l IH]; intros [| i] x y Hx; simpl in *; try discriminate.
  - reflexivity.
  - eapply IH; eassumption.
Qed.

Lemma In_replace {T} (l : list T) : forall (i : nat) (y q : T),
  In q (replace_nth i y l) -> q = y \/ In q l.
Proof.
  induction l as [| z l IH]; intros [| i] y q Hq; simpl in *; try tauto.
  - destruct Hq as [<- | Hq]; [left; reflexivity | right; right; exact Hq].
  - destruct Hq as [<- | Hq]; [right; left; reflexivity |].
    destruct (IH i y q Hq) as [-> | Hin]; [left; reflexivity | right; right; exact Hin].
Qed.

Lemma In_remove {T} (l : list T) : forall (i : nat) (q : T),
  In q (remove_nth i l) -> In q l.
Proof.
  induction l as [| z l IH]; intros [| i] q Hq; simpl in *; try tauto.
  destruct Hq as [<- | Hq]; [left; reflexivity | right; eapply IH; eassumption].
Qed.

Section HandlerFacts.

Context {E : Type} `{Host E}.
Variable Settings : UserSettings.

Lemma onBufferActivated_facts (buff : Z) (g : Globals) (w : World E) :
  compareList (fst (onBufferActivated buff g w)) = compareList g /\
  delayedUpdate (fst (onBufferActivated buff g w)) = None /\
  delayedAlignment (fst (onBufferActivated buff g w)) = None.
Proof.
  unfold onBufferActivated. simpl.
  destruct (getCompare (compareList g) buff); repeat split.
Qed.

Lemma clearComparePair_facts (buff : Z) (g : Globals) (w : World E) :
  compareList (fst (clearComparePair buff g w)) =
    match getCompare (compareList g) buff with
    | Some cmpPair => remove_nth cmpPair (compareList g)
    | None => compareList g
    end /\
  (delayedUpdate g = None -> delayedUpdate (fst (clearComparePair buff g w)) = None) /\
  (delayedAlignment g = None -> delayedAlignment (fst (clearComparePair buff g w)) = None).
Proof.
  unfold clearComparePair.
  destruct (getCompare (compareList g) buff) as [cmpPair |]; [| repeat split; auto].
  unfold sbind, call, ask, id. simpl.
  match goal with
  | |- context [onBufferActivated ?b ?g' ?w'] =>
      destruct (onBufferActivated_facts b g' w') as (Hl & Hu & Ha)
  end.
  rewrite Hl, Hu, Ha. repeat split.
Qed.

Lemma markDirty_keeps (notifyCode : SCNotification) (view startLine : Z) (undo : shared_ptr)
      (reverting : bool) (p : ComparedPair) :
  let p' := fst (markDirty Settings notifyCode view startLine undo reverting p) in
  file0 p' = file0 p /\ file1 p' = file1 p /\ options p' = options p /\
  summary p' = summary p /\ inEqualizeMode p' = inEqualizeMode p /\
  autoUpdateDelay p' = autoUpdateDelay p.
Proof.
  unfold markDirty. split_ifs; simpl; repeat split.
Qed.

(** Where the text modification block leaves the pair: cleared when the
    selection collapses, else with its re-compare delay set when the
    comparison is recomputed on change. *)
Lemma onSciModified_text_collapse (notifyCode : SCNotification) (view : Z) (cmpPair : nat)
      (undo : shared_ptr) (selectionsAdjusted : bool) (g : Globals) (w : World E)
      (p : ComparedPair) :
  textModified notifyCode = true ->
  nth_error (compareList g) cmpPair = Some p ->
  collapses notifyCode view (SCI_LINEFROMPOSITION (editor w) view (position notifyCode))
            p undo selectionsAdjusted = true ->
  exists g1 p1,
    onSciModified_text Settings notifyCode view cmpPair undo selectionsAdjusted g w =
      clearComparePair (getCurrentBuffId (editor w)) (commit g1 cmpPair p1) w /\
    compareList g1 = compareList g /\
    delayedUpdate g1 = None /\ delayedAlignment g1 = None /\
    file0 p1 = file0 p /\ file1 p1 = file1 p /\ summary p1 = summary p.
Proof.
  unfold textModified, collapses. intros Hmod Hp Hcol.
  unfold onSciModified_text. rewrite Hp, Hmod. unfold sbind at 1. unfold ask, id. simpl.
  match goal with
  | |- context [markDirty Settings notifyCode view ?s undo ?r p] =>
      pose proof (markDirty_keeps notifyCode view s undo r p) as Hkeep;
      destruct (markDirty Settings notifyCode view s undo r p) as [p1 updateStatus]
  end.
  simpl in Hkeep. destruct Hkeep as (Hf0 & Hf1 & Hopt & Hsum & Heqz & Hdelay).
  assert (Hadj : adjustSelection p1 view
                   (SCI_LINEFROMPOSITION (editor w) view (position notifyCode))
                   (linesAdded notifyCode) =
                 adjustSelection p view
                   (SCI_LINEFROMPOSITION (editor w) view (position notifyCode))
                   (linesAdded notifyCode))
    by (unfold adjustSelection; rewrite Hopt, Heqz; reflexivity).
  rewrite Hadj. unfold adjustsSelection. rewrite Hopt.
  apply andb_true_iff in Hcol. destruct Hcol as (Hcol & Hlt).
  apply andb_true_iff in Hcol. destruct Hcol as (Hadjusts & Hzero).
  rewrite Hadjusts.
  destruct (adjustSelection p view
              (SCI_LINEFROMPOSITION (editor w) view (position notifyCode))
              (linesAdded notifyCode)) as [sel touched].
  simpl in Hlt. simpl. rewrite Heqz, Hzero, Hlt. simpl.
  eexists _, _. split; [reflexivity |].
  simpl. repeat split; assumption.
Qed.

Lemma onSciModified_text_recompare (notifyCode : SCNotification) (view : Z) (cmpPair : nat)
      (undo : shared_ptr) (selectionsAdjusted : bool) (g : Globals) (w : World E)
      (p : ComparedPair) :
  RecompareOnChange Settings = true ->
  textModified notifyCode = true ->
  nth_error (compareList g) cmpPair = Some p ->
  collapses notifyCode view (SCI_LINEFROMPOSITION (editor w) view (position notifyCode))
            p undo selectionsAdjusted = false ->
  exists g1 p1,
    onSciModified_text Settings notifyCode view cmpPair undo selectionsAdjusted g w =
      (commit g1 cmpPair
              (with_autoUpdateDelay p1 (if linesAdded notifyCode =? 0 then 1000 else 500)), w) /\
    compareList g1 = compareList g /\
    delayedUpdate g1 = None /\ delayedAlignment g1 = None /\
    file0 p1 = file0 p /\ file1 p1 = file1 p /\ summary p1 = summary p.
Proof.
  unfold textModified, collapses. intros Hre Hmod Hp Hcol.
  unfold onSciModified_text. rewrite Hp, Hmod. unfold sbind at 1. unfold ask, id. simpl.
  match goal with
  | |- context [markDirty Settings notifyCode view ?s undo ?r p] =>
      pose proof (markDirty_keeps notifyCode view s undo r p) as Hkeep;
      destruct (markDirty Settings notifyCode view s undo r p) as [p1 updateStatus]
  end.
  simpl in Hkeep. destruct Hkeep as (Hf0 & Hf1 & Hopt & Hsum & Heqz & Hdelay).
  assert (Hadj : adjustSelection p1 view
                   (SCI_LINEFROMPOSITION (editor w) view (position notifyCode))
                   (linesAdded notifyCode) =
                 adjustSelection p view
                   (SCI_LINEFROMPOSITION (editor w) view (position notifyCode))
                   (linesAdded notifyCode))
    by (unfold adjustSelection; rewrite Hopt, Heqz; reflexivity).
  rewrite Hadj. unfold adjustsSelection. rewrite Hopt.
  destruct (adjustSelection p view
              (SCI_LINEFROMPOSITION (editor w) view (position notifyCode))
              (linesAdded notifyCode)) as [sel touched].
  simpl in Hcol. rewrite Hre.
  match goal with
  | |- context [if ?a && (inEqualizeMode ?q =? 0) && ?c then _ else _] =>
      assert (Hno : a && (inEqualizeMode q =? 0) && c = false)
  end.
  { destruct (selectionCompare (options p) && negb (linesAdded notifyCode =? 0)
              && isNull undo && negb selectionsAdjusted) eqn:Hadjusts.
    - simpl. simpl in Hcol. rewrite Heqz. exact Hcol.
    - reflexivity. }
  rewrite Hno. unfold sret.
  destruct (selectionCompare (options p) && negb (linesAdded notifyCode =? 0)
            && isNull undo && negb selectionsAdjusted);
    destruct (linesAdded notifyCode =? 0);
    (eexists _, _; split; [reflexivity | simpl; repeat split; assumption]).
Qed.

Lemma onBufferActivated_issued (buff : Z) (g : Globals) (w : World E) :
  exists rest, issued (snd (onBufferActivated buff g w)) = issued w ++ rest.
Proof.
  unfold onBufferActivated. cbv zeta.
  match goal with
  | |- context [match ?x with _ => _ end] => destruct x
  end.
  - exists []. unfold sret. simpl. now rewrite app_nil_r.
  - unfold sbind, call, ask, sret, id. simpl. eexists. rewrite <- !app_assoc. reflexivity.
Qed.

Lemma getCompare_commit (l : list ComparedPair) (cmpPair : nat) (p p1 : ComparedPair)
      (buff : Z) :
  nth_error l cmpPair = Some p -> file0 p1 = file0 p -> file1 p1 = file1 p ->
  getCompare (replace_nth cmpPair p1 l) buff = getCompare l buff.
Proof.
  intros Hp Hf0 Hf1. unfold getCompare. apply (find_index_replace _ l cmpPair p p1 Hp).
  now rewrite Hf0, Hf1.
Qed.

(** C7, as the code has it.  With the comparison recomputed on change,
    every text modification on a compared view cancels the pending
    delayed alignment and the pending delayed re-compare.  Unless the
    modification makes the tracked selection of a selection compare
    collapse (the pair is cleared then), it asks nothing of the host and
    sets the re-compare delay of the pair to 1000 ms when no line was
    added or removed and to 500 ms otherwise; the delayed alignment that
    the next paint posts then posts the one delayed re-compare, with
    that delay, when it runs for the pair, whatever it would do for a
    pair without a delay. *)
Theorem text_modification_schedules_recompare
        (notifyCode : SCNotification) (view : Z) (cmpPair : nat)
        (undo : shared_ptr) (selectionsAdjusted : bool) (g : Globals) (w : World E)
        (p : ComparedPair) :
  RecompareOnChange Settings = true ->
  textModified notifyCode = true ->
  nth_error (compareList g) cmpPair = Some p ->
  let startLine := SCI_LINEFROMPOSITION (editor w) view (position notifyCode) in
  let r := onSciModified_text Settings notifyCode view cmpPair undo selectionsAdjusted g w in
  let delay := if linesAdded notifyCode =? 0 then 1000 else 500 in
  delayedUpdate (fst r) = None /\
  delayedAlignment (fst r) = None /\
  (collapses notifyCode view startLine p undo selectionsAdjusted = false ->
   snd r = w /\
   length (compareList (fst r)) = length (compareList g) /\
   (exists p', nth_error (compareList (fst r)) cmpPair = Some p' /\
               autoUpdateDelay p' = delay /\
               file0 p' = file0 p /\ file1 p' = file1 p /\ summary p' = summary p) /\
   (forall (alignViews : nat -> Globals -> Sci E Globals) (w2 : World E),
      getCompare (compareList (fst r)) (getCurrentBuffId (editor w2)) = Some cmpPair ->
      delayedUpdate (fst (DelayedAlign_call alignViews (onSciPaint (fst r)) w2)) = Some delay)).
Proof.
  intros Hre Hmod Hp startLine r delay.
  destruct (collapses notifyCode view startLine p undo selectionsAdjusted) eqn:Hcol.
  - destruct (onSciModified_text_collapse notifyCode view cmpPair undo selectionsAdjusted
                                          g w p Hmod Hp Hcol)
      as (g1 & p1 & Hrun & Hlist & Hu & Ha & _).
    unfold r. rewrite Hrun.
    destruct (clearComparePair_facts (getCurrentBuffId (editor w)) (commit g1 cmpPair p1) w)
      as (_ & Hu' & Ha').
    split; [apply Hu'; exact Hu | split; [apply Ha'; exact Ha | discriminate]].
  - destruct (onSciModified_text_recompare notifyCode view cmpPair undo selectionsAdjusted
                                            g w p Hre Hmod Hp Hcol)
      as (g1 & p1 & Hrun & Hlist & Hu & Ha & Hf0 & Hf1 & Hsum).
    unfold r. rewrite Hrun. simpl. fold delay.
    split; [exact Hu | split; [exact Ha |]]. intros _.
    assert (Hnth : nth_error (replace_nth cmpPair (with_autoUpdateDelay p1 delay)
                                          (compareList g1)) cmpPair =
                   Some (with_autoUpdateDelay p1 delay))
      by (rewrite Hlist; eapply nth_error_replace; exact Hp).
    split; [reflexivity |]. split; [rewrite length_replace_nth, Hlist; reflexivity |].
    split.
    + exists (with_autoUpdateDelay p1 delay). simpl. repeat split; assumption.
    + intros alignViews w2 Hcur. unfold DelayedAlign_call, sbind, ask, id. simpl.
      rewrite Hcur, Hnth. simpl.
      assert (Hd : (delay =? 0) = false) by (unfold delay; destruct (linesAdded notifyCode =? 0); reflexivity).
      rewrite Hd. reflexivity.
Qed.

(** "Set compare dirty flag if needed" for an edit that changes the
    number of lines of a selection compare outside equalize mode. *)
Lemma markDirty_selection (notifyCode : SCNotification) (view startLine : Z)
      (notRev : bool) (p : ComparedPair) :
  selectionCompare (options p) = true ->
  (linesAdded notifyCode =? 0) = false ->
  (inEqualizeMode p =? 0) = true ->
  markDirty Settings notifyCode view startLine nullptr notRev p =
  (let marks := dirtiedBy Settings notifyCode view startLine notRev p in
   (mkCompared (file0 p) (file1 p) (options p) (summary p)
               (compareDirty p || marks) (manuallyChanged p || marks)
               (inEqualizeMode p) (autoUpdateDelay p), marks)).
Proof.
  intros Hsel Hlines Hzero.
  destruct p as [f0 f1 [sc fu sels] sm dirty manual eqz delay].
  cbn [options selectionCompare inEqualizeMode] in Hsel, Hzero. subst sc.
  unfold markDirty, dirtiedBy, touchesSelection, inSelection, setCompareDirty.
  cbn [compareDirty manuallyChanged file0 file1 options summary inEqualizeMode
       autoUpdateDelay selectionCompare selections findUniqueMode isNull].
  rewrite Hlines, Hzero, !Z.geb_leb.
  destruct (RecompareOnChange Settings), notRev, dirty, manual;
    cbn [negb andb orb]; try reflexivity;
    destruct ((fst (sels view) <=? startLine) && (startLine <=? snd (sels view)));
    cbn [negb andb orb fst snd compareDirty manuallyChanged file0 file1 options summary
         inEqualizeMode autoUpdateDelay selectionCompare selections findUniqueMode];
    rewrite ?Hzero, ?Z.geb_leb; try reflexivity;
    destruct (flagged (modificationType notifyCode) SC_MOD_DELETETEXT);
    cbn [negb andb orb]; try reflexivity;
    destruct ((fst (sels view) <=? startLine + (linesAdded notifyCode + 1))
              && (startLine + (linesAdded notifyCode + 1) <=? snd (sels view)));
    reflexivity.
Qed.

(** C9, as the code has it.  When the adjustment of the tracked
    selection by a text modification, outside equalize mode, leaves the
    selection of the view without a line (its end before its start), the
    handler stops before it adjusts any alignment table: every table
    left in the compare list is a table that was there.  Both delayed
    timers are cancelled.  The collapse does not mark the session
    dirty: the pair has the dirty and manually-changed flags it had,
    set only if the edit is one that marks a selection compare dirty
    ([dirtiedBy]), and the collapsed selection.  The handler then
    clears the compare that holds the current buffer: when that is the
    pair of the modified view, its files are restored first and the
    pair is erased from the compare list; when another pair holds the
    current buffer, that one is erased; when no pair holds it, nothing
    is asked of the host and the pair stays in the list as just
    described. *)
Theorem selection_collapse_clears_pair
        (notifyCode : SCNotification) (view : Z) (cmpPair : nat)
        (undo : shared_ptr) (selectionsAdjusted : bool) (g : Globals) (w : World E)
        (p : ComparedPair) :
  textModified notifyCode = true ->
  nth_error (compareList g) cmpPair = Some p ->
  collapses notifyCode view (SCI_LINEFROMPOSITION (editor w) view (position notifyCode))
            p undo selectionsAdjusted = true ->
  let startLine := SCI_LINEFROMPOSITION (editor w) view (position notifyCode) in
  let current := getCurrentBuffId (editor w) in
  let r := onSciModified_text Settings notifyCode view cmpPair undo selectionsAdjusted g w in
  let sel := fst (adjustSelection p view startLine (linesAdded notifyCode)) in
  let marks := dirtiedBy Settings notifyCode view startLine (notReverting g) p in
  let left :=
    mkCompared (file0 p) (file1 p)
               (mkOptions (selectionCompare (options p)) (findUniqueMode (options p))
                          (fun v => if v =? view then sel else selections (options p) v))
               (summary p) (compareDirty p || marks) (manuallyChanged p || marks)
               (inEqualizeMode p) (autoUpdateDelay p) in
  incl (alignmentTables (fst r)) (alignmentTables g) /\
  delayedAlignment (fst r) = None /\ delayedUpdate (fst r) = None /\
  snd sel < fst sel /\
  compareList (fst r) =
    match getCompare (compareList g) current with
    | Some held => remove_nth held (replace_nth cmpPair left (compareList g))
    | None => replace_nth cmpPair left (compareList g)
    end /\
  (getCompare (compareList g) current = Some cmpPair ->
   compareList (fst r) = remove_nth cmpPair (compareList g) /\
   exists rest, issued (snd r) = issued w ++ restoreFiles current :: rest) /\
  (getCompare (compareList g) current = None -> snd r = w).
Proof.
  intros Hmod Hp Hcol startLine current r sel marks left.
  pose proof Hcol as Hcol'. unfold collapses in Hcol'. fold startLine in Hcol'.
  apply andb_true_iff in Hcol'. destruct Hcol' as (Hcol' & Hlt).
  apply andb_true_iff in Hcol'. destruct Hcol' as (Hadjusts & Hzero).
  pose proof Hadjusts as Hparts.
  apply andb_true_iff in Hparts. destruct Hparts as (Hparts & _).
  apply andb_true_iff in Hparts. destruct Hparts as (Hparts & Hnull).
  apply andb_true_iff in Hparts. destruct Hparts as (Hsel & Hlines).
  apply negb_true_iff in Hlines. destruct undo as [| address]; [| discriminate].
  set (g1 := mkGlobals (compareList g) (DelayedWork.cancel (delayedAlignment g))
                       (delayedActivation g) (delayedActivation_buffId g)
                       (DelayedWork.cancel (delayedUpdate g))
                       (currentlyActiveBuffID g) (notReverting g)
                       (selectionAutoRecompare g)).
  assert (Hrun : r = clearComparePair current (commit g1 cmpPair left) w).
  { unfold r, onSciModified_text. unfold textModified in Hmod. rewrite Hp, Hmod.
    unfold sbind at 1. unfold ask, id. cbv beta iota zeta.
    cbn [notReverting]. rewrite Hlines. fold startLine.
    rewrite (markDirty_selection notifyCode view startLine (notReverting g) p
                                 Hsel Hlines Hzero).
    cbv zeta. fold marks. unfold adjustsSelection, adjustSelection.
    cbn [options inEqualizeMode selectionCompare selections].
    fold (adjustSelection p view startLine (linesAdded notifyCode)).
    rewrite Hadjusts.
    destruct (adjustSelection p view startLine (linesAdded notifyCode))
      as [sel' touched] eqn:Hadj.
    cbn [fst snd] in Hlt. unfold with_selection.
    cbn [options inEqualizeMode selectionCompare findUniqueMode selections file0 file1
         summary compareDirty manuallyChanged autoUpdateDelay].
    rewrite Hzero, Hlt. cbn [andb]. reflexivity. }
  pose proof (clearComparePair_facts current (commit g1 cmpPair left) w)
    as (Hcl & Hu & Ha).
  rewrite <- Hrun in Hcl, Hu, Ha. cbn [commit compareList g1] in Hcl.
  rewrite (getCompare_commit _ _ p left _ Hp eq_refl eq_refl) in Hcl.
  split; [| split; [| split; [| split; [| split; [| split]]]]].
  - unfold alignmentTables. rewrite Hcl. intros t Ht.
    apply in_map_iff in Ht. destruct Ht as (q & <- & Hq).
    assert (Hq' : In q (replace_nth cmpPair left (compareList g))).
    { destruct (getCompare (compareList g) current);
        [eapply In_remove; exact Hq | exact Hq]. }
    apply In_replace in Hq'. destruct Hq' as [-> | Hin].
    + apply in_map_iff. exists p. split; [reflexivity |].
      eapply nth_error_In; exact Hp.
    + apply in_map_iff. exists q. split; [reflexivity | exact Hin].
  - apply Ha. reflexivity.
  - apply Hu. reflexivity.
  - apply Z.ltb_lt. exact Hlt.
  - exact Hcl.
  - intros Hcur. rewrite Hcur in Hcl. rewrite remove_replace in Hcl.
    split; [exact Hcl |].
    rewrite Hrun. unfold clearComparePair. cbn [commit compareList g1].
    rewrite (getCompare_commit _ _ p left _ Hp eq_refl eq_refl), Hcur.
    unfold sbind, call, ask, id. simpl.
    match goal with
    | |- context [onBufferActivated ?b ?g' ?w'] =>
        destruct (onBufferActivated_issued b g' w') as (rest & Hrest)
    end.
    exists rest. rewrite Hrest. simpl. rewrite <- app_assoc. reflexivity.
  - intros Hnone. rewrite Hrun. unfold clearComparePair. cbn [commit compareList g1].
    rewrite (getCompare_commit _ _ p left _ Hp eq_refl eq_refl), Hnone. reflexivity.
Qed.

End HandlerFacts.

(** C7 as stated fails: with the comparison recomputed on change, the
    deletion of the five lines from line 3 on makes the selection 5-6 of
    the selection compare collapse; the pair is cleared and no re-compare
    delay is set. *)
Lemma text_modification_clears_pair_example :
  let r := onSciModified_text autoRecompare fiveLinesDeleted MAIN_VIEW 0 nullptr false
                              (oneCompare selectionPair) (mkWorld oneDiffHost []) in
  compareList (fst r) = [] /\
  ~ (exists p', In p' (compareList (fst r)) /\ autoUpdateDelay p' = 500).
Proof.
  vm_compute. split; [reflexivity |]. intros (p' & [] & _).
Qed.

(** A line edited in place: the delay is set to 1000 ms and the
    delayed alignment posts the delayed re-compare with it. *)
Lemma text_modification_schedules_recompare_witness :
  let r := onSciModified_text autoRecompare oneLineEdited MAIN_VIEW 0 nullptr false
                              (oneCompare plainPair) (mkWorld oneDiffHost []) in
  delayedUpdate (fst r) = None /\
  (exists p', nth_error (compareList (fst r)) 0 = Some p' /\ autoUpdateDelay p' = 1000) /\
  delayedUpdate (fst (DelayedAlign_call (fun _ g => sret g) (onSciPaint (fst r))
                                        (mkWorld oneDiffHost []))) = Some 1000.
Proof.
  intros r.
  destruct (text_modification_schedules_recompare
              autoRecompare oneLineEdited MAIN_VIEW 0 nullptr false
              (oneCompare plainPair) (mkWorld oneDiffHost []) plainPair
              eq_refl eq_refl eq_refl)
    as (Hu & _ & Hrest).
  destruct (Hrest eq_refl) as (_ & _ & (p' & Hnth & Hdelay & _) & Hpost).
  split; [exact Hu | split].
  - exists p'. split; [exact Hnth | exact Hdelay].
  - apply Hpost. reflexivity.
Defined.

(** C9 as stated fails: the same deletion with the comparison not
    recomputed on change makes the selection 5-6 collapse to (3, 2)
    without touching a line of it.  With a file of the pair current,
    the pair is cleared and no session is left that could be dirty;
    with a buffer outside every compare current, the pair stays in the
    list as it was but for the collapsed selection: not dirty, not
    manually changed, its table untouched, nothing scheduled and
    nothing asked of the host. *)
Lemma selection_collapse_not_dirty_example :
  let r := onSciModified_text freeCaret fiveLinesDeleted MAIN_VIEW 0 nullptr false
                              (oneCompare selectionPair) (mkWorld oneDiffHost []) in
  let r' := onSciModified_text freeCaret fiveLinesDeleted MAIN_VIEW 0 nullptr false
                               (oneCompare selectionPair) (mkWorld otherBufferHost []) in
  collapses fiveLinesDeleted MAIN_VIEW 3 selectionPair nullptr false = true /\
  (compareList (fst r) = [] /\
   ~ (exists q, In q (compareList (fst r)) /\ compareDirty q = true) /\
   issued (snd r) = [restoreFiles 1; setNormalMode; setNormalView MAIN_VIEW;
                     resetCompareView SUB_VIEW]) /\
  (exists q, compareList (fst r') = [q] /\
             compareDirty q = false /\ manuallyChanged q = false /\
             selections (options q) MAIN_VIEW = (3, 2) /\
             alignmentInfo (summary q) = fourEntries /\
             autoUpdateDelay q = 0) /\
  delayedUpdate (fst r') = None /\
  issued (snd r') = [].
Proof.
  split; [vm_compute; reflexivity |]. split; [| split; [| split]].
  - vm_compute. repeat split. intros (q & [] & _).
  - eexists. split; [vm_compute; reflexivity |]. vm_compute. repeat split.
  - vm_compute. reflexivity.
  - vm_compute. reflexivity.
Qed.

(** The deletion that makes the selection collapse, with a file of the
    pair current: the pair is cleared, after its files were restored. *)
Lemma selection_collapse_clears_pair_witness :
  let r := onSciModified_text freeCaret fiveLinesDeleted MAIN_VIEW 0 nullptr false
                              (oneCompare selectionPair) (mkWorld oneDiffHost []) in
  incl (alignmentTables (fst r)) [fourEntries] /\ compareList (fst r) = [] /\
  exists rest, issued (snd r) = restoreFiles 1 :: rest.
Proof.
  intros r.
  pose proof (@selection_collapse_clears_pair SimpleHost simpleHost
                freeCaret fiveLinesDeleted MAIN_VIEW 0 nullptr false
                (oneCompare selectionPair) (mkWorld oneDiffHost []) selectionPair
                eq_refl eq_refl ltac:(vm_compute; reflexivity)) as Hclear.
  cbv zeta in Hclear. destruct Hclear as (Htables & _ & _ & _ & _ & Hcur & _).
  split; [exact Htables |]. exact (Hcur eq_refl).
Defined.

(** * Further properties *)

(** ** The alignment table seen from the views *)

Lemma within_at {T} (v : list T) (n i : Z) : 0 <= i < n -> within n (at_ v i).
Proof. intros Hi. unfold within, at_. simpl. constructor; [exact Hi | constructor]. Qed.

Lemma member_of_other (view : Z) :
  member_of (getOtherViewId view) = if view =? MAIN_VIEW then member_sub else member_main.
Proof.
  unfold member_of, getOtherViewId. destruct (view =? MAIN_VIEW); reflexivity.
Qed.

(** What [getAlignmentLine] does once the search has answered [idx]. *)
Lemma getAlignmentLine_after (alignInfo : AlignmentInfo_t) (view ln : Z) (P : Z -> Prop) :
  0 <= ln ->
  yields (getAlignmentIdxAfter (member_of view) alignInfo ln)
         (fun idx => 0 <= idx <= size alignInfo /\ P idx) ->
  yields (getAlignmentLine alignInfo view ln)
         (fun r => exists idx, P idx /\
            match lookup alignInfo idx with
            | Some a => if viewLine (member_of view) a =? ln then r = otherLine view a else r = -1
            | None => r = -1
            end).
Proof.
  intros Hln Hsearch. unfold getAlignmentLine.
  destruct (Z.ltb_spec ln 0) as [Hneg | _]; [lia |].
  change (if view =? MAIN_VIEW then member_main else member_sub) with (member_of view).
  eapply yields_bind; [exact Hsearch |]. intros idx (Hidx & HP). cbv beta.
  destruct (Z.geb_spec idx (size alignInfo)) as [Hout | Hin].
  - unfold bind, ret. simpl. eexists. split; [reflexivity |].
    exists idx. split; [exact HP |].
    destruct (lookup alignInfo idx) as [a |] eqn:Ha; [| reflexivity].
    apply lookup_Some_range in Ha. lia.
  - destruct (lookup_in_range alignInfo idx ltac:(lia)) as (a & Ha).
    rewrite (bind_at _ _ _ _ Ha). unfold bind, ret. simpl.
    destruct (viewLine (member_of view) a =? ln) eqn:Hhit; simpl.
    + unfold at_. simpl. rewrite Ha. simpl. eexists. split; [reflexivity |].
      exists idx. split; [exact HP |]. rewrite Ha, Hhit.
      unfold otherLine. rewrite member_of_other. reflexivity.
    + eexists. split; [reflexivity |]. exists idx. split; [exact HP |].
      rewrite Ha, Hhit. reflexivity.
Qed.

(** X1. For every table, view and line, [getAlignmentLine] runs to its
    end and only indexes the table inside its bounds; for a negative
    line it answers -1 without looking at the table; and what it
    answers is -1 or the line, in the other view, of an entry of the
    table that is on the line asked for. *)
Theorem getAlignmentLine_safe (alignInfo : AlignmentInfo_t) (view ln : Z) :
  within (size alignInfo) (getAlignmentLine alignInfo view ln) /\
  (ln < 0 -> getAlignmentLine alignInfo view ln = ret (-1)) /\
  exists r,
    out (getAlignmentLine alignInfo view ln) = Done r /\
    (r = -1 \/
     exists a, In a alignInfo /\ viewLine (member_of view) a = ln /\ r = otherLine view a).
Proof.
  destruct (search_ok (member_of view) alignInfo ln) as (Hw & Hy).
  split; [| split].
  - unfold getAlignmentLine. destruct (ln <? 0); [apply within_ret |].
    change (if view =? MAIN_VIEW then member_main else member_sub) with (member_of view).
    apply within_bind; [exact Hw |]. intros idx Hidx.
    destruct Hy as (idx' & Hidx' & r0 & Hr0 & Hr & _). rewrite Hidx in Hidx'.
    injection Hidx' as <-.
    destruct (Z.geb_spec idx (size alignInfo)) as [Hout | Hin].
    + unfold bind, ret. simpl. constructor.
    + apply within_bind.
      * apply within_bind; [apply within_at; lia | intros; apply within_ret].
      * intros miss _. destruct miss; [apply within_ret |].
        apply within_bind; [apply within_at; lia | intros; apply within_ret].
  - intros Hneg. unfold getAlignmentLine.
    destruct (Z.ltb_spec ln 0); [reflexivity | lia].
  - destruct (Z.lt_ge_cases ln 0) as [Hneg | Hpos].
    + exists (-1). unfold getAlignmentLine.
      destruct (Z.ltb_spec ln 0); [| lia]. split; [reflexivity | left; reflexivity].
    + destruct (getAlignmentLine_after alignInfo view ln (fun _ => True) Hpos) as (r & Hr & idx & _ & Hres).
      * eapply yields_weaken; [exact Hy |]. intros idx (r0 & Hr0 & Hle & _). split; [lia | exact I].
      * exists r. split; [exact Hr |].
        destruct (lookup alignInfo idx) as [a |] eqn:Ha; [| left; exact Hres].
        destruct (Z.eqb_spec (viewLine (member_of view) a) ln) as [Heq | Hne];
          [| left; exact Hres].
        right. exists a. split; [apply In_lookup; eauto | split; assumption].
Qed.

Lemma find_at_nth {T} (f : T -> bool) (v : list T) : forall (n : nat) (a : T),
  nth_error v n = Some a -> f a = true ->
  (forall k b, (k < n)%nat -> nth_error v k = Some b -> f b = false) ->
  find f v = Some a.
Proof.
  induction v as [| x v IH]; intros [| n] a Ha Hf Hbefore; simpl in *; try discriminate.
  - injection Ha as ->. now rewrite Hf.
  - rewrite (Hbefore 0%nat x ltac:(lia) eq_refl).
    apply (IH n a Ha Hf). intros k b Hk Hb. apply (Hbefore (S k) b); [lia | exact Hb].
Qed.

Lemma find_at {T} (f : T -> bool) (v : list T) (idx : Z) (a : T) :
  lookup v idx = Some a -> f a = true ->
  (forall k b, 0 <= k < idx -> lookup v k = Some b -> f b = false) ->
  find f v = Some a.
Proof.
  intros Ha Hf Hbefore. pose proof (lookup_Some_range _ _ _ Ha) as Hidx.
  unfold lookup in Ha. destruct (Z.ltb_spec idx 0); [lia |].
  apply (find_at_nth f v (Z.to_nat idx) a Ha Hf).
  intros k b Hk Hb. apply (Hbefore (Z.of_nat k) b); [lia |].
  unfold lookup. destruct (Z.ltb_spec (Z.of_nat k) 0); [lia |]. now rewrite Nat2Z.id.
Qed.

Lemma find_nowhere {T} (f : T -> bool) (v : list T) :
  (forall k b, lookup v k = Some b -> f b = false) -> find f v = None.
Proof.
  intros Hall. destruct (find f v) as [b |] eqn:Hfind; [| reflexivity].
  apply find_some in Hfind. destruct Hfind as (Hin & Hb).
  apply In_lookup in Hin. destruct Hin as (k & Hk).
  rewrite (Hall k b Hk) in Hb. discriminate.
Qed.

(** On a sorted table the entry the search ends on decides whether
    the line is in the table. *)
Lemma firstOnLine_sorted (alignInfo : AlignmentInfo_t) (view ln idx : Z) :
  sortedBy (member_of view) alignInfo ->
  firstAtOrAfter (member_of view) alignInfo ln idx ->
  firstOnLine alignInfo view ln =
  match lookup alignInfo idx with
  | Some a => if viewLine (member_of view) a =? ln then Some a else None
  | None => None
  end.
Proof.
  intros Hsorted (Hidx & Hbefore & Hthere). unfold firstOnLine.
  destruct (lookup alignInfo idx) as [a |] eqn:Ha.
  - destruct (Z.eqb_spec (viewLine (member_of view) a) ln) as [Heq | Hne].
    + apply (find_at _ alignInfo idx a Ha); [now apply Z.eqb_eq |].
      intros k b Hk Hb. apply Z.eqb_neq. pose proof (Hbefore k b Hk Hb). lia.
    + apply find_nowhere. intros k b Hb. apply Z.eqb_neq.
      pose proof (Hthere a eq_refl) as Hge.
      destruct (Z.lt_ge_cases k idx) as [Hlt | Hle].
      * pose proof (lookup_Some_range _ _ _ Hb).
        pose proof (Hbefore k b ltac:(lia) Hb). lia.
      * pose proof (sorted_lookup_le _ alignInfo idx k a b Hsorted Hle Ha Hb). lia.
  - apply find_nowhere. intros k b Hb. apply Z.eqb_neq.
    pose proof (lookup_Some_range _ _ _ Hb) as Hk.
    destruct (Z.lt_ge_cases k idx) as [Hlt | Hle].
    + pose proof (Hbefore k b ltac:(lia) Hb). lia.
    + destruct (lookup_in_range alignInfo idx ltac:(lia)) as (x & Hx). congruence.
Qed.

(** X2. On a table sorted ascending in the lines of [view], and for a
    line that is not negative, [getAlignmentLine] answers the line, in
    the other view, of the first entry of the table that is on the line
    asked for, and -1 when no entry is on that line. *)
Theorem getAlignmentLine_sorted (alignInfo : AlignmentInfo_t) (view ln : Z) :
  Sorted Z.le (map (viewLine (member_of view)) alignInfo) ->
  0 <= ln ->
  out (getAlignmentLine alignInfo view ln) =
  Done match firstOnLine alignInfo view ln with
       | Some a => otherLine view a
       | None => -1
       end.
Proof.
  intros Hsorted Hln.
  destruct (getAlignmentLine_after alignInfo view ln
              (firstAtOrAfter (member_of view) alignInfo ln) Hln)
    as (r & Hr & idx & Hfirst & Hres).
  - eapply yields_weaken; [apply search_sorted; exact Hsorted |].
    intros idx Hfirst. split; [apply Hfirst | exact Hfirst].
  - rewrite Hr. f_equal.
    rewrite (firstOnLine_sorted alignInfo view ln idx Hsorted Hfirst).
    destruct (lookup alignInfo idx) as [a |]; [| exact Hres].
    destruct (viewLine (member_of view) a =? ln); exact Hres.
Qed.

Lemma getAlignmentLine_sorted_witness :
  Sorted Z.le (map (viewLine (member_of MAIN_VIEW)) fourEntries) /\
  out (getAlignmentLine fourEntries MAIN_VIEW 6) = Done 5 /\
  out (getAlignmentLine fourEntries MAIN_VIEW 4) = Done (-1).
Proof.
  assert (Hs : Sorted Z.le (map (viewLine (member_of MAIN_VIEW)) fourEntries))
    by (repeat constructor; vm_compute; discriminate).
  split; [exact Hs |]. split.
  - exact (getAlignmentLine_sorted fourEntries MAIN_VIEW 6 Hs ltac:(lia)).
  - exact (getAlignmentLine_sorted fourEntries MAIN_VIEW 4 Hs ltac:(lia)).
Defined.

Lemma NoDup_map_eq {T} (f : T -> Z) (l : list T) :
  NoDup (map f l) -> forall a b, In a l -> In b l -> f a = f b -> a = b.
Proof.
  induction l as [| x l IH]; intros Hnd a b Ha Hb Hf; [destruct Ha |].
  simpl in Hnd. inversion Hnd as [| y l' Hnotin Hnd']. subst.
  destruct Ha as [<- | Ha], Hb as [<- | Hb].
  - reflexivity.
  - exfalso. apply Hnotin. rewrite Hf. now apply in_map.
  - exfalso. apply Hnotin. rewrite <- Hf. now apply in_map.
  - now apply IH.
Qed.

(** X3. The way there and back: on a table sorted ascending in both
    views in which no two entries are on the same line of the other
    view, when [getAlignmentLine] answers a line [s >= 0] of the other
    view for the line [ln >= 0] of [view], it answers [ln] for the line
    [s] of the other view. *)
Theorem getAlignmentLine_back (alignInfo : AlignmentInfo_t) (view ln s : Z) :
  Sorted Z.le (map (viewLine (member_of view)) alignInfo) ->
  Sorted Z.le (map (viewLine (member_of (getOtherViewId view))) alignInfo) ->
  NoDup (map (viewLine (member_of (getOtherViewId view))) alignInfo) ->
  0 <= ln -> 0 <= s ->
  out (getAlignmentLine alignInfo view ln) = Done s ->
  out (getAlignmentLine alignInfo (getOtherViewId view) s) = Done ln.
Proof.
  intros Hsorted Hsorted' Hnodup Hln Hs Hthere.
  assert (Hfirst : forall v l,
            sortedBy (member_of v) alignInfo -> 0 <= l ->
            out (getAlignmentLine alignInfo v l) =
            Done match firstOnLine alignInfo v l with
                 | Some a => otherLine v a
                 | None => -1
                 end).
  { intros v l Hv Hl.
    destruct (getAlignmentLine_after alignInfo v l
                (firstAtOrAfter (member_of v) alignInfo l) Hl)
      as (r & Hr & idx & Hidx & Hres).
    - eapply yields_weaken; [apply search_sorted; exact Hv |].
      intros idx Hidx. split; [apply Hidx | exact Hidx].
    - rewrite Hr. f_equal. rewrite (firstOnLine_sorted alignInfo v l idx Hv Hidx).
      destruct (lookup alignInfo idx) as [a |]; [| exact Hres].
      destruct (viewLine (member_of v) a =? l); exact Hres. }
  rewrite (Hfirst view ln Hsorted Hln) in Hthere.
  rewrite (Hfirst (getOtherViewId view) s Hsorted' Hs).
  f_equal. unfold firstOnLine in *.
  destruct (find (fun a => viewLine (member_of view) a =? ln) alignInfo) as [a |] eqn:Ha;
    [| injection Hthere as <-; lia].
  injection Hthere as Hsa. apply find_some in Ha. destruct Ha as (Hin & Hline).
  apply Z.eqb_eq in Hline.
  destruct (find (fun a0 => viewLine (member_of (getOtherViewId view)) a0 =? s) alignInfo)
    as [b |] eqn:Hb.
  - apply find_some in Hb. destruct Hb as (Hinb & Hlineb). apply Z.eqb_eq in Hlineb.
    assert (b = a) as ->.
    { apply (NoDup_map_eq _ alignInfo Hnodup b a Hinb Hin).
      rewrite Hlineb, <- Hsa. reflexivity. }
    unfold otherLine. rewrite <- Hline.
    unfold member_of, getOtherViewId.
    destruct (view =? MAIN_VIEW); reflexivity.
  - exfalso. pose proof (find_none _ _ Hb a Hin) as Hnone. cbv beta in Hnone.
    apply Z.eqb_neq in Hnone. apply Hnone. exact Hsa.
Qed.

Lemma getAlignmentLine_back_witness :
  out (getAlignmentLine fourEntries MAIN_VIEW 6) = Done 5 /\
  out (getAlignmentLine fourEntries SUB_VIEW 5) = Done 6.
Proof.
  assert (Hthere : out (getAlignmentLine fourEntries MAIN_VIEW 6) = Done 5) by reflexivity.
  split; [exact Hthere |].
  apply (getAlignmentLine_back fourEntries MAIN_VIEW 6 5).
  - repeat constructor; vm_compute; discriminate.
  - repeat constructor; vm_compute; discriminate.
  - repeat constructor; simpl; intuition discriminate.
  - lia.
  - lia.
  - exact Hthere.
Defined.

(** ** Shifting any table *)

Lemma deref_addLine_other (view offset : Z) (a : AlignmentPair) :
  deref (member_of (getOtherViewId view)) (addLine (member_of view) offset a) =
  deref (member_of (getOtherViewId view)) a.
Proof.
  unfold member_of, getOtherViewId. destruct (view =? MAIN_VIEW); reflexivity.
Qed.

Lemma diffMask_addLine (p q : ViewMember) (offset : Z) (a : AlignmentPair) :
  diffMask (deref q (addLine p offset a)) = diffMask (deref q a).
Proof. destruct p, q; reflexivity. Qed.

Lemma addLine_withLineIn (view offset : Z) (a : AlignmentPair) :
  addLine (member_of view) offset a = withLineIn view (int (lineIn view a + offset)) a.
Proof.
  unfold addLine, withLineIn, lineIn, member_of. destruct (view =? MAIN_VIEW); reflexivity.
Qed.

(** X4. On every table, sorted or not, and for every line and offset,
    [adjustAlignment] runs to its end (an access outside the vector
    would have ended the run with [OutOfRange]) and leaves a prefix of
    the table as it was, followed by the entries of a suffix whose line
    in [view] (the [main] line for the main view, the [sub] line
    otherwise) has become the [int] that holds the line plus [offset],
    which wraps around when the sum leaves the [int] range: it adds and
    reorders no entry, it changes neither a line of the other view nor
    a diff mask, and it removes no entry when [offset] is not
    negative. *)
Theorem adjustAlignment_any_table (view ln offset : Z) (alignInfo : AlignmentInfo_t) :
  exists res s r,
    out (adjustAlignment view ln offset alignInfo) = Done res /\
    0 <= s <= r /\ r <= size alignInfo /\
    (0 <= offset -> r = s) /\
    let kept := firstn (Z.to_nat s) alignInfo ++ skipn (Z.to_nat r) alignInfo in
    res = firstn (Z.to_nat s) alignInfo ++
          map (fun a => withLineIn view (int (lineIn view a + offset)) a)
              (skipn (Z.to_nat r) alignInfo) /\
    map (deref (member_of (getOtherViewId view))) res =
      map (deref (member_of (getOtherViewId view))) kept /\
    map (fun a => (diffMask (main a), diffMask (sub a))) res =
      map (fun a => (diffMask (main a), diffMask (sub a))) kept /\
    (0 <= offset -> kept = alignInfo).
Proof.
  destruct (adjustAlignment_after (fun s => 0 <= s) view ln offset alignInfo)
    as (res & Hres & s & r & Hs & Hr & Hsame & _ & _ & Hform).
  - destruct (search_ok (member_of view) alignInfo ln) as (_ & Hy).
    eapply yields_weaken; [exact Hy |].
    intros s (r0 & Hr0 & Hle & _ & _ & Hthere). split; [lia |]. split; [lia | exact Hthere].
  - exists res, s, r. split; [exact Hres |]. split; [lia |]. split; [lia |].
    split; [exact Hsame |]. cbv zeta.
    split; [rewrite Hform; f_equal; apply map_ext; intros a; apply addLine_withLineIn |].
    subst res. split; [| split].
    + rewrite !map_app, map_map. f_equal. apply map_ext. intros a.
      apply deref_addLine_other.
    + rewrite !map_app, map_map. f_equal. apply map_ext. intros a.
      change (main (addLine (member_of view) offset a))
        with (deref member_main (addLine (member_of view) offset a)).
      change (sub (addLine (member_of view) offset a))
        with (deref member_sub (addLine (member_of view) offset a)).
      rewrite !diffMask_addLine. reflexivity.
    + intros Hpos. rewrite (Hsame Hpos). apply firstn_skipn.
Qed.

Lemma addLine_back (p : ViewMember) (N : Z) (a : AlignmentPair) :
  INT_MIN <= viewLine p a <= INT_MAX ->
  INT_MIN <= viewLine p a + N <= INT_MAX ->
  addLine p (- N) (addLine p N a) = a.
Proof.
  intros Ha HaN.
  destruct a as [[lm dm] [ls ds]], p; unfold viewLine, addLine in *; simpl in *;
    rewrite (int_small _ HaN);
    (replace (lm + N + - N) with lm by lia) || (replace (ls + N + - N) with ls by lia);
    rewrite (int_small _ Ha); reflexivity.
Qed.

(** The search on a table that splits into entries below [L] and
    entries at or after [L] ends where the two parts meet. *)
Lemma firstAtOrAfter_split (p : ViewMember) (v1 v2 : AlignmentInfo_t) (L idx : Z) :
  Forall (fun a => viewLine p a < L) v1 ->
  Forall (fun a => L <= viewLine p a) v2 ->
  firstAtOrAfter p (v1 ++ v2) L idx ->
  idx = size v1.
Proof.
  intros Hlow Hhigh (Hidx & Hbefore & Hthere).
  rewrite Forall_forall in Hlow, Hhigh.
  pose proof (size_nonneg v1) as Hn1.
  destruct (Z.lt_trichotomy idx (size v1)) as [Hlt | [Heq | Hgt]]; [| exact Heq |].
  - exfalso. destruct (lookup_in_range v1 idx ltac:(lia)) as (a & Ha).
    assert (Ha' : lookup (v1 ++ v2) idx = Some a).
    { unfold lookup in *. destruct (idx <? 0); [discriminate |].
      rewrite nth_error_app1; [exact Ha |]. unfold size in Hlt. lia. }
    pose proof (Hthere a Ha').
    assert (In a v1) by (apply In_lookup; eauto).
    pose proof (Hlow a ltac:(assumption)). lia.
  - exfalso. rewrite size_app in Hidx. destruct v2 as [| x v2].
    + unfold size in Hidx at 2. simpl in Hidx. lia.
    + pose proof (Hbefore (size v1) x ltac:(lia) (lookup_app_size v1 v2 x)).
      pose proof (Hhigh x (or_introl eq_refl)). lia.
Qed.

(** X5. Lines put in and taken out again: on a table of [int] lines
    sorted ascending in the lines of [view], shifting by [+N] at a line
    and then by [-N] at the same line gives the table back, for every
    [N > 0] that no line at or after that line exceeds [INT_MAX - N]
    (beyond that the first shift wraps around and the second does not
    undo it). *)
Theorem adjustAlignment_insert_delete (view L N : Z) (alignInfo : AlignmentInfo_t) :
  intLines alignInfo ->
  Sorted Z.le (map (lineIn view) alignInfo) ->
  0 < N ->
  fitsAfter view L N alignInfo ->
  exists inserted,
    out (adjustAlignment view L N alignInfo) = Done inserted /\
    out (adjustAlignment view L (- N) inserted) = Done alignInfo.
Proof.
  intros Hint Hsorted HN Hfits. set (p := member_of view).
  rewrite map_lineIn in Hsorted. fold p in Hsorted.
  pose proof (intLines_viewLine p alignInfo Hint) as Hrange32.
  destruct (adjustAlignment_yields view L N alignInfo Hsorted)
    as (res1 & Hres1 & s & r & Hfirst & Hr & Hsame & _ & _ & Hform1).
  rewrite (Hsame ltac:(lia)) in Hform1. clear r Hr Hsame. fold p in Hfirst, Hform1.
  exists res1. split; [exact Hres1 |].
  set (v1 := firstn (Z.to_nat s) alignInfo) in *.
  set (v2 := skipn (Z.to_nat s) alignInfo) in *.
  pose proof Hfirst as (Hs & Hbefore & _).
  assert (Hlow : Forall (fun a => viewLine p a < L) v1)
    by (apply Forall_firstn_idx; exact Hbefore).
  assert (Hhigh : Forall (fun a => L <= viewLine p a) v2).
  { apply Forall_skipn_idx; [lia |]. apply (sorted_from p alignInfo L s Hsorted Hfirst). }
  assert (Hin32 : Forall (fun a => INT_MIN <= viewLine p a <= INT_MAX) v2)
    by (apply Forall_skipn_of; exact Hrange32).
  assert (Hfit : Forall (fun a => INT_MIN <= viewLine p a + N <= INT_MAX) v2).
  { pose proof (Forall_both _ _ _ Hhigh
                  (Forall_both _ _ _ Hin32 (Forall_skipn_of _ (Z.to_nat s) _ Hfits))) as Hb.
    eapply Forall_impl; [| exact Hb]. intros a (Ha & Hr & Hf). cbv beta in Ha, Hr, Hf.
    rewrite lineIn_viewLine in Hf. fold p in Hf. lia. }
  assert (Hhigh' : Forall (fun a => L <= int (viewLine p a + - N)) (map (addLine p N) v2)).
  { apply Forall_forall. intros b Hb. apply in_map_iff in Hb. destruct Hb as (a & <- & Ha).
    rewrite Forall_forall in Hhigh, Hin32, Hfit.
    pose proof (Hhigh a Ha). pose proof (Hin32 a Ha). pose proof (Hfit a Ha).
    rewrite viewLine_addLine, (int_small (viewLine p a + N)) by assumption.
    replace (viewLine p a + N + - N) with (viewLine p a) by lia.
    rewrite int_small by assumption. assumption. }
  assert (Hhigh'' : Forall (fun a => L <= viewLine p a) (map (addLine p N) v2)).
  { apply Forall_forall. intros b Hb. apply in_map_iff in Hb. destruct Hb as (a & <- & Ha).
    rewrite Forall_forall in Hhigh, Hfit.
    pose proof (Hhigh a Ha). pose proof (Hfit a Ha).
    rewrite viewLine_addLine, int_small by assumption. lia. }
  assert (Hsize : size v1 = s) by (apply size_firstn; exact Hs).
  assert (Hsorted1 : sortedBy p res1).
  { subst res1. destruct (sorted_pieces p alignInfo (Z.to_nat s) (Z.to_nat s) Hsorted)
      as (Hp1 & Hp2).
    apply (sorted_shift_suffix p v1 v2 L N Hp1 Hp2 Hlow); [| exact Hfit].
    eapply Forall_impl; [| exact Hhigh]. cbv beta. intros a Ha. lia. }
  destruct (adjustAlignment_yields view L (- N) res1 Hsorted1)
    as (res2 & Hres2 & s' & r' & Hfirst' & Hr' & _ & Hin & _ & Hform2).
  fold p in Hfirst', Hin, Hform2.
  assert (Hs' : s' = s).
  { rewrite <- Hsize. subst res1.
    apply (firstAtOrAfter_split p v1 (map (addLine p N) v2) L s' Hlow); [| exact Hfirst'].
    exact Hhigh''. }
  subst s'.
  assert (Hr'' : r' = s).
  { destruct (Z.eq_dec r' s) as [Heq | Hne]; [exact Heq |]. exfalso.
    assert (Hlen : s < size res1) by lia.
    subst res1. rewrite size_app, Hsize in Hlen.
    destruct (map (addLine p N) v2) as [| x rest] eqn:Hmap.
    - change (size (@nil AlignmentPair)) with 0 in Hlen. lia.
    - pose proof (lookup_app_size v1 rest x) as Hlk. rewrite Hsize in Hlk.
      pose proof (Hin s x ltac:(lia) Hlk).
      rewrite Forall_forall in Hhigh'. pose proof (Hhigh' x (or_introl eq_refl)). lia. }
  subst r'. rewrite Hres2. f_equal. rewrite Hform2. subst res1.
  assert (Hlen1 : Z.to_nat s = length v1) by (unfold size in Hsize; lia).
  rewrite Hlen1, firstn_app, Nat.sub_diag, firstn_all, firstn_O, app_nil_r.
  rewrite skipn_app, Nat.sub_diag, skipn_all, skipn_O. simpl.
  rewrite map_map. rewrite (map_ext_in _ (fun a => a)).
  2:{ intros a Ha. rewrite Forall_forall in Hin32, Hfit.
      apply addLine_back; [apply Hin32 | apply Hfit]; exact Ha. }
  rewrite map_id. apply firstn_skipn.
Qed.

(** Two lines at line 4 of the sub view of the four-entry table. *)
Lemma adjustAlignment_insert_delete_witness :
  exists inserted,
    out (adjustAlignment SUB_VIEW 4 2 fourEntries) = Done inserted /\
    out (adjustAlignment SUB_VIEW 4 (- 2) inserted) = Done fourEntries.
Proof.
  apply (adjustAlignment_insert_delete SUB_VIEW 4 2 fourEntries).
  - repeat constructor; vm_compute; discriminate.
  - repeat constructor; vm_compute; discriminate.
  - lia.
  - repeat constructor; vm_compute; discriminate.
Defined.

(** ** Whether the views have to be aligned *)

Section NeededFacts.

Context {E : Type} `{Host E}.
Variable Settings : UserSettings.
Variable e : E.
Variable pView : ViewMember.
Variable alignmentInfo : AlignmentInfo_t.
Variable lastLine : Z.

Lemma skipLineZero_ok (fuel : nat) : forall i,
  0 <= i <= size alignmentInfo -> size alignmentInfo - i <= Z.of_nat fuel ->
  within (size alignmentInfo) (skipLineZero alignmentInfo fuel i) /\
  yields (skipLineZero alignmentInfo fuel i) (fun r => i <= r <= size alignmentInfo).
Proof.
  induction fuel as [| fuel IH]; intros i Hi Hfuel.
  - assert (i = size alignmentInfo) by lia. subst i.
    unfold skipLineZero. rewrite Z.ltb_irrefl.
    split; [apply within_ret | apply yields_ret; lia].
  - cbn [skipLineZero]. destruct (Z.ltb_spec i (size alignmentInfo)) as [Hlt | Hge].
    + destruct (lookup_in_range alignmentInfo i ltac:(lia)) as (a & Ha).
      rewrite (bind_at _ _ _ _ Ha).
      destruct ((line (main a) =? 0) || (line (sub a) =? 0)).
      * destruct (IH (i + 1) ltac:(lia) ltac:(lia)) as (Hw & r & Hr & Hrange).
        split.
        -- unfold within in *. simpl. constructor; [lia | exact Hw].
        -- exists r. simpl. split; [exact Hr | lia].
      * split.
        -- unfold within. simpl. constructor; [lia | constructor].
        -- exists i. simpl. split; [reflexivity | lia].
    + split; [apply within_ret | apply yields_ret; lia].
Qed.

Lemma firstMisaligned_ok (fuel : nat) : forall i,
  0 <= i <= size alignmentInfo -> size alignmentInfo - i <= Z.of_nat fuel ->
  within (size alignmentInfo)
         (firstMisaligned Settings e pView alignmentInfo lastLine fuel i) /\
  yields (firstMisaligned Settings e pView alignmentInfo lastLine fuel i)
         (fun b => b = true ->
                   exists a, In a alignmentInfo /\ misaligned Settings e a = true).
Proof.
  induction fuel as [| fuel IH]; intros i Hi Hfuel.
  - assert (i = size alignmentInfo) by lia. subst i.
    unfold firstMisaligned. rewrite Z.ltb_irrefl.
    split; [apply within_ret | apply yields_ret; discriminate].
  - cbn [firstMisaligned]. destruct (Z.ltb_spec i (size alignmentInfo)) as [Hlt | Hge].
    + destruct (lookup_in_range alignmentInfo i ltac:(lia)) as (a & Ha).
      rewrite (bind_at _ _ _ _ Ha).
      destruct (misaligned Settings e a) eqn:Hmis.
      * split.
        -- unfold within. simpl. constructor; [lia | constructor].
        -- exists true. simpl. split; [reflexivity |]. intros _. exists a.
           split; [apply In_lookup; eauto | exact Hmis].
      * destruct (viewLine pView a >? lastLine).
        -- split.
           ++ unfold within. simpl. constructor; [lia | constructor].
           ++ exists false. simpl. split; [reflexivity | discriminate].
        -- destruct (IH (i + 1) ltac:(lia) ltac:(lia)) as (Hw & b & Hb & Hsound).
           split.
           ++ unfold within in *. simpl. constructor; [lia | exact Hw].
           ++ exists b. simpl. split; [exact Hb | exact Hsound].
    + split; [apply within_ret | apply yields_ret; discriminate].
Qed.

End NeededFacts.

(** X6. For every table and host state, [isAlignmentNeeded] runs to its
    end and only indexes the table inside its bounds; it answers true
    only if some entry of the table passes the mask test of the mode
    (both masks set when only differences are shown, equal masks
    otherwise) and has its two lines on different visible lines; in
    particular it answers false on the empty table. *)
Theorem isAlignmentNeeded_sound {E : Type} `{Host E} (Settings : UserSettings) (e : E)
        (view : Z) (alignmentInfo : AlignmentInfo_t) :
  within (size alignmentInfo) (isAlignmentNeeded Settings e view alignmentInfo) /\
  exists needed,
    out (isAlignmentNeeded Settings e view alignmentInfo) = Done needed /\
    (needed = true ->
     exists a, In a alignmentInfo /\
       misaligned Settings e a = true /\
       SCI_VISIBLEFROMDOCLINE e MAIN_VIEW (line (main a)) <>
       SCI_VISIBLEFROMDOCLINE e SUB_VIEW (line (sub a))) /\
    (alignmentInfo = [] -> needed = false).
Proof.
  unfold isAlignmentNeeded. cbv zeta.
  change (if view =? MAIN_VIEW then member_main else member_sub) with (member_of view).
  destruct (search_ok (member_of view) alignmentInfo (getFirstLine e view)) as (Hw & Hy).
  assert (Hsound : forall b : bool,
            (b = true -> exists a, In a alignmentInfo /\ misaligned Settings e a = true) ->
            (b = true ->
             exists a, In a alignmentInfo /\ misaligned Settings e a = true /\
               SCI_VISIBLEFROMDOCLINE e MAIN_VIEW (line (main a)) <>
               SCI_VISIBLEFROMDOCLINE e SUB_VIEW (line (sub a))) /\
            (alignmentInfo = [] -> b = false)).
  { intros b Hb. split.
    - intros Htrue. destruct (Hb Htrue) as (a & Hin & Hmis). exists a.
      split; [exact Hin | split; [exact Hmis |]].
      unfold misaligned in Hmis. apply andb_true_iff in Hmis. destruct Hmis as (_ & Hvis).
      apply negb_true_iff, Z.eqb_neq in Hvis. exact Hvis.
    - intros ->. destruct b; [| reflexivity].
      destruct (Hb eq_refl) as (a & [] & _). }
  destruct Hy as (idx & Hidx & r0 & Hr0 & Hle & _).
  split.
  - apply within_bind; [exact Hw |]. intros idx' Hidx'. rewrite Hidx in Hidx'.
    injection Hidx' as <-.
    destruct (Z.geb_spec idx (size alignmentInfo)) as [Hout | Hin]; [apply within_ret |].
    set (i := if negb (idx =? 0) then idx - 1 else idx).
    assert (Hi : 0 <= i <= size alignmentInfo)
      by (unfold i; destruct (Z.eqb_spec idx 0); simpl; lia).
    destruct (skipLineZero_ok alignmentInfo (length alignmentInfo) i Hi
                ltac:(unfold size in *; lia)) as (Hws & r & Hr & Hrange).
    apply within_bind; [exact Hws |]. intros r' Hr'. rewrite Hr in Hr'. injection Hr' as <-.
    apply firstMisaligned_ok; unfold size in *; lia.
  - unfold bind at 1. rewrite Hidx. cbv iota beta.
    destruct (Z.geb_spec idx (size alignmentInfo)) as [Hout | Hin].
    + exists false. simpl. split; [reflexivity |]. apply Hsound. discriminate.
    + set (i := if negb (idx =? 0) then idx - 1 else idx).
      assert (Hi : 0 <= i <= size alignmentInfo)
        by (unfold i; destruct (Z.eqb_spec idx 0); simpl; lia).
      destruct (skipLineZero_ok alignmentInfo (length alignmentInfo) i Hi
                  ltac:(unfold size in *; lia)) as (_ & r & Hr & Hrange).
      destruct (firstMisaligned_ok Settings e (member_of view) alignmentInfo
                  (getLastLine e view) (length alignmentInfo) r
                  ltac:(lia) ltac:(unfold size in *; lia)) as (_ & b & Hb & Hbsound).
      exists b. cbn [out]. unfold bind. rewrite Hr. cbn [out]. rewrite Hb.
      split; [reflexivity |]. apply Hsound. exact Hbsound.
Qed.

(** ** The deleted sections: refusals and replacements *)

Section MoreSectionsFacts.

Context {E : Type} `{Host E}.
Variable Settings : UserSettings.

(** What a [push] that is not refused does. *)
Lemma push_accepted (view currAction startLine len : Z) (undo : shared_ptr)
      (this : DeletedSectionsList) (w : World E) :
  1 <= len -> revertsReplace this currAction = false ->
  let w1 := perform (if RecompareOnChange Settings
                     then [clearMarksRange view startLine len] else []) w in
  push Settings view currAction startLine len undo this w =
  ((true, mkSections (GetTickCount (editor w1))
                     (sections this ++
                      [pushedEntry Settings (editor w) view currAction startLine len undo])),
   w1).
Proof.
  intros Hlen Hrev. unfold push. fold (revertsReplace this currAction). rewrite Hrev.
  destruct (Z.ltb_spec len 1) as [Hlt | _]; [lia |].
  unfold pushedEntry, capturedMarkers, capturedNextLineMarker, inverseAction.
  unfold sbind, ask, sret, call. simpl.
  destruct (RecompareOnChange Settings); simpl; [reflexivity |].
  destruct (startLine + len <? SCI_GETLINECOUNT (editor w) view); reflexivity.
Qed.

(** X7. [push] refuses, returning false and leaving tracker and host as
    they are, a range of less than one line and a deletion whose tag is
    the reverse-action tag of a top entry marked as the delete part of a
    replace.  Every other [push] returns true, adds one entry on top --
    with the start line, the tag of the undoing action, no replace mark,
    the pointer, and the captured markers (none when the comparison is
    recomputed on change: the markers of the range are cleared then) --
    and stamps the tracker with the tick count. *)
Theorem push_outcome (view currAction startLine len : Z) (undo : shared_ptr)
        (this : DeletedSectionsList) (w : World E) :
  (len < 1 \/ revertsReplace this currAction = true ->
   push Settings view currAction startLine len undo this w = ((false, this), w)) /\
  (1 <= len -> revertsReplace this currAction = false ->
   exists pushed w1,
     push Settings view currAction startLine len undo this w = ((true, pushed), w1) /\
     sections pushed =
       sections this ++
       [DeletedSection.mk startLine false
          (if currAction =? SC_PERFORMED_UNDO then SC_PERFORMED_REDO else SC_PERFORMED_UNDO)
          (if RecompareOnChange Settings then []
           else getMarkers (editor w) view startLine len MARKER_MASK_ALL)
          (capturedNextLineMarker Settings (editor w) view startLine len)
          undo] /\
     lastPushTimeMark pushed = GetTickCount (editor w1) /\
     issued w1 = issued w ++ (if RecompareOnChange Settings
                              then [clearMarksRange view startLine len] else [])).
Proof.
  split.
  - intros Hrefused. unfold push. fold (revertsReplace this currAction).
    destruct (Z.ltb_spec len 1) as [_ | Hge]; [reflexivity |].
    destruct Hrefused as [Hlt | ->]; [lia | reflexivity].
  - intros Hlen Hrev. eexists. eexists.
    split; [apply (push_accepted view currAction startLine len undo this w Hlen Hrev) |].
    simpl. split; [reflexivity |]. split; [reflexivity |].
    destruct (RecompareOnChange Settings); simpl; [reflexivity | now rewrite app_nil_r].
Qed.

(** X8. A line replacement and its undo.  After a [push] that recorded
    the deletion of a range, an insert at the same line that is not its
    undo and comes while the tick count is below the stamp plus 40 marks
    the entry as a replace; from then on every deletion tagged with the
    undoing action is refused (it is the undo of the inserted half) and
    leaves the tracker as it is, and the insert that undoes the recorded
    deletion still gets the pointer and the markers back and leaves the
    stack as it was before the [push]. *)
Theorem replace_then_undo
        (view action other startLine len : Z) (undo : shared_ptr)
        (this pushed : DeletedSectionsList) (w w1 w2 : World E) :
  push Settings view action startLine len undo this w = ((true, pushed), w1) ->
  other <> inverseAction action ->
  (GetTickCount (editor w2) <? dword (lastPushTimeMark pushed + 40)) = true ->
  exists marked,
    pop view other startLine pushed w2 = ((nullptr, marked), w2) /\
    (forall startLine' len' undo' (w3 : World E),
       push Settings view (inverseAction action) startLine' len' undo' marked w3 =
       ((false, marked), w3)) /\
    (forall w4 : World E,
       pop view (inverseAction action) startLine marked w4 =
       ((undo, mkSections (lastPushTimeMark pushed) (sections this)),
        perform (restoreCalls view startLine
                   (capturedMarkers Settings (editor w) view startLine len)
                   (capturedNextLineMarker Settings (editor w) view startLine len))
                w4)).
Proof.
  intros Hpush Hother Hsoon.
  assert (Hlen : 1 <= len).
  { unfold push in Hpush. destruct (Z.ltb_spec len 1); [discriminate | lia]. }
  assert (Hrev : revertsReplace this action = false).
  { unfold push in Hpush. fold (revertsReplace this action) in Hpush.
    destruct (len <? 1); [discriminate |].
    destruct (revertsReplace this action); [discriminate | reflexivity]. }
  rewrite (push_accepted view action startLine len undo this w Hlen Hrev) in Hpush.
  injection Hpush as <- <-.
  set (d := pushedEntry Settings (editor w) view action startLine len undo).
  cbn [lastPushTimeMark] in Hsoon.
  set (stamp := GetTickCount (editor (perform _ w))) in *.
  exists (mkSections stamp (sections this ++ [DeletedSection.with_lineReplace d true])).
  split; [| split].
  - unfold pop. cbn [sections lastPushTimeMark]. rewrite back_push.
    replace (DeletedSection.startLine d) with startLine by reflexivity.
    replace (DeletedSection.restoreAction d) with (inverseAction action) by reflexivity.
    rewrite Z.eqb_refl. cbn [negb].
    destruct (Z.eqb_spec (inverseAction action) other) as [Heq | _]; [congruence |].
    cbn [negb]. unfold sbind, ask, sret, set_back. cbn [fst snd]. rewrite Hsoon.
    change (removelast (sections this ++ [d])) with (pop_back (sections this ++ [d])).
    rewrite pop_back_push. reflexivity.
  - intros startLine' len' undo' w3. unfold push. cbn [sections]. rewrite back_push.
    replace (DeletedSection.restoreAction (DeletedSection.with_lineReplace d true))
      with (inverseAction action) by reflexivity.
    replace (DeletedSection.lineReplace (DeletedSection.with_lineReplace d true))
      with true by reflexivity.
    rewrite Z.eqb_refl. cbn [andb]. destruct (len' <? 1); reflexivity.
  - intros w4. unfold pop. cbn [sections lastPushTimeMark]. rewrite back_push.
    set (d' := DeletedSection.with_lineReplace d true).
    replace (DeletedSection.startLine d') with startLine by reflexivity.
    replace (DeletedSection.restoreAction d') with (inverseAction action) by reflexivity.
    replace (DeletedSection.undoInfo d') with undo by reflexivity.
    replace (DeletedSection.markers d')
      with (capturedMarkers Settings (editor w) view startLine len) by reflexivity.
    replace (DeletedSection.nextLineMarker d')
      with (capturedNextLineMarker Settings (editor w) view startLine len) by reflexivity.
    rewrite !Z.eqb_refl. cbn [negb].
    unfold sbind, sret, call. rewrite pop_back_push.
    destruct (capturedMarkers Settings (editor w) view startLine len) as [| m ms];
      [reflexivity |].
    assert (Hsize : (size (m :: ms) =? 0) = false)
      by (apply Z.eqb_neq; unfold size; simpl; lia).
    rewrite Hsize. cbn [negb]. unfold restoreCalls.
    destruct (capturedNextLineMarker Settings (editor w) view startLine len =? 0);
      reflexivity.
Qed.

End MoreSectionsFacts.

(** The replacement of lines 3-5 of the ten-line document by the user,
    10 ms apart, and its undo. *)
Lemma replace_then_undo_witness :
  let w := mkWorld oneDiffHost [] in
  let w2 := mkWorld (mkSimple (tenLines 1) (tenLines 1) 7 0 0 0 20 MAIN_VIEW 1 1010) [] in
  exists pushed marked,
    fst (push freeCaret MAIN_VIEW SC_PERFORMED_USER 3 3 (object 7) noSections w)
      = (true, pushed) /\
    pop MAIN_VIEW SC_PERFORMED_USER 3 pushed w2 = ((nullptr, marked), w2) /\
    push freeCaret MAIN_VIEW SC_PERFORMED_UNDO 3 3 (object 8) marked w2 = ((false, marked), w2) /\
    fst (pop MAIN_VIEW SC_PERFORMED_UNDO 3 marked w2) = (object 7, mkSections 1000 []).
Proof.
  intros w w2.
  pose (pushed := snd (fst (push freeCaret MAIN_VIEW SC_PERFORMED_USER 3 3 (object 7)
                                 noSections w))).
  destruct (@replace_then_undo SimpleHost simpleHost freeCaret MAIN_VIEW
              SC_PERFORMED_USER SC_PERFORMED_USER 3 3 (object 7) noSections pushed
              w w w2 ltac:(vm_compute; reflexivity) ltac:(discriminate)
              ltac:(vm_compute; reflexivity))
    as (marked & Hpop & Hpush & Hundo).
  exists pushed, marked. split; [reflexivity |]. split; [exact Hpop |].
  split; [exact (Hpush 3 3 (object 8) w2) |].
  pose proof (Hundo w2) as Hback.
  change (inverseAction SC_PERFORMED_USER) with SC_PERFORMED_UNDO in Hback.
  rewrite Hback. reflexivity.
Defined.

Lemma push_outcome_witness :
  push freeCaret MAIN_VIEW SC_PERFORMED_USER 3 0 (object 7) noSections (mkWorld oneDiffHost [])
  = ((false, noSections), mkWorld oneDiffHost []).
Proof.
  apply (proj1 (@push_outcome SimpleHost simpleHost freeCaret MAIN_VIEW SC_PERFORMED_USER 3 0 (object 7) noSections
                             (mkWorld oneDiffHost []))).
  left. lia.
Defined.

(** ** What the scroll synchronisation and the navigator leave alone *)

Section ViewsFacts.

Context {E : Type} `{Host E}.
Variable Settings : UserSettings.

(** X9. Whatever the host state, [syncViews] addresses the other view
    only: it makes at most one call that sets its first visible line and
    at most one that moves its caret, each followed by a repaint of that
    view, the scroll before the caret, and then updates the navigation
    bar; without [FollowingCaret] it never moves a caret. *)
Theorem syncViews_other_view_only (biasView : Z) (w : World E) :
  let otherView := getOtherViewId biasView in
  exists scroll caret,
    issued (snd (syncViews Settings biasView w)) =
      issued w ++ scroll ++ caret ++ [NavDlg_Update] /\
    oneCallAndRepaint otherView
      (fun c => exists ln, c = SCI_SETFIRSTVISIBLELINE otherView ln) scroll /\
    oneCallAndRepaint otherView
      (fun c => exists pos, c = SCI_SETEMPTYSELECTION otherView pos) caret /\
    (FollowingCaret Settings = false -> caret = []).
Proof.
  intros otherView. unfold syncViews, sbind, call, ask, sret. cbv zeta. unfold id.
  fold otherView.
  destruct (FollowingCaret Settings) eqn:Hfollow; simpl;
    split_ifs; simpl;
    first
      [ exists [], []; simpl;
        split; [reflexivity |]; split; [left; reflexivity |];
        split; [left; reflexivity | intros; reflexivity]
      | refine (ex_intro _ [_; _] (ex_intro _ [] _)); simpl;
        split; [rewrite <- ?app_assoc; reflexivity |];
        split; [right; eexists; split; [eexists; reflexivity | reflexivity] |];
        split; [left; reflexivity | intros; reflexivity]
      | refine (ex_intro _ [] (ex_intro _ [_; _] _)); simpl;
        split; [rewrite <- ?app_assoc; reflexivity |];
        split; [left; reflexivity |];
        split; [right; eexists; split; [eexists; reflexivity | reflexivity]
               | intros; discriminate]
      | refine (ex_intro _ [_; _] (ex_intro _ [_; _] _)); simpl;
        split; [rewrite <- ?app_assoc; reflexivity |];
        split; [right; eexists; split; [eexists; reflexivity | reflexivity] |];
        split; [right; eexists; split; [eexists; reflexivity | reflexivity]
               | intros; discriminate] ].
Qed.

End ViewsFacts.

Section NavigatorCalls.

Context {E : Type} `{Host E}.
Variable Settings : UserSettings.
Variable compareList : CompareList_t.

Lemma navigates_refl (flash : bool) (w : World E) : navigates Settings flash w w.
Proof. exists []. split; [now rewrite app_nil_r | constructor]. Qed.

Lemma navigates_trans (flash : bool) (w w1 w2 : World E) :
  navigates Settings flash w w1 -> navigates Settings flash w1 w2 ->
  navigates Settings flash w w2.
Proof.
  intros (cs1 & H1 & Hall1) (cs2 & H2 & Hall2). exists (cs1 ++ cs2).
  split; [rewrite H2, H1, app_assoc; reflexivity | apply Forall_app; split; assumption].
Qed.

Lemma navigates_call (flash : bool) (c : Command) (w : World E) :
  allowed Settings flash c -> navigates Settings flash w (snd (call c w)).
Proof. intros Hc. exists [c]. split; [reflexivity | constructor; [exact Hc | constructor]]. Qed.

Lemma navigates_flash (flash : bool) (w w' : World E) :
  navigates Settings false w w' -> navigates Settings flash w w'.
Proof.
  intros (cs & Hcs & Hall). exists cs. split; [exact Hcs |].
  eapply Forall_impl; [| exact Hall]. intros c (Hshow & Hcaret & Hflash).
  split; [exact Hshow | split; [exact Hcaret |]]. intros _. apply Hflash. reflexivity.
Qed.

Ltac allowed_call :=
  unfold allowed; simpl;
  split; [reflexivity | split; [intros; try reflexivity; congruence | intros; discriminate]].

Lemma setArrowMark_navigates (view ln : Z) (down : bool) (w : World E) :
  navigates Settings false w (snd (setArrowMark view ln down w)).
Proof.
  unfold setArrowMark, sbind. destruct ((view <? 0) || (ln <? 0)).
  - apply navigates_call. allowed_call.
  - unfold call. simpl. eexists. split; [rewrite <- ?app_assoc; reflexivity |].
    repeat constructor; simpl; intros; discriminate.
Qed.

Lemma showBlankAdjacentArrowMark_navigates (view ln : Z) (down : bool) (w : World E) :
  navigates Settings false w (snd (showBlankAdjacentArrowMark Settings view ln down w)).
Proof.
  unfold showBlankAdjacentArrowMark, sbind, ask, id. cbv zeta.
  split_ifs; apply setArrowMark_navigates.
Qed.

Lemma landOn_navigates (findUnique : bool) (view ln : Z)
      (down goToCornerDiff isCornerDiff doNotBlink : bool) (w : World E) :
  navigates Settings false w
            (snd (landOn Settings findUnique view ln down goToCornerDiff isCornerDiff
                         doNotBlink w)).
Proof.
  unfold landOn, sbind, call, ask, sret, id. cbv zeta.
  destruct (FollowingCaret Settings) eqn:Hfollow;
    rewrite ?andb_false_r, ?andb_true_r; simpl;
    split_ifs; simpl;
    first
      [ apply navigates_refl
      | eexists; split; [rewrite <- ?app_assoc; reflexivity |];
        repeat constructor; simpl; intros; congruence ].
Qed.

Lemma jumpToNextChange_navigates (mainStartLine subStartLine : Z)
      (down goToCornerDiff doNotBlink : bool) (w : World E) :
  navigates Settings false w
            (snd (jumpToNextChange Settings compareList mainStartLine subStartLine
                                   down goToCornerDiff doNotBlink w)).
Proof.
  unfold jumpToNextChange, sbind, ask, id. cbv zeta.
  destruct (currentCompare compareList (editor w)) as [cmpPair |]; [| apply navigates_refl].
  match goal with
  | |- context [if ?c then _ else _] => destruct c
  end.
  - unfold call, sret. simpl. eexists. split; [reflexivity |].
    repeat constructor; simpl; intros; discriminate.
  - destruct (nextChange (editor w) (findUniqueMode (options cmpPair))
                         (getCurrentViewId (editor w)) mainStartLine subStartLine down)
      as [[view ln] |]; [apply landOn_navigates | apply navigates_refl].
Qed.

Lemma then_arrow_navigates (m : Sci E (Z * Z)) (down : bool) (w : World E) :
  navigates Settings false w (snd (m w)) ->
  navigates Settings false w
    (snd ((viewLoc <- m ;;
           showBlankAdjacentArrowMark Settings (fst viewLoc) (snd viewLoc) down ;;;
           sret viewLoc) w)).
Proof.
  intros Hm. unfold sbind, sret. destruct (m w) as [viewLoc w1]. simpl in Hm.
  pose proof (showBlankAdjacentArrowMark_navigates (fst viewLoc) (snd viewLoc) down w1) as Ha.
  destruct (showBlankAdjacentArrowMark Settings (fst viewLoc) (snd viewLoc) down w1).
  simpl in *. eapply navigates_trans; eassumption.
Qed.

Lemma jumpToFirstChange_navigates (goToCornerDiff doNotBlink : bool) (w : World E) :
  navigates Settings false w
            (snd (jumpToFirstChange Settings compareList goToCornerDiff doNotBlink w)).
Proof.
  unfold jumpToFirstChange. apply then_arrow_navigates. apply jumpToNextChange_navigates.
Qed.

Lemma jumpToLastChange_navigates (goToCornerDiff doNotBlink : bool) (w : World E) :
  navigates Settings false w
            (snd (jumpToLastChange Settings compareList goToCornerDiff doNotBlink w)).
Proof.
  unfold jumpToLastChange. unfold sbind at 1. unfold ask, id.
  apply (then_arrow_navigates
           (jumpToNextChange Settings compareList (SCI_GETLINECOUNT (editor w) MAIN_VIEW)
                             (SCI_GETLINECOUNT (editor w) SUB_VIEW) false
                             goToCornerDiff doNotBlink) false w).
  apply jumpToNextChange_navigates.
Qed.

Lemma jumpToChange_search_navigates (down : bool) (w : World E) :
  navigates Settings false w (snd (jumpToChange_search Settings compareList down w)).
Proof.
  unfold jumpToChange_search, sbind, ask, id. cbv zeta.
  destruct down;
    (match goal with
     | |- context [if ?c then _ else _] => destruct c
     end;
     [unfold call, sret; simpl; eexists; split; [reflexivity |];
      repeat constructor; simpl; intros; discriminate |
      match goal with
      | |- context [let '(a, b) := ?x in _] => destruct x
      end;
      apply jumpToNextChange_navigates]).
Qed.

(** X10. The calls of the navigator.  Every call that [jumpToChange],
    [jumpToFirstChange], [jumpToLastChange] and [jumpToNextChange] make
    to the host is one of [centerAt], [blinkLine], [SetFocus],
    [SCI_SETEMPTYSELECTION], [showArrowSymbol] (which adds the arrow
    marker to a line), the reset of the arrow mark (which deletes that
    marker through its handle), the posting of its timeout, and the
    flash of the window; no other command is issued, so none of
    [setMarkers], [clearMarks], [SCI_MARKERADDSET],
    [SCI_SETFIRSTVISIBLELINE] and [SCI_ANNOTATIONCLEARALL].  Without
    [FollowingCaret] none of the calls is [SCI_SETEMPTYSELECTION] or
    [SetFocus], and the window is only flashed by [jumpToChange] with
    [wrapAround]. *)
Theorem navigator_only_shows (w : World E) :
  (forall down wrapAround,
     navigates Settings wrapAround w
               (snd (jumpToChange Settings compareList down wrapAround w))) /\
  (forall goToCornerDiff doNotBlink,
     navigates Settings false w
               (snd (jumpToFirstChange Settings compareList goToCornerDiff doNotBlink w))) /\
  (forall goToCornerDiff doNotBlink,
     navigates Settings false w
               (snd (jumpToLastChange Settings compareList goToCornerDiff doNotBlink w))) /\
  (forall mainStartLine subStartLine down goToCornerDiff doNotBlink,
     navigates Settings false w
               (snd (jumpToNextChange Settings compareList mainStartLine subStartLine
                                      down goToCornerDiff doNotBlink w))).
Proof.
  split; [| split; [| split]].
  - intros down wrapAround. unfold jumpToChange. unfold sbind at 1.
    pose proof (jumpToChange_search_navigates down w) as Hsearch.
    destruct (jumpToChange_search Settings compareList down w) as [viewLoc w1].
    simpl in Hsearch. apply navigates_flash with (flash := wrapAround) in Hsearch.
    eapply navigates_trans; [exact Hsearch |].
    destruct (fst viewLoc <? 0).
    + destruct wrapAround.
      * unfold sbind, call, sret.
        assert (Hagain : navigates Settings true w1
                  (snd ((if down then jumpToFirstChange Settings compareList true true
                         else jumpToLastChange Settings compareList true true) w1))).
        { apply navigates_flash.
          destruct down; [apply jumpToFirstChange_navigates | apply jumpToLastChange_navigates]. }
        destruct ((if down then jumpToFirstChange Settings compareList true true
                   else jumpToLastChange Settings compareList true true) w1) as [viewLoc' w2].
        simpl in *. eapply navigates_trans; [exact Hagain |].
        exists [FlashWindowEx]. split; [reflexivity |].
        repeat constructor; simpl; intros; discriminate.
      * destruct down; [apply jumpToLastChange_navigates | apply jumpToFirstChange_navigates].
    + apply navigates_flash.
      apply (then_arrow_navigates (sret viewLoc) down w1). apply navigates_refl.
  - intros. apply jumpToFirstChange_navigates.
  - intros. apply jumpToLastChange_navigates.
  - intros. apply jumpToNextChange_navigates.
Qed.

End NavigatorCalls.

(** ** The compare list *)

Lemma find_index_first {T} (f : T -> bool) (l : list T) :
  match find_index f l with
  | Some i => exists x, nth_error l i = Some x /\ f x = true /\
                        forall j y, (j < i)%nat -> nth_error l j = Some y -> f y = false
  | None => forall y, In y l -> f y = false
  end.
Proof.
  induction l as [| x l IH]; simpl.
  - intros y [].
  - destruct (f x) eqn:Hx.
    + exists x. split; [reflexivity | split; [exact Hx |]]. intros j y Hj. lia.
    + destruct (find_index f l) as [i |]; simpl.
      * destruct IH as (z & Hz & Hfz & Hbefore). exists z.
        split; [exact Hz | split; [exact Hfz |]].
        intros [| j] y Hj Hy; simpl in Hy.
        -- injection Hy as <-. exact Hx.
        -- apply (Hbefore j y); [lia | exact Hy].
      * intros y [<- | Hy]; [exact Hx | apply IH; exact Hy].
Qed.

Lemma find_index_none {T} (f : T -> bool) (l : list T) :
  (forall y, In y l -> f y = false) -> find_index f l = None.
Proof.
  intros Hall. pose proof (find_index_first f l) as Hfirst.
  destruct (find_index f l) as [i |]; [| reflexivity].
  destruct Hfirst as (x & Hx & Hfx & _).
  rewrite (Hall x (nth_error_In _ _ Hx)) in Hfx. discriminate.
Qed.

Lemma In_remove_other {T} (l : list T) : forall (i : nat) (q : T),
  In q (remove_nth i l) -> exists j, j <> i /\ nth_error l j = Some q.
Proof.
  induction l as [| x l IH]; intros [| i] q Hq; simpl in *; try tauto.
  - apply In_nth_error in Hq. destruct Hq as (j & Hj). exists (S j). split; [lia | exact Hj].
  - destruct Hq as [<- | Hq].
    + exists 0%nat. split; [lia | reflexivity].
    + destruct (IH i q Hq) as (j & Hne & Hj). exists (S j). split; [lia | exact Hj].
Qed.

Lemma length_remove_nth {T} (l : list T) : forall (i : nat) (x : T),
  nth_error l i = Some x -> S (length (remove_nth i l)) = length l.
Proof.
  induction l as [| y l IH]; intros [| i] x Hx; simpl in *; try discriminate.
  - reflexivity.
  - f_equal. eapply IH; eassumption.
Qed.

(** X11. [getCompare] and [getCompareBySciDoc] answer the position of
    the first pair of the list one of whose two files is the buffer (the
    document) asked for: it is a position of the list, no pair before it
    has such a file; and they answer [compareList.end ()] exactly when no
    pair of the list has one. *)
Theorem getCompare_first (compareList : CompareList_t) (buff doc : Z) :
  match getCompare compareList buff with
  | Some cmpPair =>
      exists p, nth_error compareList cmpPair = Some p /\
        (buffId (file0 p) = buff \/ buffId (file1 p) = buff) /\
        forall j q, (j < cmpPair)%nat -> nth_error compareList j = Some q ->
                    buffId (file0 q) <> buff /\ buffId (file1 q) <> buff
  | None => forall q, In q compareList -> buffId (file0 q) <> buff /\ buffId (file1 q) <> buff
  end /\
  match getCompareBySciDoc compareList doc with
  | Some cmpPair =>
      exists p, nth_error compareList cmpPair = Some p /\
        (sciDoc (file0 p) = doc \/ sciDoc (file1 p) = doc) /\
        forall j q, (j < cmpPair)%nat -> nth_error compareList j = Some q ->
                    sciDoc (file0 q) <> doc /\ sciDoc (file1 q) <> doc
  | None => forall q, In q compareList -> sciDoc (file0 q) <> doc /\ sciDoc (file1 q) <> doc
  end.
Proof.
  split.
  - unfold getCompare.
    pose proof (find_index_first
                  (fun p => (buffId (file0 p) =? buff) || (buffId (file1 p) =? buff))
                  compareList) as Hfirst.
    destruct (find_index _ compareList) as [i |].
    + destruct Hfirst as (p & Hp & Hhit & Hbefore). exists p. split; [exact Hp |]. split.
      * apply orb_true_iff in Hhit. destruct Hhit as [Hh | Hh]; apply Z.eqb_eq in Hh; auto.
      * intros j q Hj Hq. specialize (Hbefore j q Hj Hq). cbv beta in Hbefore.
        apply orb_false_iff in Hbefore. destruct Hbefore as (H0 & H1).
        apply Z.eqb_neq in H0, H1. auto.
    + intros q Hq. specialize (Hfirst q Hq). cbv beta in Hfirst.
      apply orb_false_iff in Hfirst. destruct Hfirst as (H0 & H1).
      apply Z.eqb_neq in H0, H1. auto.
  - unfold getCompareBySciDoc.
    pose proof (find_index_first
                  (fun p => (sciDoc (file0 p) =? doc) || (sciDoc (file1 p) =? doc))
                  compareList) as Hfirst.
    destruct (find_index _ compareList) as [i |].
    + destruct Hfirst as (p & Hp & Hhit & Hbefore). exists p. split; [exact Hp |]. split.
      * apply orb_true_iff in Hhit. destruct Hhit as [Hh | Hh]; apply Z.eqb_eq in Hh; auto.
      * intros j q Hj Hq. specialize (Hbefore j q Hj Hq). cbv beta in Hbefore.
        apply orb_false_iff in Hbefore. destruct Hbefore as (H0 & H1).
        apply Z.eqb_neq in H0, H1. auto.
    + intros q Hq. specialize (Hfirst q Hq). cbv beta in Hfirst.
      apply orb_false_iff in Hfirst. destruct Hfirst as (H0 & H1).
      apply Z.eqb_neq in H0, H1. auto.
Qed.

(** X12. The files of a pair by buffer.  For a pair of two different
    buffers and one of them, [getFileByBuffId] answers the file of that
    buffer and [getOtherFileByBuffId] the file of the other one, from
    which [getOtherFileByBuffId] leads back.  For a buffer that is in
    neither file there is no failure: [getFileByBuffId] answers the
    second file and [getOtherFileByBuffId] the first. *)
Theorem files_by_buffer (p : ComparedPair) (buff : Z) :
  (buffId (file0 p) <> buffId (file1 p) ->
   buffId (file0 p) = buff \/ buffId (file1 p) = buff ->
   buffId (getFileByBuffId p buff) = buff /\
   buffId (getOtherFileByBuffId p buff) <> buff /\
   getOtherFileByBuffId p (buffId (getOtherFileByBuffId p buff)) = getFileByBuffId p buff) /\
  (buffId (file0 p) <> buff -> buffId (file1 p) <> buff ->
   getFileByBuffId p buff = file1 p /\ getOtherFileByBuffId p buff = file0 p).
Proof.
  unfold getFileByBuffId, getOtherFileByBuffId. split.
  - intros Hdiff Hin. destruct (Z.eqb_spec (buffId (file0 p)) buff) as [H0 | H0].
    + split; [exact H0 |]. split; [congruence |].
      destruct (Z.eqb_spec (buffId (file0 p)) (buffId (file1 p))); [contradiction | reflexivity].
    + destruct Hin as [Hin | Hin]; [contradiction |].
      split; [exact Hin |]. split; [exact H0 |]. now rewrite Z.eqb_refl.
  - intros H0 H1. destruct (Z.eqb_spec (buffId (file0 p)) buff); [contradiction |].
    split; reflexivity.
Qed.

Lemma files_by_buffer_witness :
  buffId (getFileByBuffId plainPair 2) = 2 /\
  buffId (getOtherFileByBuffId plainPair 2) <> 2 /\
  getOtherFileByBuffId plainPair (buffId (getOtherFileByBuffId plainPair 2)) =
  getFileByBuffId plainPair 2.
Proof.
  apply (proj1 (files_by_buffer plainPair 2)).
  - discriminate.
  - right. reflexivity.
Defined.

Section MoreHandlerFacts.

Context {E : Type} `{Host E}.
Variable Settings : UserSettings.

(** X13. [clearComparePair] for a buffer that is in no pair does
    nothing at all.  For a buffer in a pair it first has the files of
    the first such pair restored, erases that pair and no other from the
    list, and ends in [onBufferActivated]: the delayed alignment and the
    delayed re-compare are cancelled.  When no other pair holds the
    buffer, the buffer is compared no more. *)
Theorem clearComparePair_effect (buff : Z) (g : Globals) (w : World E) :
  (getCompare (compareList g) buff = None -> clearComparePair buff g w = (g, w)) /\
  (forall cmpPair,
     getCompare (compareList g) buff = Some cmpPair ->
     let r := clearComparePair buff g w in
     compareList (fst r) = remove_nth cmpPair (compareList g) /\
     S (length (compareList (fst r))) = length (compareList g) /\
     delayedAlignment (fst r) = None /\ delayedUpdate (fst r) = None /\
     (exists rest, issued (snd r) = issued w ++ restoreFiles buff :: rest) /\
     ((forall j q, j <> cmpPair -> nth_error (compareList g) j = Some q ->
                   buffId (file0 q) <> buff /\ buffId (file1 q) <> buff) ->
      getCompare (compareList (fst r)) buff = None)).
Proof.
  split.
  - intros Hnone. unfold clearComparePair. rewrite Hnone. reflexivity.
  - intros cmpPair Hsome r.
    assert (Hlist : compareList (fst r) = remove_nth cmpPair (compareList g)).
    { unfold r, clearComparePair. rewrite Hsome. unfold sbind, call, ask, id. simpl.
      match goal with
      | |- context [onBufferActivated ?b ?g' ?w'] =>
          destruct (onBufferActivated_facts b g' w') as (Hl & _)
      end.
      rewrite Hl. reflexivity. }
    split; [exact Hlist |]. split; [| split; [| split; [| split]]].
    + rewrite Hlist.
      pose proof (find_index_first
                    (fun p => (buffId (file0 p) =? buff) || (buffId (file1 p) =? buff))
                    (compareList g)) as Hfirst.
      unfold getCompare in Hsome. rewrite Hsome in Hfirst. destruct Hfirst as (p & Hp & _).
      apply (length_remove_nth _ _ p Hp).
    + unfold r, clearComparePair. rewrite Hsome. unfold sbind, call, ask, id. simpl.
      match goal with
      | |- context [onBufferActivated ?b ?g' ?w'] =>
          destruct (onBufferActivated_facts b g' w') as (_ & _ & Ha)
      end.
      exact Ha.
    + unfold r, clearComparePair. rewrite Hsome. unfold sbind, call, ask, id. simpl.
      match goal with
      | |- context [onBufferActivated ?b ?g' ?w'] =>
          destruct (onBufferActivated_facts b g' w') as (_ & Hu & _)
      end.
      exact Hu.
    + unfold r, clearComparePair. rewrite Hsome. unfold sbind, call, ask, id. simpl.
      match goal with
      | |- context [onBufferActivated ?b ?g' ?w'] =>
          destruct (onBufferActivated_issued b g' w') as (rest & Hrest)
      end.
      exists rest. rewrite Hrest. simpl. rewrite <- app_assoc. reflexivity.
    + intros Hothers. rewrite Hlist. unfold getCompare. apply find_index_none.
      intros q Hq. apply In_remove_other in Hq. destruct Hq as (j & Hne & Hj).
      destruct (Hothers j q Hne Hj) as (H0 & H1).
      apply orb_false_iff. split; apply Z.eqb_neq; assumption.
Qed.

End MoreHandlerFacts.

Lemma clearComparePair_effect_witness :
  let r := clearComparePair 1 (oneCompare plainPair) (mkWorld oneDiffHost []) in
  compareList (fst r) = [] /\ getCompare (compareList (fst r)) 1 = None.
Proof.
  intros r.
  destruct (proj2 (@clearComparePair_effect SimpleHost simpleHost 1 (oneCompare plainPair)
                     (mkWorld oneDiffHost [])) 0%nat ltac:(reflexivity))
    as (Hlist & _ & _ & _ & _ & Hgone).
  split; [exact Hlist |]. apply Hgone.
  intros [| j] q Hne Hq; [contradiction | destruct j; discriminate].
Defined.

(** ** Edits without automatic re-compare *)

Section EditFacts.

Context {E : Type} `{Host E}.
Variable Settings : UserSettings.

(** X14. The first edit of a clean compare.  Without automatic
    re-compare, a text modification that is not recognised as an undo
    ([undo] is null), in a pair that is not a selection compare and is
    not dirty yet, marks the pair dirty (and manually changed, outside
    equalize mode), shifts the alignment table by the lines added at the
    line of the edit when lines were added or removed, cancels the
    delayed alignment and re-compare, and refreshes the status as its
    last call; the selections and the re-compare delay stay as they
    are. *)
Theorem first_edit_marks_dirty
        (notifyCode : SCNotification) (view : Z) (cmpPair : nat)
        (g : Globals) (w : World E) (p : ComparedPair) :
  RecompareOnChange Settings = false ->
  textModified notifyCode = true ->
  nth_error (compareList g) cmpPair = Some p ->
  selectionCompare (options p) = false ->
  compareDirty p = false ->
  notReverting g = true \/ linesAdded notifyCode = 0 ->
  let startLine := SCI_LINEFROMPOSITION (editor w) view (position notifyCode) in
  let r := onSciModified_text Settings notifyCode view cmpPair nullptr false g w in
  exists p',
    nth_error (compareList (fst r)) cmpPair = Some p' /\
    compareDirty p' = true /\
    (inEqualizeMode p = 0 -> manuallyChanged p' = true) /\
    options p' = options p /\ autoUpdateDelay p' = autoUpdateDelay p /\
    (linesAdded notifyCode = 0 -> summary p' = summary p) /\
    (linesAdded notifyCode <> 0 ->
     out (adjustAlignment view startLine (linesAdded notifyCode) (alignmentInfo (summary p)))
     = Done (alignmentInfo (summary p'))) /\
    delayedAlignment (fst r) = None /\ delayedUpdate (fst r) = None /\
    issued (snd r) =
      issued w ++
      (if negb (linesAdded notifyCode =? 0) && UseNavBar Settings && (inEqualizeMode p =? 0)
       then [NavDlg_Show] else []) ++ [setStatus].
Proof.
  intros Hmanual Hmod Hp Hplain Hclean Hrev startLine r.
  unfold r, onSciModified_text. rewrite Hp. unfold textModified in Hmod. rewrite Hmod.
  unfold sbind, ask, id. cbv zeta. cbn [notReverting].
  assert (Hnot : (if linesAdded notifyCode =? 0 then true else notReverting g) = true).
  { destruct (Z.eqb_spec (linesAdded notifyCode) 0); [reflexivity |].
    destruct Hrev as [-> | Hzero]; [reflexivity | contradiction]. }
  rewrite Hnot. unfold markDirty. rewrite Hmanual, Hclean, Hplain. cbn [negb andb orb isNull].
  unfold adjustsSelection. cbn [setCompareDirty options selectionCompare].
  rewrite Hplain. cbn [andb].
  destruct (adjustSelection (setCompareDirty p) view
              (SCI_LINEFROMPOSITION (editor w) view (position notifyCode))
              (linesAdded notifyCode)) as [sel touched].
  cbn [andb]. fold startLine.
  destruct (adjustAlignment_total view startLine (linesAdded notifyCode)
              (alignmentInfo (summary p))) as (t & Ht).
  change (options (setCompareDirty p)) with (options p). rewrite Hplain.
  destruct (Z.eqb_spec (linesAdded notifyCode) 0) as [Hzero | Hlines]; cbn [negb andb orb].
  - unfold sret, call. cbn [fst snd commit compareList delayedAlignment delayedUpdate
                            editor issued].
    eexists. split; [eapply nth_error_replace; exact Hp |].
    cbn [setCompareDirty compareDirty manuallyChanged options autoUpdateDelay summary].
    split; [reflexivity |].
    split; [intros ->; reflexivity |]. split; [reflexivity |]. split; [reflexivity |].
    split; [reflexivity |]. split; [intros Hne; contradiction |].
    split; [reflexivity |]. split; reflexivity.
  - destruct (UseNavBar Settings && (inEqualizeMode p =? 0)) eqn:Hnav.
    + assert (Hnav' : UseNavBar Settings
                      && (inEqualizeMode
                            (with_alignmentInfo (setCompareDirty p)
                               (adjustedAlignment view startLine (linesAdded notifyCode)
                                  (alignmentInfo (summary (setCompareDirty p))))) =? 0) = true)
        by exact Hnav.
      rewrite Hnav'. unfold sret, call.
      cbn [fst snd commit compareList delayedAlignment delayedUpdate editor issued].
      eexists. split; [eapply nth_error_replace; exact Hp |].
      cbn [with_alignmentInfo setCompareDirty compareDirty manuallyChanged options
           autoUpdateDelay summary alignmentInfo].
      split; [reflexivity |].
      split; [intros ->; reflexivity |]. split; [reflexivity |]. split; [reflexivity |].
      split; [intros Hz; contradiction |].
      split; [intros _; unfold adjustedAlignment; rewrite Ht; reflexivity |].
      split; [reflexivity |]. split; [reflexivity |].
      rewrite <- app_assoc. reflexivity.
    + assert (Hnav' : UseNavBar Settings
                      && (inEqualizeMode
                            (with_alignmentInfo (setCompareDirty p)
                               (adjustedAlignment view startLine (linesAdded notifyCode)
                                  (alignmentInfo (summary (setCompareDirty p))))) =? 0) = false)
        by exact Hnav.
      rewrite Hnav'. unfold sret, call.
      cbn [fst snd commit compareList delayedAlignment delayedUpdate editor issued].
      eexists. split; [eapply nth_error_replace; exact Hp |].
      cbn [with_alignmentInfo setCompareDirty compareDirty manuallyChanged options
           autoUpdateDelay summary alignmentInfo].
      split; [reflexivity |].
      split; [intros ->; reflexivity |]. split; [reflexivity |]. split; [reflexivity |].
      split; [intros Hz; contradiction |].
      split; [intros _; unfold adjustedAlignment; rewrite Ht; reflexivity |].
      split; [reflexivity |]. split; reflexivity.
Qed.

(** X15. An edit recognised as the undo of a recorded deletion
    ([undo] is not null) never marks the pair dirty and shifts neither
    the alignment table nor the selections: the pair it leaves differs
    from the one it found at most in its re-compare delay (set when the
    comparison is recomputed on change), and the status is not
    refreshed.  When the selections were restored with it and lines were
    added, the annotations of both views are cleared and a re-alignment
    is forced. *)
Theorem undo_edit_keeps_pair
        (notifyCode : SCNotification) (view : Z) (cmpPair : nat) (address : Z)
        (selectionsAdjusted : bool) (g : Globals) (w : World E) (p : ComparedPair) :
  textModified notifyCode = true ->
  nth_error (compareList g) cmpPair = Some p ->
  let r := onSciModified_text Settings notifyCode view cmpPair (object address)
                              selectionsAdjusted g w in
  let forced := negb (RecompareOnChange Settings) && negb (linesAdded notifyCode =? 0)
                && selectionsAdjusted in
  nth_error (compareList (fst r)) cmpPair =
    Some (if RecompareOnChange Settings
          then with_autoUpdateDelay p (if linesAdded notifyCode =? 0 then 1000 else 500)
          else p) /\
  ~ In setStatus (skipn (length (issued w)) (issued (snd r))) /\
  selectionAutoRecompare (fst r) = (if forced then true else selectionAutoRecompare g) /\
  (forced = true ->
   exists rest,
     issued (snd r) = issued w ++ SCI_ANNOTATIONCLEARALL view ::
                      SCI_ANNOTATIONCLEARALL (getOtherViewId view) :: rest).
Proof.
  intros Hmod Hp r forced.
  unfold r, forced, onSciModified_text. rewrite Hp. unfold textModified in Hmod. rewrite Hmod.
  unfold sbind, ask, id. cbv zeta. unfold markDirty, adjustsSelection.
  cbn [isNull]. rewrite !andb_false_r. cbn [andb].
  destruct (adjustSelection p view (SCI_LINEFROMPOSITION (editor w) view (position notifyCode))
              (linesAdded notifyCode)) as [sel touched].
  cbn [andb].
  destruct (RecompareOnChange Settings); cbn [negb andb].
  - unfold sret. cbn [fst snd commit compareList selectionAutoRecompare].
    split; [destruct (linesAdded notifyCode =? 0); eapply nth_error_replace; exact Hp |].
    split; [rewrite skipn_all; intros [] |]. split; [reflexivity | discriminate].
  - destruct (negb (linesAdded notifyCode =? 0)) eqn:Hlines; cbn [andb];
      destruct selectionsAdjusted; cbn [andb];
      destruct (UseNavBar Settings && (inEqualizeMode p =? 0));
      unfold sret, call;
      cbn [fst snd commit compareList selectionAutoRecompare editor issued];
      (split; [eapply nth_error_replace; exact Hp |]);
      (split; [rewrite <- ?app_assoc, ?skipn_app, ?skipn_all, ?Nat.sub_diag; simpl;
               intuition discriminate |]);
      (split; [reflexivity |]);
      try discriminate;
      intros _; eexists; rewrite <- ?app_assoc; reflexivity.
Qed.

End EditFacts.

(** The deletion of five lines from line 3 on in a clean compare with
    the four-entry table: the pair is dirty, the entries on lines 3 and 6
    of the main view are gone and the entry on line 9 is on line 4. *)
Lemma first_edit_marks_dirty_witness :
  let r := onSciModified_text freeCaret fiveLinesDeleted MAIN_VIEW 0 nullptr false
                              (oneCompare tablePair) (mkWorld oneDiffHost []) in
  exists p',
    nth_error (compareList (fst r)) 0 = Some p' /\
    compareDirty p' = true /\
    out (adjustAlignment MAIN_VIEW 3 (- 5) fourEntries) = Done (alignmentInfo (summary p')) /\
    alignmentInfo (summary p') =
      [mkPair (mkViewData 0 0) (mkViewData 0 0); mkPair (mkViewData 4 0) (mkViewData 9 0)] /\
    issued (snd r) = [setStatus].
Proof.
  intros r.
  destruct (@first_edit_marks_dirty SimpleHost simpleHost freeCaret fiveLinesDeleted MAIN_VIEW
              0%nat (oneCompare tablePair) (mkWorld oneDiffHost []) tablePair
              eq_refl eq_refl eq_refl eq_refl eq_refl (or_introl eq_refl))
    as (p' & Hnth & Hdirty & _ & _ & _ & _ & Htable & _ & _ & Hcalls).
  exists p'. split; [exact Hnth |]. split; [exact Hdirty |].
  specialize (Htable ltac:(discriminate)).
  split; [exact Htable |].
  split; [| exact Hcalls].
  assert (Heq : Done [mkPair (mkViewData 0 0) (mkViewData 0 0);
                      mkPair (mkViewData 4 0) (mkViewData 9 0)] =
                Done (alignmentInfo (summary p'))) by exact Htable.
  injection Heq as <-. reflexivity.
Defined.

(** The insert that undoes a deletion, after the selections were
    restored: the clean pair stays clean and keeps its table. *)
Lemma undo_edit_keeps_pair_witness :
  let r := onSciModified_text freeCaret twoLinesInserted MAIN_VIEW 0 (object 7) true
                              (oneCompare tablePair) (mkWorld oneDiffHost []) in
  nth_error (compareList (fst r)) 0 = Some tablePair /\
  selectionAutoRecompare (fst r) = true.
Proof.
  intros r.
  destruct (@undo_edit_keeps_pair SimpleHost simpleHost freeCaret twoLinesInserted MAIN_VIEW
              0%nat 7 true (oneCompare tablePair) (mkWorld oneDiffHost []) tablePair
              eq_refl eq_refl)
    as (Hnth & _ & Hforce & _).
  split; [exact Hnth | exact Hforce].
Defined.

(** ** The tracked selection *)

(** X16. How the tracked selection [first .. second] of a view follows
    an edit of [added] lines at [startLine], outside equalize mode.
    Lines put in above the selection move both ends down by their
    number; lines put in at a line of the selection make it longer by
    their number; lines taken out wholly above it ([startLine + |added|
    - 1 < first]) move both ends up; an edit below it leaves it alone
    and is not counted as an adjustment.  So lines put in never leave
    the selection without a line. *)
Theorem adjustSelection_cases (p : ComparedPair) (view startLine added : Z) :
  inEqualizeMode p = 0 ->
  fst (selections (options p) view) <= snd (selections (options p) view) ->
  let first := fst (selections (options p) view) in
  let second := snd (selections (options p) view) in
  let r := adjustSelection p view startLine added in
  (0 < added -> startLine < first -> r = ((first + added, second + added), true)) /\
  (0 < added -> first <= startLine <= second -> r = ((first, second + added), true)) /\
  (added < 0 -> startLine - added - 1 < first ->
   r = ((first + added, second + added), true)) /\
  (second < startLine -> r = ((first, second), false)) /\
  (0 < added -> fst (fst r) <= snd (fst r)).
Proof.
  intros Hmode Hvalid first second r.
  unfold r, adjustSelection. fold first second. rewrite Hmode. cbn [Z.eqb negb andb].
  split; [| split; [| split; [| split]]].
  - intros Hadd Hbefore.
    destruct (Z.gtb_spec first startLine); [| lia].
    destruct (Z.gtb_spec added 0); [| lia].
    destruct (Z.geb_spec second startLine); [| lia]. reflexivity.
  - intros Hadd Hin.
    destruct (Z.gtb_spec first startLine); [lia |].
    destruct (Z.gtb_spec added 0); [| lia].
    destruct (Z.geb_spec second startLine); [| lia]. reflexivity.
  - intros Hdel Habove.
    destruct (Z.gtb_spec first startLine); [| lia].
    destruct (Z.gtb_spec added 0); [lia |].
    rewrite Z.abs_neq by lia.
    destruct (Z.gtb_spec first (startLine + - added - 1)); [| lia].
    destruct (Z.geb_spec second startLine); [| lia].
    destruct (Z.geb_spec second (startLine + - added - 1)); [| lia]. reflexivity.
  - intros Hbelow.
    destruct (Z.gtb_spec first startLine); [lia |].
    destruct (Z.geb_spec second startLine); [lia |]. reflexivity.
  - intros Hadd.
    destruct (Z.gtb_spec added 0); [| lia].
    destruct (Z.gtb_spec first startLine); destruct (Z.geb_spec second startLine);
      simpl; lia.
Qed.

Lemma adjustSelection_cases_witness :
  adjustSelection selectionPair MAIN_VIEW 3 2 = ((7, 8), true) /\
  adjustSelection selectionPair MAIN_VIEW 8 2 = ((5, 6), false).
Proof.
  pose proof (adjustSelection_cases selectionPair MAIN_VIEW 3 2 eq_refl ltac:(simpl; lia))
    as (Habove & _).
  pose proof (adjustSelection_cases selectionPair MAIN_VIEW 8 2 eq_refl ltac:(simpl; lia))
    as (_ & _ & _ & Hbelow & _).
  split; [apply Habove; simpl; lia | apply Hbelow; simpl; lia].
Defined.

Section SelectionCompareFacts.

Context {E : Type} `{Host E}.
Variable Settings : UserSettings.

(** X17. Lines put in below the selection of a selection compare do
    not disturb it.  Without automatic re-compare and outside equalize
    mode, an insert after the last line of the tracked selection of its
    view (not recognised as an undo) leaves the pair as it is -- not
    dirty on that account, the same selections, the same alignment
    table -- and makes no call but the one that shows the navigation bar
    when lines were added and the bar is in use. *)
Theorem insert_below_selection
        (notifyCode : SCNotification) (view : Z) (cmpPair : nat)
        (g : Globals) (w : World E) (p : ComparedPair) :
  RecompareOnChange Settings = false ->
  textModified notifyCode = true ->
  flagged (modificationType notifyCode) SC_MOD_DELETETEXT = false ->
  nth_error (compareList g) cmpPair = Some p ->
  selectionCompare (options p) = true ->
  inEqualizeMode p = 0 ->
  fst (selections (options p) view) <= snd (selections (options p) view) ->
  snd (selections (options p) view)
    < SCI_LINEFROMPOSITION (editor w) view (position notifyCode) ->
  let r := onSciModified_text Settings notifyCode view cmpPair nullptr false g w in
  exists p',
    nth_error (compareList (fst r)) cmpPair = Some p' /\
    compareDirty p' = compareDirty p /\ manuallyChanged p' = manuallyChanged p /\
    summary p' = summary p /\
    (forall v, selections (options p') v = selections (options p) v) /\
    selectionAutoRecompare (fst r) = selectionAutoRecompare g /\
    issued (snd r) =
      issued w ++ (if negb (linesAdded notifyCode =? 0) && UseNavBar Settings
                   then [NavDlg_Show] else []).
Proof.
  intros Hmanual Hmod Hins Hp Hsel Hmode Hvalid Hbelow r.
  set (startLine := SCI_LINEFROMPOSITION (editor w) view (position notifyCode)) in *.
  assert (Hmark : forall b, markDirty Settings notifyCode view startLine nullptr b p = (p, false)).
  { intros b. unfold markDirty. rewrite Hmanual, Hsel, Hins.
    unfold inSelection. destruct (Z.leb_spec startLine (snd (selections (options p) view)));
      [lia |].
    rewrite !andb_false_r. cbn [negb andb isNull].
    destruct b; [| reflexivity].
    destruct (negb (compareDirty p) || (inEqualizeMode p =? 0) && negb (manuallyChanged p));
      reflexivity. }
  assert (Hkeep : adjustSelection p view startLine (linesAdded notifyCode) =
                  ((fst (selections (options p) view), snd (selections (options p) view)),
                   false)).
  { unfold adjustSelection. rewrite Hmode. cbn [Z.eqb negb andb].
    destruct (Z.gtb_spec (fst (selections (options p) view)) startLine); [lia |].
    destruct (Z.geb_spec (snd (selections (options p) view)) startLine); [lia |].
    reflexivity. }
  unfold r, onSciModified_text. rewrite Hp. unfold textModified in Hmod. rewrite Hmod.
  unfold sbind, ask, id. cbv zeta. fold startLine. rewrite Hmark, Hkeep.
  unfold adjustsSelection. rewrite Hsel, Hmanual. cbn [isNull negb andb].
  rewrite andb_true_r.
  assert (Hnocollapse :
            (snd (fst (selections (options p) view), snd (selections (options p) view))
             <? fst (fst (selections (options p) view), snd (selections (options p) view)))
            = false) by (apply Z.ltb_ge; simpl; lia).
  rewrite Hnocollapse.
  destruct (negb (linesAdded notifyCode =? 0)) eqn:Hlines; cbn [andb orb].
  - cbn [with_selection options selectionCompare inEqualizeMode].
    rewrite Hsel. cbn [negb orb].
    match goal with
    | |- context [inEqualizeMode (with_selection p view ?s)] =>
        change (inEqualizeMode (with_selection p view s)) with (inEqualizeMode p)
    end.
    rewrite Hmode. cbn [Z.eqb]. rewrite andb_true_r.
    destruct (UseNavBar Settings); unfold sret, call;
      cbn [fst snd commit compareList selectionAutoRecompare editor issued];
      (eexists; split; [eapply nth_error_replace; exact Hp |]);
      cbn [with_selection compareDirty manuallyChanged summary options selections];
      (split; [reflexivity |]); (split; [reflexivity |]); (split; [reflexivity |]);
      (split; [intros v; destruct (v =? view) eqn:Hv;
               [apply Z.eqb_eq in Hv; subst v; now destruct (selections (options p) view)
               | reflexivity] |]);
      (split; [reflexivity |]); rewrite ?app_nil_r; reflexivity.
  - unfold sret. cbn [fst snd commit compareList selectionAutoRecompare editor issued].
    exists p. split; [eapply nth_error_replace; exact Hp |].
    repeat split. now rewrite app_nil_r.
Qed.

End SelectionCompareFacts.

Lemma insert_below_selection_witness :
  let g := oneCompare selectionPair in
  let r := onSciModified_text freeCaret
             (mkNotification (SC_MOD_INSERTTEXT + SC_PERFORMED_USER) 8 2) MAIN_VIEW 0
             nullptr false g (mkWorld oneDiffHost []) in
  exists p',
    nth_error (compareList (fst r)) 0 = Some p' /\
    compareDirty p' = false /\ summary p' = summary selectionPair /\
    selections (options p') MAIN_VIEW = (5, 6).
Proof.
  intros g r.
  destruct (@insert_below_selection SimpleHost simpleHost freeCaret
              (mkNotification (SC_MOD_INSERTTEXT + SC_PERFORMED_USER) 8 2) MAIN_VIEW
              0%nat g (mkWorld oneDiffHost []) selectionPair
              eq_refl eq_refl eq_refl eq_refl eq_refl eq_refl
              ltac:(simpl; lia) ltac:(simpl; lia))
    as (p' & Hnth & Hdirty & _ & Hsum & Hsel & _).
  exists p'. split; [exact Hnth |]. split; [exact Hdirty |]. split; [exact Hsum |].
  apply Hsel.
Defined.

(** ** A deletion and its undo *)

Section ModifiedFacts.

Context {E : Type} `{NppHost E}.
Variable Settings : UserSettings.

(** The text block on a pair that is not a selection compare, without
    automatic re-compare: the pair stays in the list, with its files and
    options. *)
Lemma onSciModified_text_plain (notifyCode : SCNotification) (view : Z) (cmpPair : nat)
      (undo : shared_ptr) (selectionsAdjusted : bool) (g : Globals) (w : World E)
      (p : ComparedPair) :
  RecompareOnChange Settings = false ->
  nth_error (compareList g) cmpPair = Some p ->
  selectionCompare (options p) = false ->
  exists p',
    nth_error (compareList (fst (onSciModified_text Settings notifyCode view cmpPair undo
                                                    selectionsAdjusted g w))) cmpPair
    = Some p' /\
    file0 p' = file0 p /\ file1 p' = file1 p /\ options p' = options p /\
    (textModified notifyCode = true -> linesAdded notifyCode <> 0 -> undo = nullptr ->
     alignmentInfo (summary p') =
     adjustedAlignment view (SCI_LINEFROMPOSITION (editor w) view (position notifyCode))
                       (linesAdded notifyCode) (alignmentInfo (summary p))).
Proof.
  intros Hmanual Hp Hplain. unfold onSciModified_text, textModified. rewrite Hp.
  destruct (flagged (modificationType notifyCode) SC_MOD_DELETETEXT
            || flagged (modificationType notifyCode) SC_MOD_INSERTTEXT);
    [| exists p; simpl; split; [exact Hp |]; split; [reflexivity |];
       split; [reflexivity |]; split; [reflexivity |]; intros; discriminate].
  unfold sbind, ask, id. cbv zeta.
  match goal with
  | |- context [markDirty Settings notifyCode view ?s undo ?r p] =>
      pose proof (markDirty_keeps Settings notifyCode view s undo r p) as Hkeep;
      destruct (markDirty Settings notifyCode view s undo r p) as [p1 updateStatus]
  end.
  simpl in Hkeep. destruct Hkeep as (Hf0 & Hf1 & Hopt & Hsum & Heqz & Hdelay).
  cbv beta iota. unfold adjustsSelection.
  match goal with
  | |- context [adjustSelection p1 view ?s ?a] => destruct (adjustSelection p1 view s a)
  end.
  cbv beta iota. rewrite !Hopt, !Hplain, !Hmanual. cbn [andb negb orb].
  rewrite ?Hopt, ?Hplain. cbn [andb negb orb]. rewrite ?andb_true_r.
  destruct (Z.eqb_spec (linesAdded notifyCode) 0) as [Hzero | Hlines]; cbn [negb andb];
    destruct undo as [| address]; cbn [isNull andb];
    split_ifs; unfold sbind, sret, call; cbn [fst snd commit compareList];
    (eexists; split; [eapply nth_error_replace; exact Hp |]);
    cbn [with_alignmentInfo file0 file1 options summary alignmentInfo];
    (split; [exact Hf0 |]); (split; [exact Hf1 |]); (split; [exact Hopt |]);
    intros _ Hne Hnull; try contradiction; try discriminate;
    rewrite Hsum; reflexivity.
Qed.

(** The text block on an edit recognised as an undo, without automatic
    re-compare: the pair is left as it is. *)
Lemma onSciModified_text_undo (notifyCode : SCNotification) (view : Z) (cmpPair : nat)
      (address : Z) (selectionsAdjusted : bool) (g : Globals) (w : World E)
      (p : ComparedPair) :
  RecompareOnChange Settings = false ->
  textModified notifyCode = true ->
  nth_error (compareList g) cmpPair = Some p ->
  nth_error (compareList (fst (onSciModified_text Settings notifyCode view cmpPair
                                                  (object address) selectionsAdjusted g w)))
            cmpPair = Some p /\
  exists rest,
    issued (snd (onSciModified_text Settings notifyCode view cmpPair
                                    (object address) selectionsAdjusted g w))
    = issued w ++ rest.
Proof.
  intros Hmanual Hmod Hp. unfold onSciModified_text. rewrite Hp.
  unfold textModified in Hmod. rewrite Hmod.
  unfold sbind, ask, id. cbv zeta. unfold markDirty, adjustsSelection.
  cbn [isNull]. rewrite !andb_false_r. cbn [andb]. rewrite Hmanual.
  match goal with
  | |- context [adjustSelection p view ?s ?a] => destruct (adjustSelection p view s a)
  end.
  cbn [andb negb].
  destruct (negb (linesAdded notifyCode =? 0)); cbn [andb];
    destruct selectionsAdjusted; cbn [andb];
    destruct (UseNavBar Settings && (inEqualizeMode p =? 0));
    unfold sret, call; cbn [fst snd commit compareList editor issued];
    (split; [eapply nth_error_replace; exact Hp |]);
    eexists; rewrite <- ?app_assoc;
    first [reflexivity | symmetry; apply app_nil_r].
Qed.

Lemma issued_perform (cs : list Command) : forall w : World E,
  issued (perform cs w) = issued w ++ cs.
Proof.
  induction cs as [| c cs IH]; intros w.
  - simpl. now rewrite app_nil_r.
  - change (perform (c :: cs) w) with (perform cs (snd (call c w))).
    rewrite IH. simpl. now rewrite <- app_assoc.
Qed.

(** The [pop] that meets the entry a [push] has made. *)
Lemma pop_pushed (view action startLine len : Z) (undo : shared_ptr) (stamp : Z)
      (below : list DeletedSection.t) (e : E) (w' : World E) :
  pop view (inverseAction action) startLine
      (mkSections stamp (below ++ [pushedEntry Settings e view action startLine len undo])) w'
  = ((undo, mkSections stamp below),
     perform (restoreCalls view startLine
                           (capturedMarkers Settings e view startLine len)
                           (capturedNextLineMarker Settings e view startLine len))
             w').
Proof.
  unfold pop. cbn [sections lastPushTimeMark]. rewrite back_push.
  unfold pushedEntry.
  cbn [DeletedSection.startLine DeletedSection.restoreAction DeletedSection.markers
       DeletedSection.nextLineMarker DeletedSection.undoInfo].
  rewrite !Z.eqb_refl. cbn [negb].
  unfold sbind, sret, call. rewrite pop_back_push.
  destruct (capturedMarkers Settings e view startLine len) as [| m ms]; [reflexivity |].
  assert (Hsize : (size (m :: ms) =? 0) = false)
    by (apply Z.eqb_neq; unfold size; simpl; lia).
  rewrite Hsize. cbn [negb]. unfold restoreCalls.
  destruct (capturedNextLineMarker Settings e view startLine len =? 0); reflexivity.
Qed.

(** The state the announcement of a deletion leaves, without automatic
    re-compare and for a pair that is neither a selection compare nor in
    equalize mode: the alignment table is saved in a new object and the
    section is pushed with the pointer to it. *)
Lemma onSciModified_announced (notifyCode : SCNotification) (length view : Z)
      (cmpPair : nat) (s : Engine) (p : ComparedPair) (w : World E) (L k : Z) :
  RecompareOnChange Settings = false ->
  nth_error (compareList (globals s)) cmpPair = Some p ->
  selectionCompare (options p) = false ->
  inEqualizeMode p = 0 ->
  flagged (modificationType notifyCode) SC_MOD_BEFOREDELETE = true ->
  SCI_LINEFROMPOSITION (editor w) view (position notifyCode) = L ->
  SCI_LINEFROMPOSITION (editor w) view (position notifyCode + length) = L + k ->
  0 < k ->
  let f := getFileByViewId (editor w) p view in
  let action := performedAction notifyCode in
  revertsReplace (deletedSections f) action = false ->
  onSciModified Settings notifyCode length view cmpPair s w =
  (mkEngine
     (with_notReverting
        (commit (globals s) cmpPair
           (setFileByViewId (editor w) p view
              (mkFile (buffId f) (sciDoc f) (compareViewId f)
                 (mkSections (GetTickCount (editor w))
                    (sections (deletedSections f) ++
                     [pushedEntry Settings (editor w) (compareViewId f) action L k
                                  (object (size (heap s)))])))))
        true)
     (heap s ++ [mkUndoData (alignmentInfo (summary p)) (-1, -1) []])
     (copiedSectionMarks s),
   w).
Proof.
  intros Hmanual Hp Hplain Hmode Hflag Hl Hl' Hk f action Haccept.
  unfold onSciModified. rewrite Hp, Hflag.
  unfold onSciModified_beforeDelete. unfold sbind at 1. unfold ask at 1. unfold id.
  cbv zeta. rewrite Hl, Hl'.
  destruct (Z.leb_spec (L + k) L) as [Hle | _]; [lia |].
  rewrite Hplain, Hmanual, Hmode. cbn [negb isNull andb Z.eqb fst snd editor].
  unfold make_shared, store. rewrite lookup_app_size.
  replace (Z.to_nat (size (heap s))) with (Datatypes.length (heap s)) by (unfold size; lia).
  rewrite replace_nth_app. cbn [alignment selection otherViewMarks newUndoData].
  unfold pushDeletedSection, sbind, sret. fold f action.
  replace (L + k - L) with k by lia.
  rewrite (push_accepted Settings (compareViewId f) action L k (object (size (heap s)))
                         (deletedSections f) w ltac:(lia) Haccept).
  rewrite Hmanual. cbn [perform fold_left fst snd]. reflexivity.
Qed.

(** The state the report of the insert that undoes that deletion
    leaves: the section is popped, its markers are put back, and the
    saved table is the table of the pair again. *)
Lemma onSciModified_undone (notifyCode : SCNotification) (length view : Z)
      (cmpPair : nat) (s : Engine) (p : ComparedPair) (w : World E)
      (L k stamp address action : Z) (below : list DeletedSection.t) (e0 : E)
      (d : UndoData) :
  RecompareOnChange Settings = false ->
  nth_error (compareList (globals s)) cmpPair = Some p ->
  flagged (modificationType notifyCode) SC_MOD_BEFOREDELETE = false ->
  flagged (modificationType notifyCode) SC_MOD_INSERTTEXT = true ->
  linesAdded notifyCode <> 0 ->
  performedAction notifyCode = inverseAction action ->
  SCI_LINEFROMPOSITION (editor w) view (position notifyCode) = L ->
  let f := getFileByViewId (editor w) p view in
  deletedSections f =
    mkSections stamp
      (below ++ [pushedEntry Settings e0 (compareViewId f) action L k (object address)]) ->
  lookup (heap s) address = Some d ->
  selection d = (-1, -1) -> otherViewMarks d = [] ->
  let r := onSciModified Settings notifyCode length view cmpPair s w in
  nth_error (compareList (globals (fst r))) cmpPair =
    Some (with_alignmentInfo
            (setFileByViewId (editor w) p view
               (mkFile (buffId f) (sciDoc f) (compareViewId f) (mkSections stamp below)))
            (alignment d)) /\
  exists rest,
    issued (snd r) =
    issued w ++
    restoreCalls (compareViewId f) L
                 (capturedMarkers Settings e0 (compareViewId f) L k)
                 (capturedNextLineMarker Settings e0 (compareViewId f) L k) ++ rest.
Proof.
  intros Hmanual Hp Hbefore Hins Hlines Haction Hl f Htracker Hobject Hsel Hmarks r.
  unfold r, onSciModified. rewrite Hp, Hbefore.
  unfold sbind.
  assert (Hinsert :
    onSciModified_insert Settings notifyCode view cmpPair p s w =
    ((object address, false,
      mkEngine (commit (with_notReverting (globals s) true) cmpPair
                  (with_alignmentInfo
                     (setFileByViewId (editor w) p view
                        (mkFile (buffId f) (sciDoc f) (compareViewId f)
                                (mkSections stamp below)))
                     (alignment d)))
               (store (heap s) (object address)
                      (fun d => mkUndoData [] (selection d) (otherViewMarks d)))
               (copiedSectionMarks s)),
     perform (restoreCalls (compareViewId f) L
                (capturedMarkers Settings e0 (compareViewId f) L k)
                (capturedNextLineMarker Settings e0 (compareViewId f) L k)) w)).
  { unfold onSciModified_insert. rewrite Hins.
    destruct (Z.eqb_spec (linesAdded notifyCode) 0) as [Hz | _]; [contradiction |].
    cbn [negb andb]. unfold popDeletedSection, sbind, ask, id. cbv zeta.
    rewrite Hl. fold f.
    rewrite Htracker, Haction, (pop_pushed (compareViewId f) action L k (object address)).
    unfold sret. cbn [fst snd isNull negb]. unfold load.
    rewrite Hobject, Hsel, Hmarks, Hmanual. reflexivity. }
  rewrite Hinsert. cbv beta iota. cbn [fst snd globals heap copiedSectionMarks].
  set (p' := with_alignmentInfo _ _).
  set (w' := perform _ w).
  set (g' := commit _ cmpPair p').
  assert (Hp' : nth_error (compareList g') cmpPair = Some p')
    by (unfold g'; simpl; eapply nth_error_replace; exact Hp).
  assert (Hmod : textModified notifyCode = true)
    by (unfold textModified; rewrite Hins; apply orb_true_r).
  destruct (onSciModified_text_undo notifyCode view cmpPair address false g' w' p'
              Hmanual Hmod Hp') as (Hpair & rest & Hrest).
  unfold sret.
  destruct (onSciModified_text Settings notifyCode view cmpPair (object address) false g' w')
    as [g'' w''].
  cbn [fst snd globals] in *. split; [exact Hpair |].
  exists rest. rewrite Hrest. unfold w'. rewrite app_assoc. f_equal.
  apply issued_perform.
Qed.

(** The report of a deletion, for a pair that is not a selection
    compare and without automatic re-compare: only the text block
    runs. *)
Lemma onSciModified_reported (notifyCode : SCNotification) (length view : Z)
      (cmpPair : nat) (s : Engine) (p : ComparedPair) (w : World E) :
  RecompareOnChange Settings = false ->
  nth_error (compareList (globals s)) cmpPair = Some p ->
  selectionCompare (options p) = false ->
  flagged (modificationType notifyCode) SC_MOD_BEFOREDELETE = false ->
  flagged (modificationType notifyCode) SC_MOD_INSERTTEXT = false ->
  flagged (modificationType notifyCode) SC_MOD_DELETETEXT = true ->
  linesAdded notifyCode <> 0 ->
  let r := onSciModified Settings notifyCode length view cmpPair s w in
  exists p',
    nth_error (compareList (globals (fst r))) cmpPair = Some p' /\
    file0 p' = file0 p /\ file1 p' = file1 p /\ options p' = options p /\
    heap (fst r) = heap s /\
    alignmentInfo (summary p') =
    adjustedAlignment view (SCI_LINEFROMPOSITION (editor w) view (position notifyCode))
                      (linesAdded notifyCode) (alignmentInfo (summary p)).
Proof.
  intros Hmanual Hp Hplain Hbefore Hins Hdel Hlines r.
  unfold r, onSciModified. rewrite Hp, Hbefore. unfold sbind, onSciModified_insert.
  rewrite Hins. cbn [andb]. unfold sret. cbv beta iota.
  destruct (onSciModified_text_plain notifyCode view cmpPair nullptr false (globals s) w p
              Hmanual Hp Hplain) as (p' & Hp' & Hf0 & Hf1 & Hopt & Htable).
  destruct (onSciModified_text Settings notifyCode view cmpPair nullptr false (globals s) w)
    as [g' w'].
  cbn [fst snd globals heap] in *.
  exists p'. split; [exact Hp' |]. split; [exact Hf0 |]. split; [exact Hf1 |].
  split; [exact Hopt |]. split; [reflexivity |].
  apply Htable; [unfold textModified; rewrite Hdel; reflexivity | exact Hlines | reflexivity].
Qed.

(** The file of a view, after an assignment to it, on a host that
    shows the first buffer of the pair in the same view. *)
Lemma getFile_setFile (e e' : E) (p q : ComparedPair) (view : Z) (f' : ComparedFile) :
  viewIdFromBuffId e' (buffId (file0 p)) = viewIdFromBuffId e (buffId (file0 p)) ->
  buffId f' = buffId (getFileByViewId e p view) ->
  file0 q = file0 (setFileByViewId e p view f') ->
  file1 q = file1 (setFileByViewId e p view f') ->
  getFileByViewId e' q view = f'.
Proof.
  unfold getFileByViewId, setFileByViewId. intros Hsame Hbuff Hq0 Hq1.
  rewrite Hq0, Hq1.
  destruct (viewIdFromBuffId e (buffId (file0 p)) =? view) eqn:Hview; simpl.
  - rewrite Hbuff, Hsame, Hview. reflexivity.
  - rewrite Hsame, Hview. reflexivity.
Qed.

Lemma setFile_keeps (e : E) (p : ComparedPair) (view : Z) (f' : ComparedFile) :
  options (setFileByViewId e p view f') = options p /\
  summary (setFileByViewId e p view f') = summary p.
Proof.
  unfold setFileByViewId. destruct (viewIdFromBuffId e (buffId (file0 p)) =? view);
    split; reflexivity.
Qed.

Lemma setFile_buffer (e : E) (p : ComparedPair) (view : Z) (f' : ComparedFile) :
  buffId f' = buffId (getFileByViewId e p view) ->
  buffId (file0 (setFileByViewId e p view f')) = buffId (file0 p).
Proof.
  unfold setFileByViewId, getFileByViewId.
  destruct (viewIdFromBuffId e (buffId (file0 p)) =? view); simpl; auto.
Qed.

(** X18. A deletion and its undo.  Without automatic re-compare, for a
    pair that is neither a selection compare nor in equalize mode:
    when Scintilla announces the deletion by the user of [k >= 1] lines
    from line [L] on in a view, reports it, and then reports the insert
    that undoes it at the same position -- whatever the documents have
    become in between --, the alignment table, which the report of the
    deletion had shifted by [-k], is again the table from before the
    deletion, the stack of deleted sections of the file is the one from
    before, the options are untouched, and the markers captured at the
    announcement are put back first. *)
Theorem delete_undo_restores (view : Z) (cmpPair : nat) (s0 : Engine) (p0 : ComparedPair)
        (w1 w2 w3 : World E) (pos len L k : Z) :
  RecompareOnChange Settings = false ->
  nth_error (compareList (globals s0)) cmpPair = Some p0 ->
  selectionCompare (options p0) = false ->
  inEqualizeMode p0 = 0 ->
  SCI_LINEFROMPOSITION (editor w1) view pos = L ->
  SCI_LINEFROMPOSITION (editor w1) view (pos + len) = L + k ->
  0 < k ->
  SCI_LINEFROMPOSITION (editor w3) view pos = L ->
  viewIdFromBuffId (editor w3) (buffId (file0 p0)) =
    viewIdFromBuffId (editor w1) (buffId (file0 p0)) ->
  let f := getFileByViewId (editor w1) p0 view in
  revertsReplace (deletedSections f) SC_PERFORMED_USER = false ->
  let s1 := fst (onSciModified Settings (aboutToDelete pos) len view cmpPair s0 w1) in
  let s2 := fst (onSciModified Settings (linesDeleted pos k) 0 view cmpPair s1 w2) in
  let r3 := onSciModified Settings (deletionUndone pos k) 0 view cmpPair s2 w3 in
  exists p2 p3,
    nth_error (compareList (globals s2)) cmpPair = Some p2 /\
    out (adjustAlignment view (SCI_LINEFROMPOSITION (editor w2) view pos) (- k)
                         (alignmentInfo (summary p0)))
      = Done (alignmentInfo (summary p2)) /\
    nth_error (compareList (globals (fst r3))) cmpPair = Some p3 /\
    alignmentInfo (summary p3) = alignmentInfo (summary p0) /\
    options p3 = options p0 /\
    sections (deletedSections (getFileByViewId (editor w3) p3 view)) =
      sections (deletedSections f) /\
    exists rest,
      issued (snd r3) =
      issued w3 ++
      restoreCalls (compareViewId f) L
                   (capturedMarkers Settings (editor w1) (compareViewId f) L k)
                   (capturedNextLineMarker Settings (editor w1) (compareViewId f) L k)
      ++ rest.
Proof.
  intros Hmanual Hp Hplain Hmode Hl1 Hl1' Hk Hl3 Hsame f Haccept s1 s2 r3.
  (* the announcement *)
  pose proof (onSciModified_announced (aboutToDelete pos) len view cmpPair s0 p0 w1 L k
                Hmanual Hp Hplain Hmode eq_refl Hl1 Hl1' Hk Haccept) as Hrun1.
  change (performedAction (aboutToDelete pos)) with SC_PERFORMED_USER in Hrun1.
  fold f in Hrun1.
  set (entry := pushedEntry Settings (editor w1) (compareViewId f) SC_PERFORMED_USER L k
                            (object (size (heap s0)))) in *.
  set (f1 := mkFile (buffId f) (sciDoc f) (compareViewId f)
                    (mkSections (GetTickCount (editor w1))
                                (sections (deletedSections f) ++ [entry]))) in *.
  set (p1 := setFileByViewId (editor w1) p0 view f1) in *.
  set (d1 := mkUndoData (alignmentInfo (summary p0)) (-1, -1) []) in *.
  assert (Hs1 : s1 = mkEngine (with_notReverting (commit (globals s0) cmpPair p1) true)
                              (heap s0 ++ [d1]) (copiedSectionMarks s0))
    by (unfold s1; rewrite Hrun1; reflexivity).
  assert (Hp1 : nth_error (compareList (globals s1)) cmpPair = Some p1)
    by (rewrite Hs1; simpl; eapply nth_error_replace; exact Hp).
  destruct (setFile_keeps (editor w1) p0 view f1) as (Hopt1 & Hsum1). fold p1 in Hopt1, Hsum1.
  (* the report of the deletion *)
  destruct (onSciModified_reported (linesDeleted pos k) 0 view cmpPair s1 p1 w2
              Hmanual Hp1 ltac:(rewrite Hopt1; exact Hplain) eq_refl eq_refl eq_refl
              ltac:(simpl; lia))
    as (p2 & Hp2 & Hf0 & Hf1 & Hopt2 & Hheap2 & Htable2).
  fold s2 in Hp2, Hheap2. cbn [linesDeleted position linesAdded] in Htable2.
  (* the report of the undo *)
  assert (Hfile3 : getFileByViewId (editor w3) p2 view = f1)
    by (apply (getFile_setFile (editor w1) (editor w3) p0 p2 view f1 Hsame eq_refl Hf0 Hf1)).
  assert (Hobject : lookup (heap s2) (size (heap s0)) = Some d1)
    by (rewrite Hheap2, Hs1; simpl; apply lookup_app_size).
  pose proof (onSciModified_undone (deletionUndone pos k) 0 view cmpPair s2 p2 w3
                L k (GetTickCount (editor w1)) (size (heap s0)) SC_PERFORMED_USER
                (sections (deletedSections f)) (editor w1) d1
                Hmanual Hp2 eq_refl eq_refl ltac:(simpl; lia) eq_refl Hl3) as Hrun3.
  cbv zeta in Hrun3. rewrite Hfile3 in Hrun3.
  specialize (Hrun3 eq_refl Hobject eq_refl eq_refl).
  fold r3 in Hrun3. destruct Hrun3 as (Hp3 & rest & Hcalls).
  cbn [f1 buffId sciDoc compareViewId alignment d1] in Hp3, Hcalls.
  set (f3 := mkFile (buffId f) (sciDoc f) (compareViewId f)
                    (mkSections (GetTickCount (editor w1)) (sections (deletedSections f))))
    in *.
  exists p2, (with_alignmentInfo (setFileByViewId (editor w3) p2 view f3)
                                 (alignmentInfo (summary p0))).
  split; [exact Hp2 |]. split.
  { rewrite Htable2, Hsum1. unfold adjustedAlignment.
    destruct (adjustAlignment_total view (SCI_LINEFROMPOSITION (editor w2) view pos) (- k)
                (alignmentInfo (summary p0))) as (t & Ht).
    rewrite Ht. reflexivity. }
  split; [exact Hp3 |]. split; [reflexivity |]. split.
  { cbn [with_alignmentInfo options].
    rewrite (proj1 (setFile_keeps (editor w3) p2 view f3)), Hopt2, Hopt1. reflexivity. }
  split; [| exists rest; exact Hcalls].
  assert (Hbuff2 : buffId (file0 p2) = buffId (file0 p0)).
  { rewrite Hf0. apply (setFile_buffer (editor w1) p0 view f1). reflexivity. }
  rewrite (getFile_setFile (editor w3) (editor w3) p2
             (with_alignmentInfo (setFileByViewId (editor w3) p2 view f3)
                                 (alignmentInfo (summary p0)))
             view f3 eq_refl); [reflexivity | | reflexivity | reflexivity].
  rewrite Hfile3. reflexivity.
Qed.

End ModifiedFacts.

(** Lines 3-5 of the main view of the compare with the four-entry table
    are deleted and the deletion is undone: the table is the four-entry
    table again. *)
Lemma delete_undo_restores_witness :
  let w := mkWorld oneDiffHost [] in
  let s1 := fst (onSciModified freeCaret (aboutToDelete 3) 3 MAIN_VIEW 0
                               (oneEngine tablePair) w) in
  let s2 := fst (onSciModified freeCaret (linesDeleted 3 3) 0 MAIN_VIEW 0 s1 w) in
  let r3 := onSciModified freeCaret (deletionUndone 3 3) 0 MAIN_VIEW 0 s2 w in
  exists p2 p3,
    nth_error (compareList (globals s2)) 0 = Some p2 /\
    alignmentInfo (summary p2) =
      [mkPair (mkViewData 0 0) (mkViewData 0 0); mkPair (mkViewData 3 2) (mkViewData 5 2);
       mkPair (mkViewData 6 0) (mkViewData 9 0)] /\
    nth_error (compareList (globals (fst r3))) 0 = Some p3 /\
    alignmentInfo (summary p3) = fourEntries.
Proof.
  intros w s1 s2 r3.
  destruct (@delete_undo_restores SimpleHost simpleHost simpleNpp freeCaret MAIN_VIEW 0%nat
              (oneEngine tablePair) tablePair w w w 3 3 3 3
              eq_refl eq_refl eq_refl eq_refl eq_refl eq_refl ltac:(lia) eq_refl eq_refl
              eq_refl)
    as (p2 & p3 & Hp2 & Htable2 & Hp3 & Htable3 & _).
  exists p2, p3. split; [exact Hp2 |]. split; [| split; [exact Hp3 | exact Htable3]].
  assert (Heq : Done [mkPair (mkViewData 0 0) (mkViewData 0 0);
                      mkPair (mkViewData 3 2) (mkViewData 5 2);
                      mkPair (mkViewData 6 0) (mkViewData 9 0)] =
                Done (alignmentInfo (summary p2))) by exact Htable2.
  injection Heq as <-. reflexivity.
Defined.
